(** * Profile card updater: the remote query client, the cached
      commit / lines-of-code aggregator and the rendering of the
      statistics of [update_profile.py]

    The development embeds the Python module shallowly.  Remote calls,
    the cache file, the query counters and the recursion guard are
    threaded through an explicit state; an exception is a value of type
    [exn] carried by the [Raise] outcome, and the unbounded
    [while True] paging loops take a fuel argument. *)

From Stdlib Require Import ZArith QArith Qabs Lia Bool List.
From Stdlib Require Import Ascii String DecimalString DecimalZ.
From stdpp Require Import base option list gmap strings.

Local Open Scope string_scope.
Local Open Scope list_scope.
Local Open Scope Z_scope.

Set Default Proof Using "Type".

(** ** Python text primitives *)

Module Py.

(** [str.lower]; logins and error messages are ASCII, and only the
    letters A to Z change. *)
Definition lower_char (c : ascii) : ascii :=
  let n := nat_of_ascii c in
  if (Nat.leb 65 n && Nat.leb n 90)%bool then ascii_of_nat (n + 32) else c.

Fixpoint lower (s : string) : string :=
  match s with
  | EmptyString => EmptyString
  | String c s' => String (lower_char c) (lower s')
  end.

(** [needle in hay]. *)
Fixpoint contains (needle hay : string) : bool :=
  String.prefix needle hay ||
  match hay with
  | EmptyString => false
  | String _ hay' => contains needle hay'
  end.

(** [sep.join(parts)]. *)
Fixpoint join (sep : string) (parts : list string) : string :=
  match parts with
  | [] => ""
  | [p] => p
  | p :: ps => p +:+ sep +:+ join sep ps
  end.

(** Characters [str.split()] treats as separators. *)
Definition is_space (c : ascii) : bool :=
  let n := nat_of_ascii c in
  (Nat.leb 9 n && Nat.leb n 13) || (Nat.leb 28 n && Nat.leb n 32)
  || Nat.eqb n 133 || Nat.eqb n 160.

(** [s.split()]: the maximal runs of non-space characters. *)
Fixpoint split (s : string) : list string :=
  match s with
  | EmptyString => []
  | String c s' =>
      if is_space c then split s'
      else match s' with
           | EmptyString => [String c EmptyString]
           | String c' _ =>
               if is_space c' then String c EmptyString :: split s'
               else match split s' with
                    | w :: ws => String c w :: ws
                    | [] => [String c EmptyString]
                    end
           end
  end.

(** [s.split(sep)] for a one-character separator. *)
Fixpoint split_on (sep : ascii) (s : string) : list string :=
  match s with
  | EmptyString => [EmptyString]
  | String c s' =>
      if Ascii.eqb c sep then EmptyString :: split_on sep s'
      else match split_on sep s' with
           | w :: ws => String c w :: ws
           | [] => [String c EmptyString]
           end
  end.

(** [s.rstrip()]. *)
Fixpoint rstrip (s : string) : string :=
  match s with
  | EmptyString => EmptyString
  | String c s' =>
      match rstrip s' with
      | EmptyString => if is_space c then EmptyString else String c EmptyString
      | r => String c r
      end
  end.

(** [str(n)] for an integer. *)
Definition str (n : Z) : string := NilZero.string_of_int (Z.to_int n).

(** [s.lstrip()] and [s.strip()]. *)
Fixpoint lstrip (s : string) : string :=
  match s with
  | EmptyString => EmptyString
  | String c s' => if is_space c then lstrip s' else s
  end.

Definition strip (s : string) : string := lstrip (rstrip s).

Definition is_digit (c : ascii) : bool :=
  let n := nat_of_ascii c in (Nat.leb 48 n && Nat.leb n 57)%bool.

(** The digits of an integer literal without its grouping underscores:
    at least one digit, and an underscore only between two digits.
    [after_digit] tells whether the character before was a digit. *)
Fixpoint ungroup (after_digit : bool) (s : string) : option string :=
  match s with
  | EmptyString => if after_digit then Some EmptyString else None
  | String c s' =>
      if is_digit c then String c <$> ungroup true s'
      else if Ascii.eqb c "_" then
             if after_digit then ungroup false s' else None
      else None
  end.

(** [int(s)]: surrounding blanks are dropped, then an optional sign and
    decimal digits, which single underscores may group.  [None] stands
    for [ValueError]. *)
Definition int (s : string) : option Z :=
  match strip s with
  | String "+" s' => Z.of_uint <$> (ungroup false s' ≫= NilZero.uint_of_string)
  | String "-" s' =>
      (fun d => Z.of_int (Decimal.Neg d))
        <$> (ungroup false s' ≫= NilZero.uint_of_string)
  | s' => Z.of_uint <$> (ungroup false s' ≫= NilZero.uint_of_string)
  end.

(** [f"{n:,}"]: a comma before every group of three digits. *)
Fixpoint commas (digits : string) : string :=
  match digits with
  | EmptyString => EmptyString
  | String c rest =>
      let k := String.length rest in
      String c (if (Nat.ltb 0 k && Nat.eqb (Nat.modulo k 3) 0)%bool
                then String "," (commas rest) else commas rest)
  end.

Definition format_int (n : Z) : string :=
  if (n <? 0)%Z then String "-" (commas (str (- n))) else commas (str n).

(** [len(s)]. *)
Definition len (s : string) : Z := Z.of_nat (String.length s).

(** [s[:n]] for [0 <= n]. *)
Definition take (n : Z) (s : string) : string :=
  String.substring 0 (Z.to_nat n) s.

(** [range(lo, hi)]. *)
Definition range (lo hi : Z) : list Z :=
  map (fun i => lo + Z.of_nat i) (seq 0 (Z.to_nat (hi - lo))).

End Py.

(** ** Exceptions and outcomes *)

Inductive exn : Type :=
| Timeout                         (* requests.Timeout *)
| ConnectionError                 (* requests.ConnectionError *)
| RequestException (msg : string) (* any other exception out of requests.post *)
| JSONDecodeError                 (* r.json() on a body that is not JSON *)
| RuntimeError (msg : string)
| KeyError (key : string)
| TypeError
| ValueError
| OverflowError
| IndexError
| FileNotFoundError.

(** [Hang] is a loop that has used up its fuel: the Python loop is
    still running. *)
Inductive outcome (A : Type) : Type :=
| Ok (a : A)
| Raise (e : exn)
| Hang.
Arguments Ok {A} a.
Arguments Raise {A} e.
Arguments Hang {A}.

(** A Python float: a finite number, an infinity or not-a-number. *)
Inductive float : Type :=
| Finite (q : Q)
| Infinity (negative : bool)
| NaN.

(** ** The remote API *)

Definition cursor := option string.

Inductive request : Type :=
| QUserGetter (login : string)
| QFollowers (login : string)
| QOwnedRepos (login : string) (after : cursor)
| QContribRepos (login : string) (after : cursor)
| QLocListRepos (login : string) (after : cursor)
| QCommitTotal (owner repo : string)
| QCommitHistory (owner repo : string) (after : cursor).

Record page_info := PageInfo { hasNextPage : bool; endCursor : cursor }.

(** The author of a commit, [user{ login }]: [user] is null when the
    author has no account. *)
Record git_actor := GitActor { user : option string }.

(** A commit of the history page: [author], null for a commit without
    one, [additions] and [deletions].  An edge without node fails the
    test of the scan in the same way as a node without author, and is
    taken as one. *)
Record commit_node := CommitNode {
  author : option git_actor;
  additions : Z;
  deletions : Z }.

(** [defaultBranchRef.target.history]; a key the query did not select is
    absent. *)
Record history := History {
  totalCount : option Z;
  edges : option (list commit_node);
  pageInfo : option page_info }.

Record repo_node := RepoNode {
  stargazers : option Z;
  nameWithOwner : option string }.

Record repositories := Repositories {
  repos_totalCount : option Z;
  repos_edges : option (list repo_node);
  repos_pageInfo : page_info }.

(** The ["data"] member of a response, at the shapes the queries select. *)
Inductive payload : Type :=
| PUser (id createdAt : string)
| PFollowers (count : Z)
| PRepositories (rs : repositories)
| PRepository (defaultBranchRef : option history)
| PEmpty.

(** A decoded response body: the messages of its ["errors"] list (an
    element without ["message"] is [None]; no ["errors"] key is [[]]) and
    its payload. *)
Record body := Body { errors : list (option string); data : payload }.

Record response := Response {
  status_code : Z;
  text : string;
  json : option body }.

Inductive post_result : Type :=
| PostRaises (e : exn)
| PostReturns (r : response).

(** What the process does to the outside world, in order. *)
Inductive event : Type :=
| EvPost (q : request) (res : post_result)
| EvSleep (seconds : Q).

(** [hashlib.sha256(..).hexdigest()] from the digest as a number:
    64 lower-case hexadecimal digits. *)
Definition hex_char (d : N) : ascii :=
  match d with
  | 0 => "0" | 1 => "1" | 2 => "2" | 3 => "3" | 4 => "4" | 5 => "5"
  | 6 => "6" | 7 => "7" | 8 => "8" | 9 => "9" | 10 => "a" | 11 => "b"
  | 12 => "c" | 13 => "d" | 14 => "e" | _ => "f"
  end%N%char.

Fixpoint hex_digits (n : nat) (v : N) (acc : string) : string :=
  match n with
  | O => acc
  | S n' => hex_digits n' (N.div v 16) (String (hex_char (N.modulo v 16)) acc)
  end.

Definition hexdigest (v : N) : string := hex_digits 64 v EmptyString.

Definition newline : string := String (ascii_of_nat 10) EmptyString.

Definition CACHE_COMMENT_LINES : nat := 5.

(** The five counters [QUERY_COUNT] starts with. *)
Definition QUERY_COUNT_init : gmap string Z :=
  <["user_getter" := 0]> (<["followers" := 0]> (<["repos_stars" := 0]>
  (<["loc_list_repos" := 0]> (<["loc_repo_scan" := 0]> ∅)))).

(** [MAX_RETRIES = int(os.environ.get("GQL_MAX_RETRIES", "3"))]. *)
Definition MAX_RETRIES_of (environ : gmap string string) : option Z :=
  Py.int (default "3" (environ !! "GQL_MAX_RETRIES")).

(** ** The statistics record and the rendered container *)

Inductive value : Type :=
| VInt (n : Z)
| VStr (s : string).

Record tspan := Tspan {
  ts_x : option string;
  ts_y : option string;
  ts_class : string;
  ts_id : option string;
  ts_text : string }.

(** The element with id [stats_container]: its [x] and [y] attributes
    and its children. *)
Record element := Element {
  attr_x : option string;
  attr_y : option string;
  children : list tspan }.

Definition CHAR_WIDTH_PX : Z := 9.
Definition AVAILABLE_STATS_WIDTH_PX : Z := 570.

Definition MAX_VALUE_CHAR : list (string * Z) :=
  [ ("age_data", 48); ("repo_data", 8); ("contrib_data", 8); ("star_data", 10);
    ("commit_data", 12); ("follower_data", 10); ("loc_data", 15);
    ("loc_add", 10); ("loc_del", 10) ].

Definition id_map : gmap string string :=
  <["repo_data" := "repos"]> (<["contrib_data" := "contrib"]>
  (<["star_data" := "stars"]> (<["commit_data" := "commits"]>
  (<["follower_data" := "followers"]> (<["loc_data" := "loc_net"]>
  (<["loc_add" := "loc_add"]> (<["loc_del" := "loc_del"]> ∅))))))).

Definition line_defs : list (list (string * string * string)) :=
  [ [ ("Repos", "repo_data", "repos"); ("Contrib", "contrib_data", "contrib");
      ("Stars", "star_data", "stars") ];
    [ ("Commits", "commit_data", "commits"); ("Followers", "follower_data", "followers") ] ].

(** ** The tagline element and the lines of the cache *)

(** A [tspan] that [wrap_tagline] creates for a continuation line: its
    [x] and [y] attributes and its text. *)
Record tagline_span := TaglineSpan { tl_x : string; tl_y : string; tl_text : string }.

(** The element with id [tagline]: its text, its attributes
    [data-max-width], [x] and [y], and its children.  [wrap_tagline]
    removes the children it finds and creates only such [tspan]s. *)
Record tagline := Tagline {
  tag_text : option string;
  tag_max_width : option string;
  tag_x : option string;
  tag_y : option string;
  tag_children : list tagline_span }.

(** A line of the cache file as [heavy_stats] reads it: the fingerprint
    and the four integers. *)
Record cache_entry := CacheEntry {
  ce_hash : string; ce_total : Z; ce_my : Z; ce_add : Z; ce_del : Z }.

(** ** Process state *)

(** [world] is the state of everything outside the process.  [CACHE_FILE]
    is [None] when the file does not exist, and otherwise the lines
    [readlines()] returns; every line the program writes ends in its
    only line break. *)
Record state (W : Type) := State {
  world : W;
  QUERY_COUNT : gmap string Z;
  CACHE_FILE : option (list string);
  RECURSION_GUARD : Z;
  trace : list event }.
Arguments State {W}.
Arguments world {W}.
Arguments QUERY_COUNT {W}.
Arguments CACHE_FILE {W}.
Arguments RECURSION_GUARD {W}.
Arguments trace {W}.

(** ** Remotes and inputs for the worked examples *)

Module Sim.

(** A stand-in digest, enough to tell the names of the examples apart. *)
Definition toy_sha256 (s : string) : N :=
  fold_right (fun c acc => (N.of_nat (nat_of_ascii c) + 31 * acc)%N) 7%N
    (list_ascii_of_string s).

(** A 200 response whose body has no errors. *)
Definition ok (p : payload) : post_result :=
  PostReturns {| status_code := 200; text := ""; json := Some (Body [] p) |}.

(** A response with only a status, its body not JSON. *)
Definition status (code : Z) : post_result :=
  PostReturns {| status_code := code; text := ""; json := None |}.

(** A 200 response carrying GraphQL errors. *)
Definition graphql_errors (messages : list (option string)) : post_result :=
  PostReturns {| status_code := 200; text := ""; json := Some (Body messages PEmpty) |}.

(** A remote that answers by the query alone: nothing changes upstream. *)
Definition fixed (resp : request -> post_result) (q : request) (w : unit)
    : post_result * unit := (resp q, w).

(** A remote that plays a script, one response per request. *)
Definition scripted (q : request) (w : list post_result)
    : post_result * list post_result :=
  match w with
  | [] => (PostRaises ConnectionError, [])
  | res :: w' => (res, w')
  end.

(** The default backoff of a second and a half, its powers where they
    need no rounding, as they do not for small exponents of 1.5, and the
    longest pause a clock that counts 2^63 nanoseconds can take. *)
Definition backoff : float := Finite (3 # 2).

Definition pow (x : float) (n : Z) : option float :=
  match x with
  | Finite q => Some (Finite (q ^ n))
  | Infinity negative => Some (Infinity (negative && Z.odd n))
  | NaN => Some NaN
  end.

Definition sleep_max : Q := 9223372036 # 1.

Definition clock {W : Type} (w : W) : string * W := ("2024-01-01T00:00:00", w).
Definition age {W : Type} (w : W) : string := "19 years, 0 months, 1 day".

(** The process right after import, with the given cache file. *)
Definition initial {W : Type} (w : W) (cache : option (list string)) : state W :=
  State w QUERY_COUNT_init cache 0 [].

Definition repo_page (names : list string) : payload :=
  PRepositories {| repos_totalCount := Some (Z.of_nat (length names));
                   repos_edges := Some (map (fun n => RepoNode (Some 0) (Some n)) names);
                   repos_pageInfo := PageInfo false None |}.

Definition total_is (n : Z) : payload :=
  PRepository (Some {| totalCount := Some n; edges := None; pageInfo := None |}).

Definition last_page (commits : list commit_node) : payload :=
  PRepository (Some {| totalCount := None; edges := Some commits;
                       pageInfo := Some (PageInfo false None) |}).

(** An account with one repository, whose default branch has one
    commit by the tracked user, one by an author without account and one
    by somebody else. *)
Definition commits : list commit_node :=
  [ CommitNode (Some (GitActor (Some "OCTO"))) 10 2;
    CommitNode (Some (GitActor None)) 5 5;
    CommitNode (Some (GitActor (Some "hubber"))) 1 1 ].

Definition upstream (q : request) : post_result :=
  match q with
  | QUserGetter _ => ok (PUser "MOCKID" "2020-01-01T00:00:00Z")
  | QFollowers _ => ok (PFollowers 7)
  | QOwnedRepos _ _ => ok (repo_page ["octo/cat"])
  | QContribRepos _ _ => ok (repo_page ["octo/cat"])
  | QLocListRepos _ _ => ok (repo_page ["octo/cat"])
  | QCommitTotal _ _ => ok (total_is 1)
  | QCommitHistory _ _ _ => ok (last_page commits)
  end.

(** The same account when the history comes in two pages: the commits
    above, then one more by the tracked user. *)
Definition first_page (commits : list commit_node) (next : string) : payload :=
  PRepository (Some {| totalCount := None; edges := Some commits;
                       pageInfo := Some (PageInfo true (Some next)) |}).

Definition paged_upstream (q : request) : post_result :=
  match q with
  | QCommitTotal _ _ => ok (total_is 4)
  | QCommitHistory _ _ None => ok (first_page commits "cursor-1")
  | QCommitHistory _ _ (Some _) => ok (last_page [ CommitNode (Some (GitActor (Some "octo"))) 7 3 ])
  | _ => upstream q
  end.

(** The same account when the repository has no default branch. *)
Definition empty_upstream (q : request) : post_result :=
  match q with
  | QCommitTotal _ _ => ok (PRepository None)
  | QCommitHistory _ _ _ => ok (PRepository None)
  | _ => upstream q
  end.

Definition header : list string :=
  [ "Cache File for LOC / Commit Stats" +:+ newline;
    "Format: sha256(repo) totalCommits myCommits additions deletions" +:+ newline;
    "User: octo" +:+ newline;
    "Generated: 2023-12-31T00:00:00" +:+ newline;
    "---" +:+ newline ].

Definition fingerprint : string := hexdigest (toy_sha256 "octo/cat").

(** A cache whose only entry carries the fingerprint of another name. *)
Definition stale_cache : list string :=
  header ++ [ "deadbeef 3 1 10 2" +:+ newline ].

(** A cache whose entry is current: total 1, and the triple of the scan. *)
Definition current_cache : list string :=
  header ++ [ fingerprint +:+ " 1 1 10 2" +:+ newline ].

(** A cache whose entry has total 0 and a triple that is not zero. *)
Definition odd_cache : list string :=
  header ++ [ fingerprint +:+ " 0 5 10 2" +:+ newline ].

(** A cache left by a time when the repository had three commits. *)
Definition old_cache : list string :=
  header ++ [ fingerprint +:+ " 3 1 10 2" +:+ newline ].

(** The account when, in the history of the repository, a commit has no
    author object. *)
Definition authorless_upstream (q : request) : post_result :=
  match q with
  | QCommitHistory _ _ _ =>
      ok (last_page [ CommitNode (Some (GitActor (Some "octo"))) 10 2;
                      CommitNode None 5 5 ])
  | _ => upstream q
  end.

(** What a remote answers, in order, to two runs over [old_cache]
    between which the default branch of the repository comes and goes:
    the listing; the probe of the loop, with no default branch; the
    probe of the scan, with three commits; the page of the history;
    then, for the second run, the listing and the probe, again with no
    default branch. *)
Definition flickering : list post_result :=
  [ ok (repo_page ["octo/cat"]); ok (PRepository None); ok (total_is 3);
    ok (last_page commits);
    ok (repo_page ["octo/cat"]); ok (PRepository None) ].

(** A listing page: its [totalCount], its repositories with their stars
    and names, and whether and where the listing goes on. *)
Definition listing_page (total : Z) (nodes : list (Z * string)) (more : bool)
    (next : cursor) : payload :=
  PRepositories {| repos_totalCount := Some total;
                   repos_edges :=
                     Some (map (fun node => RepoNode (Some (fst node)) (Some (snd node)))
                             nodes);
                   repos_pageInfo := PageInfo more next |}.

(** An account with 42 followers whose two repositories, with 5 and 3
    stars, are listed on two pages. *)
Definition two_page_account (q : request) : post_result :=
  match q with
  | QFollowers _ => ok (PFollowers 42)
  | QOwnedRepos _ None => ok (listing_page 2 [(5, "octo/cat")] true (Some "page-2"))
  | QOwnedRepos _ (Some _) => ok (listing_page 2 [(3, "octo/dog")] false None)
  | QContribRepos _ _ => ok (listing_page 3 [] false None)
  | QLocListRepos _ None => ok (listing_page 2 [(5, "octo/cat")] true (Some "page-2"))
  | QLocListRepos _ (Some _) => ok (listing_page 2 [(3, "octo/dog")] false None)
  | _ => upstream q
  end.

Definition fingerprint_dog : string := hexdigest (toy_sha256 "octo/dog").

(** Caches for the account with two repositories, each with one commit
    upstream: both entries current, and the first one left by a time
    when its repository had three commits. *)
Definition two_cache : list string :=
  header ++ [ fingerprint +:+ " 1 1 10 2" +:+ newline;
              fingerprint_dog +:+ " 1 4 40 4" +:+ newline ].

Definition two_cache_old : list string :=
  header ++ [ fingerprint +:+ " 3 1 10 2" +:+ newline;
              fingerprint_dog +:+ " 1 4 40 4" +:+ newline ].

(** The example account when every probe of a commit total is answered
    with status 500. *)
Definition failing_probe (q : request) : post_result :=
  match q with
  | QCommitTotal _ _ => status 500
  | _ => upstream q
  end.

(** A tagline of four words with room for ten characters a line. *)
Definition tagline_example : tagline :=
  {| tag_text := Some "  build things that last  "; tag_max_width := Some "90";
     tag_x := Some "30"; tag_y := Some "380"; tag_children := [] |}.

(** The texts of a container whose counts are small. *)
Definition shown_example : gmap string string :=
  <["followers" := "42"]> (<["commits" := "1,234"]> (<["stars" := "8"]>
  (<["contrib" := "3"]> (<["repos" := "2"]> ∅)))).

End Sim.

Section Updater.

(** The outside world: the GraphQL endpoint behind [requests.post], and
    the clock. *)
Variable W : Type.
Variable post : request -> W -> post_result * W.
Variable utcnow_isoformat : W -> string * W.
Variable rel_age : W -> string.

(** Module-level configuration.  [RETRY_BACKOFF] is the float the
    environment gives, whatever it is.  [sha256] gives the digest of a
    name as a number. *)
Variable USER_NAME : string.
Variable DO_HEAVY : bool.
Variable FORCE_CACHE : bool.
Variable MAX_RETRIES : Z.
Variable RETRY_BACKOFF : float.
(** [x ** n] for a float and an integer: the rounded power, and [None]
    when it raises [OverflowError]. *)
Variable float_pow : float -> Z -> option float.
(** The longest pause, in seconds, that [time.sleep] can count in the
    nanoseconds of the platform's clock. *)
Variable SLEEP_MAX : Q.
Variable sha256 : string -> N.
(** The text [truncate_text] puts in place of what it cuts off. *)
Variable ELLIPSIS : string.

(** ** The state monad of the process *)

Definition M (A : Type) : Type := state W -> outcome A * state W.

Definition ret {A} (a : A) : M A := fun st => (Ok a, st).

Definition bind {A B} (c : M A) (k : A -> M B) : M B :=
  fun st =>
    match c st with
    | (Ok a, st') => k a st'
    | (Raise e, st') => (Raise e, st')
    | (Hang, st') => (Hang, st')
    end.

Definition raise {A} (e : exn) : M A := fun st => (Raise e, st).
Definition hang {A} : M A := fun st => (Hang, st).

Notation "'let*' x ':=' c 'in' k" := (bind c (fun x => k))
  (at level 10, x pattern, c at level 100, k at level 200).
Notation "c ';;' k" := (bind c (fun _ => k))
  (at level 100, k at level 200, right associativity).

Definition requests_post (query : request) : M post_result :=
  fun st =>
    let (res, w') := post query (world st) in
    (Ok res,
     {| world := w'; QUERY_COUNT := QUERY_COUNT st; CACHE_FILE := CACHE_FILE st;
        RECURSION_GUARD := RECURSION_GUARD st;
        trace := trace st ++ [EvPost query res] |}).

(** What [time.sleep] makes of its argument: the pause, or the
    exception it raises.  The delay is first converted to nanoseconds,
    which fails with [ValueError] for not-a-number and with
    [OverflowError] for an infinity or a delay beyond [SLEEP_MAX] on
    either side; a negative delay is then refused with [ValueError]. *)
Definition sleep_delay (seconds : float) : exn + Q :=
  match seconds with
  | NaN => inl ValueError
  | Infinity _ => inl OverflowError
  | Finite q =>
      if negb (Qle_bool (Qabs q) SLEEP_MAX) then inl OverflowError
      else if negb (Qle_bool 0%Q q) then inl ValueError
      else inr q
  end.

(** [time.sleep]. *)
Definition time_sleep (seconds : float) : M unit :=
  match sleep_delay seconds with
  | inl e => fun st => (Raise e, st)
  | inr q =>
      fun st =>
        (Ok tt,
         {| world := world st; QUERY_COUNT := QUERY_COUNT st;
            CACHE_FILE := CACHE_FILE st; RECURSION_GUARD := RECURSION_GUARD st;
            trace := trace st ++ [EvSleep q] |})
  end.

(** [time.sleep(RETRY_BACKOFF ** attempt)]. *)
Definition sleep_backoff (attempt : Z) : M unit :=
  match float_pow RETRY_BACKOFF attempt with
  | Some seconds => time_sleep seconds
  | None => fun st => (Raise OverflowError, st)
  end.

(** A statement inside a [try] block: what it raises goes to the
    [except] clauses. *)
Definition try_ {A} (c : M A) : M (exn + A) :=
  fun st =>
    match c st with
    | (Ok a, st') => (Ok (inr a), st')
    | (Raise e, st') => (Ok (inl e), st')
    | (Hang, st') => (Hang, st')
    end.

(** ** The query client *)

(** The two [except] clauses of [gql] have the same body: remember the
    exception, back off and go to the next attempt unless this was the
    last one.  An exception raised there leaves [gql]; one raised by the
    pauses of the [try] block is caught like the others. *)
Fixpoint gql_attempts (query : request) (tag : string) (attempts : list Z)
    (last_exc : option exn) : M body :=
  match attempts with
  | [] =>
      match last_exc with
      | Some e => raise e
      | None => raise (RuntimeError (tag +:+ " failed without exception"))
      end
  | attempt :: rest =>
      let except (e : exn) : M body :=
        if attempt <? MAX_RETRIES then
          sleep_backoff attempt ;;
          gql_attempts query tag rest (Some e)
        else raise e in
      let* res := requests_post query in
      match res with
      | PostRaises e => except e
      | PostReturns r =>
          if (status_code r =? 502) && (attempt <? MAX_RETRIES) then
            let* slept := try_ (sleep_backoff attempt) in
            match slept with
            | inr _ => gql_attempts query tag rest last_exc
            | inl e => except e
            end
          else if negb (status_code r =? 200) then
            except (RuntimeError (tag +:+ " failed: " +:+ Py.str (status_code r)
                                      +:+ " " +:+ Py.take 300 (text r)))
          else
            match json r with
            | None => except JSONDecodeError
            | Some d =>
                match errors d with
                | [] => ret d
                | _ :: _ =>
                    let messages := Py.join " | " (map (default "") (errors d)) in
                    if Py.contains "rate limit" (Py.lower messages)
                       && (attempt <? MAX_RETRIES) then
                      let* slept := try_ (sleep_backoff attempt) in
                      match slept with
                      | inr _ => gql_attempts query tag rest last_exc
                      | inl e => except e
                      end
                    else
                      except (RuntimeError (tag +:+ " GraphQL errors: " +:+ messages))
                end
            end
      end
  end.

Definition gql (query : request) (tag : string) : M body :=
  gql_attempts query tag (Py.range 1 (MAX_RETRIES + 1)) None.

Definition count_query (name : string) : M unit :=
  fun st =>
    match QUERY_COUNT st !! name with
    | None => (Raise (KeyError name), st)
    | Some n =>
        (Ok tt,
         {| world := world st; QUERY_COUNT := <[name := n + 1]> (QUERY_COUNT st);
            CACHE_FILE := CACHE_FILE st; RECURSION_GUARD := RECURSION_GUARD st;
            trace := trace st |})
    end.

(** ** Data collection *)

Definition getitem {A} (key : string) (o : option A) : M A :=
  match o with
  | Some a => ret a
  | None => raise (KeyError key)
  end.

(** [data["data"]["user"]["repositories"]]. *)
Definition user_repositories (d : body) : M repositories :=
  match data d with
  | PRepositories rs => ret rs
  | _ => raise (KeyError "repositories")
  end.

(** [data["data"]["repository"]["defaultBranchRef"]]. *)
Definition repository_defaultBranchRef (d : body) : M (option history) :=
  match data d with
  | PRepository ref => ret ref
  | _ => raise (KeyError "repository")
  end.

Definition get_user_and_created (login : string) : M (string * string) :=
  count_query "user_getter" ;;
  let* d := gql (QUserGetter login) "user_getter" in
  match data d with
  | PUser id createdAt => ret (id, createdAt)
  | _ => raise (KeyError "user")
  end.

Definition get_followers (login : string) : M Z :=
  count_query "followers" ;;
  let* d := gql (QFollowers login) "followers" in
  match data d with
  | PFollowers n => ret n
  | _ => raise (KeyError "followers")
  end.

Fixpoint sum_stars (es : list repo_node) (stars : Z) : M Z :=
  match es with
  | [] => ret stars
  | e :: es' =>
      let* n := getitem "stargazers" (stargazers e) in
      sum_stars es' (stars + n)
  end.

Fixpoint owned_pages (fuel : nat) (login : string) (after : cursor) (stars : Z)
    : M (Z * Z) :=
  match fuel with
  | O => hang
  | S fuel' =>
      let* d := gql (QOwnedRepos login after) "repos_stars" in
      let* repos := user_repositories d in
      let* total_count := getitem "totalCount" (repos_totalCount repos) in
      let* es := getitem "edges" (repos_edges repos) in
      let* stars := sum_stars es stars in
      if negb (hasNextPage (repos_pageInfo repos)) then ret (total_count, stars)
      else
        count_query "repos_stars" ;;
        owned_pages fuel' login (endCursor (repos_pageInfo repos)) stars
  end.

Fixpoint contrib_pages (fuel : nat) (login : string) (after : cursor) : M Z :=
  match fuel with
  | O => hang
  | S fuel' =>
      let* d := gql (QContribRepos login after) "repos_stars" in
      let* repos := user_repositories d in
      let* contributed_total := getitem "totalCount" (repos_totalCount repos) in
      if negb (hasNextPage (repos_pageInfo repos)) then ret contributed_total
      else
        count_query "repos_stars" ;;
        contrib_pages fuel' login (endCursor (repos_pageInfo repos))
  end.

(** Returns [(owned_repo_count, total_stars_on_owned, contributed_repo_count)]. *)
Definition get_repos_and_stars (fuel : nat) (login : string) : M (Z * Z * Z) :=
  count_query "repos_stars" ;;
  let* (total_count, stars) := owned_pages fuel login None 0 in
  count_query "repos_stars" ;;
  let* contributed_total := contrib_pages fuel login None in
  ret (total_count, stars, contributed_total).

(** ** Heavy scan: the cache file *)

Definition set_cache (lines : option (list string)) (st : state W) : state W :=
  {| world := world st; QUERY_COUNT := QUERY_COUNT st; CACHE_FILE := lines;
     RECURSION_GUARD := RECURSION_GUARD st; trace := trace st |}.

(** [open(CACHE_FILE, "r").readlines()]. *)
Definition read_cache : M (list string) :=
  fun st =>
    match CACHE_FILE st with
    | Some lines => (Ok lines, st)
    | None => (Raise FileNotFoundError, st)
    end.

(** [open(CACHE_FILE, "w").writelines(lines)]. *)
Definition write_cache (lines : list string) : M unit :=
  fun st => (Ok tt, set_cache (Some lines) st).

(** [open(CACHE_FILE, "a")] and one [write] per line. *)
Definition append_cache (lines : list string) : M unit :=
  fun st => (Ok tt, set_cache (Some (default [] (CACHE_FILE st) ++ lines)) st).

Definition path_exists : M bool :=
  fun st => (Ok (bool_decide (is_Some (CACHE_FILE st))), st).

Definition utcnow : M string :=
  fun st =>
    let (now, w') := utcnow_isoformat (world st) in
    (Ok now,
     {| world := w'; QUERY_COUNT := QUERY_COUNT st; CACHE_FILE := CACHE_FILE st;
        RECURSION_GUARD := RECURSION_GUARD st; trace := trace st |}).

Definition write_cache_header : M unit :=
  let* now := utcnow in
  let header :=
    [ "Cache File for LOC / Commit Stats" +:+ newline;
      "Format: sha256(repo) totalCommits myCommits additions deletions" +:+ newline;
      "User: " +:+ USER_NAME +:+ newline;
      "Generated: " +:+ now +:+ newline;
      "---" +:+ newline ] in
  write_cache header.

(** The line [init_cache_if_needed] writes for a repository. *)
Definition zeroed_entry (full : string) : string :=
  hexdigest (sha256 full) +:+ " 0 0 0 0" +:+ newline.

Definition init_cache_if_needed (repos_edges : list string) : M unit :=
  let* present := path_exists in
  if FORCE_CACHE || negb present then
    write_cache_header ;;
    append_cache (map zeroed_entry repos_edges)
  else
    (* Validate repo list length *)
    let* lines := read_cache in
    let repo_lines := drop CACHE_COMMENT_LINES lines in
    if negb (Nat.eqb (length repo_lines) (length repos_edges)) then
      (* Rebuild *)
      write_cache_header ;;
      append_cache (map zeroed_entry repos_edges)
    else ret tt.

(** ** Heavy scan: listing and per-repository history *)

Fixpoint append_names (es : list repo_node) (full_names : list string)
    : M (list string) :=
  match es with
  | [] => ret full_names
  | e :: es' =>
      let* name := getitem "nameWithOwner" (nameWithOwner e) in
      append_names es' (full_names ++ [name])
  end.

Fixpoint list_pages (fuel : nat) (login : string) (after : cursor)
    (full_names : list string) : M (list string) :=
  match fuel with
  | O => hang
  | S fuel' =>
      count_query "loc_list_repos" ;;
      let* d := gql (QLocListRepos login after) "loc_list_repos" in
      let* repos := user_repositories d in
      let* es := getitem "edges" (repos_edges repos) in
      let* full_names := append_names es full_names in
      if negb (hasNextPage (repos_pageInfo repos)) then ret full_names
      else list_pages fuel' login (endCursor (repos_pageInfo repos)) full_names
  end.

Definition collect_repo_full_names (fuel : nat) (login : string) : M (list string) :=
  list_pages fuel login None [].

Definition get_repo_commit_total (owner repo : string) : M Z :=
  count_query "loc_repo_scan" ;;
  let* d := gql (QCommitTotal owner repo) "loc_repo_scan" in
  let* ref := repository_defaultBranchRef d in
  match ref with
  | None => ret 0
  | Some h => getitem "totalCount" (totalCount h)
  end.

(** The test of the inner loop of [scan_repo_history],
    [node["author"]["user"] and node["author"]["user"]["login"].lower()
    == USER_NAME.lower()]: subscripting a null [author] raises
    [TypeError]; otherwise the test holds when the author has an account
    whose login is the tracked one up to letter case. *)
Definition authored_by_user (node : commit_node) : M bool :=
  match author node with
  | None => raise TypeError
  | Some a =>
      match user a with
      | None => ret false
      | Some login => ret (String.eqb (Py.lower login) (Py.lower USER_NAME))
      end
  end.

(** [for edge in history["edges"]]. *)
Fixpoint tally_edges (es : list commit_node) (acc : Z * Z * Z) : M (Z * Z * Z) :=
  match es with
  | [] => ret acc
  | node :: es' =>
      let '(my_commits, adds, dels) := acc in
      let* mine := authored_by_user node in
      if mine
      then tally_edges es' (my_commits + 1, adds + additions node, dels + deletions node)
      else tally_edges es' acc
  end.

Fixpoint history_pages (fuel : nat) (owner repo : string) (after : cursor)
    (acc : Z * Z * Z) : M (Z * Z * Z) :=
  match fuel with
  | O => hang
  | S fuel' =>
      count_query "loc_repo_scan" ;;
      let* d := gql (QCommitHistory owner repo after) "loc_repo_scan" in
      let* ref := repository_defaultBranchRef d in
      match ref with
      | None => ret acc
      | Some h =>
          let* es := getitem "edges" (edges h) in
          let* acc := tally_edges es acc in
          let* pi := getitem "pageInfo" (pageInfo h) in
          if negb (hasNextPage pi) then ret acc
          else history_pages fuel' owner repo (endCursor pi) acc
      end
  end.

(** Returns [(total_commits, my_commits, additions, deletions)] for the
    default branch. *)
Definition scan_repo_history (fuel : nat) (owner repo : string) : M (Z * Z * Z * Z) :=
  let* total := get_repo_commit_total owner repo in
  if total =? 0 then ret (0, 0, 0, 0)
  else
    (* page through commit history *)
    let* (my_commits, adds, dels) := history_pages fuel owner repo None (0, 0, 0) in
    ret (total, my_commits, adds, dels).

(** ** Heavy scan: aggregation over the cache *)

Definition int_of (s : string) : M Z :=
  match Py.int s with
  | Some n => ret n
  | None => raise ValueError
  end.

Definition get_guard : M Z := fun st => (Ok (RECURSION_GUARD st), st).

Definition set_guard (g : Z) : M unit :=
  fun st =>
    (Ok tt,
     {| world := world st; QUERY_COUNT := QUERY_COUNT st; CACHE_FILE := CACHE_FILE st;
        RECURSION_GUARD := g; trace := trace st |}).

(** How one iteration of the loop of [heavy_stats] over the repositories
    ends: with [return heavy_stats(login)], or with the line appended to
    [updated_lines] and the three numbers added to the totals. *)
Inductive iteration : Type :=
| Restart
| Entry (line : string) (my_commits add_loc del_loc : Z).

Definition entry_line (expected_hash : string) (current_total my_commits add_loc del_loc : Z)
    : string :=
  expected_hash +:+ " " +:+ Py.str current_total +:+ " " +:+ Py.str my_commits
  +:+ " " +:+ Py.str add_loc +:+ " " +:+ Py.str del_loc +:+ newline.

(** The body of [for i, full in enumerate(repos)]. *)
Definition heavy_entry (fuel : nat) (repos repo_lines : list string)
    (i : nat) (full : string) : M iteration :=
  let* line := match repo_lines !! i with
               | Some l => ret l
               | None => raise IndexError
               end in
  match Py.split line with
  | [repo_hash; prev_total; prev_my; prev_add; prev_del] =>
      let expected_hash := hexdigest (sha256 full) in
      match Py.split_on "/" full with
      | [owner; repo] =>
          if negb (String.eqb repo_hash expected_hash) then
            let* guard := get_guard in
            if 1 <? guard then  (* prevent endless recursion *)
              raise (RuntimeError "Cache hash mismatch recursion guard triggered")
            else
              set_guard (guard + 1) ;;
              init_cache_if_needed repos ;;
              ret Restart
          else
            let* current_total := get_repo_commit_total owner repo in
            let* cached_total := int_of prev_total in
            let from_cache := current_total =? cached_total in
            let* (my_commits, add_loc, del_loc) :=
              (if from_cache then
                 (* no change *)
                 let* my_commits := int_of prev_my in
                 let* add_loc := int_of prev_add in
                 let* del_loc := int_of prev_del in
                 ret (my_commits, add_loc, del_loc)
               else
                 let* (_, my_commits, add_loc, del_loc) :=
                   scan_repo_history fuel owner repo in
                 ret (my_commits, add_loc, del_loc)) in
            ret (Entry (entry_line expected_hash current_total my_commits add_loc del_loc)
                       my_commits add_loc del_loc)
      | _ => raise ValueError
      end
  | _ => raise ValueError
  end.

(** The loop itself; [None] is the early [return heavy_stats(login)]. *)
Fixpoint heavy_loop (fuel : nat) (repos repo_lines : list string) (i : nat)
    (todo : list string) (updated_lines : list string) (totals : Z * Z * Z)
    : M (option (list string * (Z * Z * Z))) :=
  match todo with
  | [] => ret (Some (updated_lines, totals))
  | full :: todo' =>
      let* it := heavy_entry fuel repos repo_lines i full in
      match it with
      | Restart => ret None
      | Entry line my_commits add_loc del_loc =>
          let '(total_my_commits, total_add, total_del) := totals in
          heavy_loop fuel repos repo_lines (S i) todo' (updated_lines ++ [line])
            (total_my_commits + my_commits, total_add + add_loc, total_del + del_loc)
      end
  end.

(** Returns [(my_commits, loc_add, loc_del, loc_net)]. *)
Fixpoint heavy_stats (fuel : nat) (login : string) : M (Z * Z * Z * Z) :=
  match fuel with
  | O => hang
  | S fuel' =>
      let* repos := collect_repo_full_names fuel' login in
      init_cache_if_needed repos ;;
      (* load cache lines *)
      let* lines := read_cache in
      let repo_lines := drop CACHE_COMMENT_LINES lines in
      (* If lengths mismatch after rebuild, refetch *)
      let* lines :=
        (if negb (Nat.eqb (length repo_lines) (length repos)) then
           init_cache_if_needed repos ;;
           read_cache
         else ret lines) in
      let repo_lines := drop CACHE_COMMENT_LINES lines in
      let* r := heavy_loop fuel' repos repo_lines 0 repos [] (0, 0, 0) in
      match r with
      | None => heavy_stats fuel' login
      | Some (updated_lines, (total_my_commits, total_add, total_del)) =>
          write_cache (take CACHE_COMMENT_LINES lines ++ updated_lines) ;;
          ret (total_my_commits, total_add, total_del, total_add - total_del)
      end
  end.

(** ** Assembling and rendering the statistics *)

(** [main] up to the call of [update_svgs]: the record it passes on. *)
Definition main (fuel : nat) : M (gmap string value) :=
  let* (user_id, created) := get_user_and_created USER_NAME in
  let* age_str := (fun st => (Ok (rel_age (world st)), st)) in
  let* (owned_repos, stars, contrib_repos) := get_repos_and_stars fuel USER_NAME in
  let* followers := get_followers USER_NAME in
  let* (commits, loc_add, loc_del, loc_net) :=
    (if DO_HEAVY then heavy_stats fuel USER_NAME else ret (0, 0, 0, 0)) in
  let stats : gmap string value :=
    <["commits" := VInt commits]> (<["followers" := VInt followers]>
    (<["contrib" := VInt contrib_repos]> (<["stars" := VInt stars]>
    (<["repos" := VInt owned_repos]> (<["age" := VStr age_str]> ∅))))) in
  let stats :=
    if DO_HEAVY then
      <["loc_net" := VInt loc_net]> (<["loc_del" := VInt loc_del]>
      (<["loc_add" := VInt loc_add]> stats))
    else stats in
  ret stats.

Definition truncate_text (text : string) (max_chars : Z) : string :=
  if Py.len text <=? max_chars then text
  else if max_chars <=? 1 then ELLIPSIS
  else Py.take (max_chars - 1) text +:+ ELLIPSIS.

Definition approx_text_px (text : string) : Z := Py.len text * CHAR_WIDTH_PX.

(** [format_int(stats.get(key, 0))]. *)
Definition format_stat (stats : gmap string value) (key : string) : M string :=
  match default (VInt 0) (stats !! key) with
  | VInt n => ret (Py.format_int n)
  | VStr _ => raise ValueError
  end.

(** [for key_id, max_c in MAX_VALUE_CHAR.items()]. *)
Fixpoint apply_limits (limits : list (string * Z)) (v : gmap string string)
    : gmap string string :=
  match limits with
  | [] => v
  | (key_id, max_c) :: limits' =>
      match id_map !! key_id with
      | Some sk =>
          match v !! sk with
          | Some t => apply_limits limits' (<[sk := truncate_text t max_c]> v)
          | None => apply_limits limits' v
          end
      | None => apply_limits limits' v
      end
  end.

(** First loop over the segments of a line: texts and widths. *)
Fixpoint measure_segments (v : gmap string string)
    (segments : list (string * string * string))
    (segment_infos : list (string * string * string * Z)) (total_width : Z)
    : M (list (string * string * string * Z) * Z) :=
  match segments with
  | [] => ret (segment_infos, total_width)
  | (label, id_attr, key) :: segments' =>
      let label_text := label +:+ ": " in
      let* value_text := getitem key (v !! key) in
      let seg_width := approx_text_px label_text + approx_text_px value_text in
      measure_segments v segments'
        (segment_infos ++ [(label_text, value_text, id_attr, seg_width)])
        (total_width + seg_width)
  end.

(** Second loop: a key and a value [tspan] per segment. *)
Fixpoint place_segments (segment_infos : list (string * string * string * Z))
    (cursor_x y gap_px : Z) : list tspan :=
  match segment_infos with
  | [] => []
  | (label_text, value_text, id_attr, seg_width) :: infos' =>
      Tspan (Some (Py.str cursor_x)) (Some (Py.str y)) "keyColor" None (Py.rstrip label_text)
      :: Tspan None None "valueColor" (Some id_attr) value_text
      :: place_segments infos' (cursor_x + seg_width + gap_px) y gap_px
  end.

Fixpoint build_lines (v : gmap string string) (x_base y_base : Z) (line_index : Z)
    (lines : list (list (string * string * string))) : M (list tspan) :=
  match lines with
  | [] => ret []
  | segments :: lines' =>
      let* (segment_infos, total_width) := measure_segments v segments [] 0 in
      let gaps := Z.of_nat (length segments) - 1 in
      let remaining := Z.max 0 (AVAILABLE_STATS_WIDTH_PX - total_width) in
      let gap_px := if 0 <? gaps then remaining / gaps else 0 in
      let y := y_base + line_index * 20 in
      let* below := build_lines v x_base y_base (line_index + 1) lines' in
      ret (place_segments segment_infos x_base y gap_px ++ below)
  end.

(** The children of the container after [build_stats_container]; [None]
    when the document has no element with id [stats_container]. *)
Definition build_stats_container (container : option element)
    (stats : gmap string value) : M (option element) :=
  match container with
  | None => ret None
  | Some c =>
      let* x_base := int_of (default "370" (attr_x c)) in
      let* y_base := int_of (default "580" (attr_y c)) in
      let* repos := format_stat stats "repos" in
      let* contrib := format_stat stats "contrib" in
      let* stars := format_stat stats "stars" in
      let* commits := format_stat stats "commits" in
      let* followers := format_stat stats "followers" in
      let v : gmap string string :=
        <["followers" := followers]> (<["commits" := commits]>
        (<["stars" := stars]> (<["contrib" := contrib]> (<["repos" := repos]> ∅)))) in
      let heavy_has_data := bool_decide (is_Some (stats !! "loc_net")) in
      (* Always show a LOC line so it does not disappear when DO_HEAVY=0. *)
      let* v :=
        (if heavy_has_data then
           let* loc_net := format_stat stats "loc_net" in
           let* loc_add := format_stat stats "loc_add" in
           let* loc_del := format_stat stats "loc_del" in
           ret (<["loc_del" := "-" +:+ loc_del]> (<["loc_add" := "+" +:+ loc_add]>
                (<["loc_net" := loc_net]> v)))
         else
           (* Placeholder values when heavy scan skipped *)
           ret (<["loc_del" := "-0"]> (<["loc_add" := "+0"]> (<["loc_net" := "--"]> v)))) in
      let v := apply_limits MAX_VALUE_CHAR v in
      let* stat_lines := build_lines v x_base y_base 0 line_defs in
      (* LOC line always rendered (third line at +40) *)
      let loc_line_y := y_base + 40 in
      let* loc_net := getitem "loc_net" (v !! "loc_net") in
      let* loc_add := getitem "loc_add" (v !! "loc_add") in
      let* loc_del := getitem "loc_del" (v !! "loc_del") in
      let loc_line :=
        [ Tspan (Some (Py.str x_base)) (Some (Py.str loc_line_y)) "keyColor" None
            "Lines of Code:";
          Tspan None None "valueColor" (Some "loc_data") loc_net;
          Tspan None None "valueColor" None " (";
          Tspan None None "addColor" (Some "loc_add") loc_add;
          Tspan None None "valueColor" None ", ";
          Tspan None None "delColor" (Some "loc_del") loc_del;
          Tspan None None "valueColor" None ")" ] in
      ret (Some {| attr_x := attr_x c; attr_y := attr_y c;
                   children := stat_lines ++ loc_line |})
  end.

(** ** Wrapping the tagline *)

(** [bool(s)] for a text: it is not empty. *)
Definition str_bool (s : string) : bool := negb (String.eqb s "").

(** [for w in words] of [wrap_tagline], with the [if cur] that follows
    it: the lines so far and the line being filled. *)
Fixpoint wrap_words (max_w : Z) (words lines : list string) (cur : string)
    : list string :=
  match words with
  | [] => if str_bool cur then lines ++ [cur] else lines
  | w :: words' =>
      let test := Py.strip (cur +:+ " " +:+ w) in
      if approx_text_px test <=? max_w then wrap_words max_w words' lines test
      else wrap_words max_w words' (if str_bool cur then lines ++ [cur] else lines) w
  end.

(** [for i, line in enumerate(lines[1:], start=1)]. *)
Fixpoint tagline_spans (base_x : string) (base_y : Z) (i : Z) (lines : list string)
    : list tagline_span :=
  match lines with
  | [] => []
  | line :: lines' =>
      TaglineSpan base_x (Py.str (base_y + i * 18)) line
      :: tagline_spans base_x base_y (i + 1) lines'
  end.

(** The tagline after [wrap_tagline]; [None] when the document has no
    element with id [tagline]. *)
Definition wrap_tagline (tag : option tagline) : outcome (option tagline) :=
  match tag with
  | None => Ok None
  | Some t =>
      match tag_text t with
      | None => Ok tag
      | Some text =>
          let max_w_attr :=
            match tag_max_width t with
            | Some a => if str_bool a then a else "0"
            | None => "0"
            end in
          let max_w := default 0 (Py.int max_w_attr) in
          if max_w <=? 0 then Ok tag
          else
            let original := Py.strip text in
            if negb (str_bool original) then Ok tag
            else if approx_text_px original <=? max_w then Ok tag  (* fits *)
            else
              (* Word wrap (greedy) *)
              let words := Py.split original in
              let lines := wrap_words max_w words [] "" in
              let base_x := default "30" (tag_x t) in
              let base_y := default 380 (Py.int (default "380" (tag_y t))) in
              match lines with
              | [] => Raise IndexError
              | first :: rest =>
                  Ok (Some {| tag_text := Some first;
                              tag_max_width := tag_max_width t;
                              tag_x := tag_x t; tag_y := tag_y t;
                              tag_children := tagline_spans base_x base_y 1 rest |})
              end
      end
  end.

(** ** Vocabulary of the statements *)

(** The body [gql] returns for the response of an attempt, if any: a 200
    status, a JSON body and no errors in it. *)
Definition accepted (res : post_result) : option body :=
  match res with
  | PostRaises _ => None
  | PostReturns r =>
      if status_code r =? 200 then
        match json r with
        | Some d => match errors d with [] => Some d | _ :: _ => None end
        | None => None
        end
      else None
  end.

(** The exception a failed attempt stands for. *)
Definition failure (tag : string) (res : post_result) : exn :=
  match res with
  | PostRaises e => e
  | PostReturns r =>
      if status_code r =? 200 then
        match json r with
        | Some d =>
            RuntimeError (tag +:+ " GraphQL errors: "
                          +:+ Py.join " | " (map (default "") (errors d)))
        | None => JSONDecodeError
        end
      else RuntimeError (tag +:+ " failed: " +:+ Py.str (status_code r)
                         +:+ " " +:+ Py.take 300 (text r))
  end.

(** The failures the specification calls transient: a gateway 5xx
    status, a rate-limit message among the errors of the body, a network
    timeout or a connection error. *)
Definition transient (res : post_result) : bool :=
  match res with
  | PostRaises Timeout | PostRaises ConnectionError => true
  | PostRaises _ => false
  | PostReturns r =>
      ((500 <=? status_code r) && (status_code r <=? 599))
      || match json r with
         | Some d =>
             Py.contains "rate limit"
               (Py.lower (Py.join " | " (map (default "") (errors d))))
         | None => false
         end
  end.

(** What [time.sleep(RETRY_BACKOFF ** attempt)] comes to: the pause, or
    the exception of the power or of [time.sleep]. *)
Definition backoff_delay (attempt : Z) : exn + Q :=
  match float_pow RETRY_BACKOFF attempt with
  | Some seconds => sleep_delay seconds
  | None => inl OverflowError
  end.

(** The pause after an attempt, when there is one. *)
Definition pause (attempt : Z) : Q :=
  match backoff_delay attempt with
  | inr q => q
  | inl _ => 0%Q
  end.

(** Every pause of a call's budget is one [time.sleep] takes. *)
Definition pauses_accepted : bool :=
  forallb (fun attempt => match backoff_delay attempt with
                          | inr _ => true
                          | inl _ => false
                          end) (Py.range 1 MAX_RETRIES).

(** The attempts of one call, with the pause after each attempt but the
    last. *)
Fixpoint backoff_schedule (query : request) (attempt : Z) (outs : list post_result)
    : list event :=
  match outs with
  | [] => []
  | res :: outs' =>
      match outs' with
      | [] => [EvPost query res]
      | _ :: _ =>
          EvPost query res :: EvSleep (pause attempt)
          :: backoff_schedule query (attempt + 1) outs'
      end
  end.

Definition is_post (ev : event) : bool :=
  match ev with EvPost _ _ => true | EvSleep _ => false end.

Definition is_history_post (ev : event) : bool :=
  match ev with EvPost (QCommitHistory _ _ _) _ => true | _ => false end.

(** Number of requests sent in a stretch of the trace. *)
Definition posts (tr : list event) : nat := length (List.filter is_post tr).

(** The commits of the history pages [gql] handed back in a stretch of
    the trace. *)
Definition page_commits (ev : event) : list commit_node :=
  match ev with
  | EvPost (QCommitHistory _ _ _) res =>
      match accepted res with
      | Some d =>
          match data d with
          | PRepository (Some h) => default [] (edges h)
          | _ => []
          end
      | None => []
      end
  | _ => []
  end.

Definition scanned_commits (tr : list event) : list commit_node :=
  concat (map page_commits tr).

Definition sum_of (f : commit_node -> Z) (cs : list commit_node) : Z :=
  fold_right (fun node acc => f node + acc) 0 cs.

(** The commit has an author object, with or without an account. *)
Definition has_author (node : commit_node) : bool :=
  match author node with Some _ => true | None => false end.

(** The author of the commit has an account whose login is the one of
    the tracked user up to letter case. *)
Definition by_user (node : commit_node) : bool :=
  match author node with
  | Some a =>
      match user a with
      | Some login => String.eqb (Py.lower login) (Py.lower USER_NAME)
      | None => false
      end
  | None => false
  end.

(** The three accumulators after the commits [cs] by the tracked user
    have been added. *)
Definition tallied (cs : list commit_node) (acc : Z * Z * Z) : Z * Z * Z :=
  let '(my_commits, adds, dels) := acc in
  (my_commits + Z.of_nat (length (List.filter by_user cs)),
   adds + sum_of additions (List.filter by_user cs),
   dels + sum_of deletions (List.filter by_user cs)).

(** A text [str.split()] returns as one piece. *)
Fixpoint no_space (s : string) : bool :=
  match s with
  | EmptyString => true
  | String c s' => negb (Py.is_space c) && no_space s'
  end.

Definition is_token (s : string) : bool :=
  match s with
  | EmptyString => false
  | String _ _ => no_space s
  end.

(** The state after [requests.post] and after [time.sleep]. *)
Definition after_post (query : request) (st : state W) : state W :=
  snd (requests_post query st).

Definition after_sleep (seconds : Q) (st : state W) : state W :=
  State (world st) (QUERY_COUNT st) (CACHE_FILE st) (RECURSION_GUARD st)
        (trace st ++ [EvSleep seconds]).

(** [n] consecutive integers from [a]. *)
Fixpoint upfrom (a : Z) (n : nat) : list Z :=
  match n with
  | O => []
  | S n' => a :: upfrom (a + 1) n'
  end.

(** The state components a remote call leaves alone. *)
Definition same_files (st st' : state W) : Prop :=
  QUERY_COUNT st' = QUERY_COUNT st /\ CACHE_FILE st' = CACHE_FILE st
  /\ RECURSION_GUARD st' = RECURSION_GUARD st.

(** What [get_repo_commit_total] makes of the body it receives. *)
Definition probe_value (d : body) : outcome Z :=
  match data d with
  | PRepository None => Ok 0
  | PRepository (Some h) =>
      match totalCount h with
      | Some total => Ok total
      | None => Raise (KeyError "totalCount")
      end
  | _ => Raise (KeyError "repository")
  end.

(** The state after [count_query(name)] when the counter exists. *)
Definition counted (name : string) (st : state W) : state W :=
  State (world st) (<[name := default 0 (QUERY_COUNT st !! name) + 1]> (QUERY_COUNT st))
        (CACHE_FILE st) (RECURSION_GUARD st) (trace st).

(** The probe of the commit total is answered with no default branch. *)
Definition probe_finds_no_ref (owner repo : string) (st st' : state W) : Prop :=
  is_Some (QUERY_COUNT st !! "loc_repo_scan")
  /\ exists d,
       gql (QCommitTotal owner repo) "loc_repo_scan" (counted "loc_repo_scan" st)
       = (Ok d, st')
       /\ data d = PRepository None.

(** No request of the stretch pages through a commit history. *)
Definition no_history_post (tr : list event) : Prop :=
  forallb (fun ev => negb (is_history_post ev)) tr = true.

(** The counter under which the callers count a request. *)
Definition query_tag (q : request) : string :=
  match q with
  | QUserGetter _ => "user_getter"
  | QFollowers _ => "followers"
  | QOwnedRepos _ _ | QContribRepos _ _ => "repos_stars"
  | QLocListRepos _ _ => "loc_list_repos"
  | QCommitTotal _ _ | QCommitHistory _ _ _ => "loc_repo_scan"
  end.

(** The requests of a stretch of the trace that are counted under
    [name]: all of them, and those whose response [gql] returns.  A
    call of [gql] ends with the first response it can return, and an
    exception ends the run, so the second number is the number of calls
    that returned. *)
Definition is_request (name : string) (ev : event) : bool :=
  match ev with
  | EvPost q _ => String.eqb (query_tag q) name
  | EvSleep _ => false
  end.

Definition is_answer (name : string) (ev : event) : bool :=
  match ev with
  | EvPost q res =>
      String.eqb (query_tag q) name
      && match accepted res with Some _ => true | None => false end
  | EvSleep _ => false
  end.

Definition sent (name : string) (tr : list event) : Z :=
  Z.of_nat (length (List.filter (is_request name) tr)).

Definition answered (name : string) (tr : list event) : Z :=
  Z.of_nat (length (List.filter (is_answer name) tr)).

(** Whether a counter or a request is of the kind [name]. *)
Definition hit (name t : string) : Z := if String.eqb t name then 1 else 0.

(** The calls counted under [name] that have not returned. *)
Definition owed (name : string) (st : state W) : Z :=
  default 0 (QUERY_COUNT st !! name) - answered name (trace st).

(** A computation that keeps the counter [name], and changes the calls
    owed by [d] when it returns and by something between [lo] and [hi]
    when it does not. *)
Definition acct {A} (name : string) (d lo hi : Z) (c : M A) : Prop :=
  forall st, is_Some (QUERY_COUNT st !! name) ->
    is_Some (QUERY_COUNT (snd (c st)) !! name)
    /\ match fst (c st) with
       | Ok _ => owed name (snd (c st)) = owed name st + d
       | _ => lo <= owed name (snd (c st)) - owed name st <= hi
       end.

(** A computation that touches neither the counter nor the answers, and
    one whose calls are each counted once: when it returns nothing is
    owed, and when it does not, at most the call that failed. *)
Definition steady {A} (name : string) (c : M A) : Prop := acct name 0 0 0 c.
Definition balanced {A} (name : string) (c : M A) : Prop := acct name 0 0 1 c.

(** ** Effects *)

(** The ways a primitive changes the process state: a request, a pause,
    an increment of an existing counter, a write to the cache file, a
    look at the clock, and the increment of the recursion guard, which
    the code makes only when the guard does not exceed 1. *)
Inductive effect : state W -> state W -> Prop :=
| eff_post query st : effect st (after_post query st)
| eff_sleep seconds st : effect st (after_sleep seconds st)
| eff_count name st :
    is_Some (QUERY_COUNT st !! name) -> effect st (counted name st)
| eff_cache lines st : effect st (set_cache lines st)
| eff_clock st : effect st (snd (utcnow st))
| eff_guard st :
    RECURSION_GUARD st <= 1 ->
    effect st (snd (set_guard (RECURSION_GUARD st + 1) st)).

Definition effects : state W -> state W -> Prop := rtc effect.

(** A computation that changes the state only through effects. *)
Definition runs {A} (c : M A) : Prop := forall st, effects st (snd (c st)).

(** When [init_cache_if_needed] writes the cache anew. *)
Definition rebuild_needed (repos : list string) (st : state W) : Prop :=
  FORCE_CACHE = true
  \/ CACHE_FILE st = None
  \/ exists lines, CACHE_FILE st = Some lines
                   /\ length (drop CACHE_COMMENT_LINES lines) <> length repos.

(** The iterations of a loop that ran to its end, with the line and the
    three numbers of each. *)
Inductive iterations (fuel : nat) (repos repo_lines : list string)
  : nat -> list string -> list (string * (Z * Z * Z)) -> state W -> state W -> Prop :=
| iterations_nil i st : iterations fuel repos repo_lines i [] [] st st
| iterations_cons i full todo line my adds dels its st st1 st' :
    heavy_entry fuel repos repo_lines i full st = (Ok (Entry line my adds dels), st1) ->
    iterations fuel repos repo_lines (S i) todo its st1 st' ->
    iterations fuel repos repo_lines i (full :: todo)
      ((line, (my, adds, dels)) :: its) st st'.

Definition sumZ (l : list Z) : Z := fold_right Z.add 0 l.

Definition my_of (it : string * (Z * Z * Z)) : Z := fst (fst (snd it)).
Definition adds_of (it : string * (Z * Z * Z)) : Z := snd (fst (snd it)).
Definition dels_of (it : string * (Z * Z * Z)) : Z := snd (snd it).

(** What [heavy_stats] does once the listing is in and the cache has the
    right number of entries: the loop, then a new pass or the rewrite of
    the cache. *)
Definition aggregate (fuel : nat) (login : string) (repos lines : list string)
    : M (Z * Z * Z * Z) :=
  let* r := heavy_loop fuel repos (drop CACHE_COMMENT_LINES lines) 0 repos [] (0, 0, 0) in
  match r with
  | None => heavy_stats fuel login
  | Some (updated_lines, (total_my_commits, total_add, total_del)) =>
      write_cache (take CACHE_COMMENT_LINES lines ++ updated_lines) ;;
      ret (total_my_commits, total_add, total_del, total_add - total_del)
  end.

(** A pass of [heavy_stats] from [st] has the listing [repos], has
    found the lines [lines] in the cache file after
    [init_cache_if_needed], and has gone through the repositories [pre]
    with the entries [its]: its loop is at index [length pre], in the
    state [st']. *)
Definition pass_at (fuel : nat) (login : string) (st : state W)
    (repos lines pre : list string) (its : list (string * (Z * Z * Z)))
    (st' : state W) : Prop :=
  exists s1 s2,
    collect_repo_full_names fuel login st = (Ok repos, s1)
    /\ init_cache_if_needed repos s1 = (Ok tt, s2)
    /\ CACHE_FILE s2 = Some lines
    /\ iterations fuel repos (drop CACHE_COMMENT_LINES lines) 0 pre its s2 st'.

(** The two states have the same counters, whatever their values. *)
Definition same_keys (st st' : state W) : Prop :=
  forall name, is_Some (QUERY_COUNT st !! name) <-> is_Some (QUERY_COUNT st' !! name).

(** The remote answers a query the same way each time it is asked. *)
Definition answers (resp : request -> post_result) : Prop :=
  forall query w, fst (post query w) = resp query.

(** The commit history of a repository as an upstream that answers
    [resp] serves it from the cursor [after]: at most [n] pages, each of
    them accepted, holding the commits [cs] in all. *)
Inductive served_history (resp : request -> post_result) (owner repo : string)
  : nat -> cursor -> list commit_node -> Prop :=
| served_no_ref n after d :
    accepted (resp (QCommitHistory owner repo after)) = Some d ->
    data d = PRepository None ->
    served_history resp owner repo (S n) after []
| served_last n after d h es pi :
    accepted (resp (QCommitHistory owner repo after)) = Some d ->
    data d = PRepository (Some h) ->
    edges h = Some es -> pageInfo h = Some pi -> hasNextPage pi = false ->
    served_history resp owner repo (S n) after es
| served_next n after d h es pi cs :
    accepted (resp (QCommitHistory owner repo after)) = Some d ->
    data d = PRepository (Some h) ->
    edges h = Some es -> pageInfo h = Some pi -> hasNextPage pi = true ->
    served_history resp owner repo n (endCursor pi) cs ->
    served_history resp owner repo (S n) after (es ++ cs).

(** ** Vocabulary of the further statements *)

(** A text with its commas taken out. *)
Fixpoint uncomma (s : string) : string :=
  match s with
  | EmptyString => EmptyString
  | String c s' => if Ascii.eqb c "," then uncomma s' else String c (uncomma s')
  end.

(** The wrap loop on groups of words instead of lines: a line is the
    words of its group joined by one blank. *)
Fixpoint wrap_groups (max_w : Z) (words : list string) (groups : list (list string))
    (cur : list string) : list (list string) :=
  match words with
  | [] => match cur with [] => groups | _ :: _ => groups ++ [cur] end
  | w :: words' =>
      if approx_text_px (Py.join " " (cur ++ [w])) <=? max_w
      then wrap_groups max_w words' groups (cur ++ [w])
      else wrap_groups max_w words'
             (match cur with [] => groups | _ :: _ => groups ++ [cur] end) [w]
  end.

Definition tokens (ws : list string) : Prop := Forall (fun w => is_token w = true) ws.

Definition pending (cur : list string) : list (list string) :=
  match cur with [] => [] | _ :: _ => [cur] end.

(** A line has a word, and is within the width unless it is one word. *)
Definition fits_or_single (max_w : Z) (g : list string) : Prop :=
  g <> [] /\ (approx_text_px (Py.join " " g) <= max_w \/ length g = 1%nat).

(** No line could have taken the first word of the next one. *)
Fixpoint greedy (max_w : Z) (groups : list (list string)) : Prop :=
  match groups with
  | [] => True
  | g :: rest =>
      match rest with
      | (w :: _) :: _ => max_w < approx_text_px (Py.join " " (g ++ [w]))
      | _ => True
      end /\ greedy max_w rest
  end.

(** A computation that neither reads nor changes the process state. *)
Definition pure {A} (c : M A) : Prop := forall st st0, c st0 = (fst (c st), st0).

(** A cache line read the way [heavy_stats] reads it: [split()], five
    fields, [int] of the last four. *)
Definition entry_fields (line : string) : option cache_entry :=
  match Py.split line with
  | [h; t; m; a; d] =>
      match Py.int t, Py.int m, Py.int a, Py.int d with
      | Some t, Some m, Some a, Some d => Some (CacheEntry h t m a d)
      | _, _, _, _ => None
      end
  | _ => None
  end.

(** The cache file is a header and zeroed entries, as a rebuild leaves it. *)
Definition rebuilt (cache : option (list string)) : Prop :=
  exists hdr listed,
    length hdr = CACHE_COMMENT_LINES /\ cache = Some (hdr ++ map zeroed_entry listed).

(** A computation whose final state is related to its initial state,
    however it ends. *)
Definition keeps {A} (R : state W -> state W -> Prop) (c : M A) : Prop :=
  forall st, R st (snd (c st)).

Definition same_cache (st st' : state W) : Prop := CACHE_FILE st' = CACHE_FILE st.

(** The requests of the heavy scan: the listing, the probes and the
    history pages. *)
Definition is_heavy_post (ev : event) : bool :=
  match ev with
  | EvPost (QLocListRepos _ _) _ | EvPost (QCommitTotal _ _) _
  | EvPost (QCommitHistory _ _ _) _ => true
  | _ => false
  end.

(** What light mode leaves alone: the cache file, the guard, the two
    counters of the heavy scan, and the requests of the heavy scan. *)
Definition light (st st' : state W) : Prop :=
  CACHE_FILE st' = CACHE_FILE st
  /\ RECURSION_GUARD st' = RECURSION_GUARD st
  /\ QUERY_COUNT st' !! "loc_list_repos" = QUERY_COUNT st !! "loc_list_repos"
  /\ QUERY_COUNT st' !! "loc_repo_scan" = QUERY_COUNT st !! "loc_repo_scan"
  /\ exists tr, trace st' = trace st ++ tr
                /\ forallb (fun ev => negb (is_heavy_post ev)) tr = true.

(** The pages of a repository listing as an upstream that answers [resp]
    serves them from the cursor [after], each accepted, the last one
    without a next page. *)
Inductive served_pages (resp : request -> post_result) (q : cursor -> request)
  : cursor -> list repositories -> Prop :=
| served_pages_last after d rs :
    accepted (resp (q after)) = Some d ->
    data d = PRepositories rs ->
    hasNextPage (repos_pageInfo rs) = false ->
    served_pages resp q after [rs]
| served_pages_next after d rs pages :
    accepted (resp (q after)) = Some d ->
    data d = PRepositories rs ->
    hasNextPage (repos_pageInfo rs) = true ->
    served_pages resp q (endCursor (repos_pageInfo rs)) pages ->
    served_pages resp q after (rs :: pages).

(** The names and the stars of a page, when every node has them. *)
Definition page_names (rs : repositories) : option (list string) :=
  es ← repos_edges rs; mapM nameWithOwner es.

Definition page_stars (rs : repositories) : option Z :=
  es ← repos_edges rs; ss ← mapM stargazers es; Some (sumZ ss).

(** What a repository of the listing has upstream: no commit on its
    default branch, or a history served in at most [fuel] pages that
    hold the commits [cs]. *)
Inductive repo_served (resp : request -> post_result) (fuel : nat) (full : string)
  : list commit_node -> Prop :=
| repo_served_empty owner repo d :
    Py.split_on "/" full = [owner; repo] ->
    accepted (resp (QCommitTotal owner repo)) = Some d ->
    probe_value d = Ok 0 ->
    repo_served resp fuel full []
| repo_served_history owner repo d total n cs :
    Py.split_on "/" full = [owner; repo] ->
    accepted (resp (QCommitTotal owner repo)) = Some d ->
    probe_value d = Ok total -> total <> 0 ->
    served_history resp owner repo n None cs -> (n <= fuel)%nat ->
    repo_served resp fuel full cs.

(** * Properties *)

(** ** Text primitives on examples *)

Example split_entry :
  Py.split ("ab12 3 1 10 2" +:+ newline) = ["ab12"; "3"; "1"; "10"; "2"].
Proof. reflexivity. Qed.

Example int_examples :
  Py.int "42" = Some 42 /\ Py.int "-7" = Some (-7) /\ Py.int "+5" = Some 5
  /\ Py.int "007" = Some 7 /\ Py.int "" = None /\ Py.int "4x" = None
  /\ Py.int "+-5" = None /\ Py.int "-" = None /\ Py.int " 370 " = Some 370
  /\ Py.int "1_0" = Some 10 /\ Py.int "-1_000_000" = Some (-1000000)
  /\ Py.int "_1" = None /\ Py.int "1_" = None /\ Py.int "1__0" = None
  /\ Py.int "+_1" = None /\ Py.int "3 70" = None /\ Py.int "-0" = Some 0.
Proof. repeat split; reflexivity. Qed.

Example str_examples :
  Py.str 0 = "0" /\ Py.str (-12) = "-12" /\ Py.str 1234 = "1234".
Proof. repeat split; reflexivity. Qed.

Example format_int_examples :
  Py.format_int 0 = "0" /\ Py.format_int 999 = "999" /\ Py.format_int 1000 = "1,000"
  /\ Py.format_int 1234567 = "1,234,567" /\ Py.format_int (-4200) = "-4,200".
Proof. repeat split; reflexivity. Qed.

Example split_on_examples :
  Py.split_on "/" "octo/cat" = ["octo"; "cat"]
  /\ Py.split_on "/" "octocat" = ["octocat"]
  /\ Py.split_on "/" "a/b/c" = ["a"; "b"; "c"].
Proof. repeat split; reflexivity. Qed.

Example lower_examples :
  Py.lower "HimuCodes" = "himucodes"
  /\ Py.contains "rate limit" (Py.lower "API Rate Limit exceeded") = true
  /\ Py.contains "rate limit" "limit rate" = false.
Proof. repeat split; reflexivity. Qed.

(** ** Tokens, [split] and the integer round trip *)

Lemma no_space_app s t :
  no_space (s +:+ t) = no_space s && no_space t.
Proof.
  induction s as [|c s IH]; simpl; [reflexivity|].
  rewrite IH. apply andb_assoc.
Qed.

Lemma is_token_no_space s : is_token s = true -> no_space s = true.
Proof. destruct s; simpl; [discriminate | trivial]. Qed.

(** A token in front of a blank, or at the end, is the first piece. *)
Lemma split_token t r :
  is_token t = true ->
  match r with EmptyString => True | String c _ => Py.is_space c = true end ->
  Py.split (t +:+ r) = t :: Py.split r.
Proof.
  induction t as [|c t IH]; [discriminate|].
  intros Ht Hr. simpl in Ht. apply andb_true_iff in Ht as [Hc Ht].
  apply negb_true_iff in Hc.
  destruct t as [|c' t].
  - change (Py.split (String c r) = [String c EmptyString] ++ Py.split r).
    destruct r as [|c2 r]; cbn [Py.split]; rewrite Hc; [reflexivity|].
    rewrite Hr. reflexivity.
  - assert (Hc' : Py.is_space c' = false).
    { simpl in Ht. apply andb_true_iff in Ht as [Hc' _].
      now apply negb_true_iff in Hc'. }
    change (Py.split (String c (String c' t +:+ r)) = String c (String c' t) :: Py.split r).
    cbn [Py.split]. rewrite Hc.
    change (String c' t +:+ r) with (String c' (t +:+ r)).
    cbv iota beta. rewrite Hc'.
    change (String c' (t +:+ r)) with (String c' t +:+ r).
    rewrite IH; [reflexivity | exact Ht | exact Hr].
Qed.

Lemma rstrip_no_space s : no_space s = true -> Py.rstrip s = s.
Proof.
  induction s as [|c s IH]; [reflexivity|].
  simpl. intros H. apply andb_true_iff in H as [Hc Hs].
  apply negb_true_iff in Hc. rewrite (IH Hs), Hc. now destruct s.
Qed.

Lemma lstrip_no_space s : no_space s = true -> Py.lstrip s = s.
Proof.
  destruct s as [|c s]; [reflexivity|].
  simpl. intros H. apply andb_true_iff in H as [Hc _].
  apply negb_true_iff in Hc. now rewrite Hc.
Qed.

Lemma strip_no_space s : no_space s = true -> Py.strip s = s.
Proof.
  intros H. unfold Py.strip. rewrite (rstrip_no_space _ H). now apply lstrip_no_space.
Qed.

Lemma no_space_uint d : no_space (NilEmpty.string_of_uint d) = true.
Proof. induction d; simpl; auto. Qed.

Lemma str_is_token n : is_token (Py.str n) = true.
Proof.
  unfold Py.str.
  assert (Hu : forall d, is_token (NilZero.string_of_uint d) = true).
  { intros d. destruct d; try reflexivity; simpl; apply no_space_uint. }
  destruct (Z.to_int n) as [d|d]; simpl.
  - apply Hu.
  - apply is_token_no_space, Hu.
Qed.

Lemma ungroup_digits s : forall after_digit,
  forallb Py.is_digit (list_ascii_of_string s) = true ->
  s <> EmptyString \/ after_digit = true ->
  Py.ungroup after_digit s = Some s.
Proof.
  induction s as [|c s IH]; intros b Hd Hne.
  - destruct Hne as [Hne | ->]; [congruence | reflexivity].
  - cbn [list_ascii_of_string forallb] in Hd. apply andb_true_iff in Hd as [Hc Hs].
    cbn [Py.ungroup]. rewrite Hc. rewrite IH; [reflexivity | exact Hs | now right].
Qed.

Lemma digits_uint d :
  forallb Py.is_digit (list_ascii_of_string (NilEmpty.string_of_uint d)) = true.
Proof. induction d; simpl; auto. Qed.

Lemma digits_NilZero_uint d :
  forallb Py.is_digit (list_ascii_of_string (NilZero.string_of_uint d)) = true.
Proof. destruct d; try reflexivity; apply (digits_uint (_ d)). Qed.

Lemma NilZero_uint_nonempty d : NilZero.string_of_uint d <> EmptyString.
Proof. destruct d; simpl; discriminate. Qed.

Lemma NilZero_uint_round_trip d :
  Z.of_uint <$> NilZero.uint_of_string (NilZero.string_of_uint d) = Some (Z.of_uint d).
Proof.
  destruct (Decimal.uint_eq_dec d Decimal.Nil) as [->|Hd]; [reflexivity|].
  now rewrite NilZero.usu.
Qed.

(** [int(str(n)) == n]. *)
Lemma int_str n : Py.int (Py.str n) = Some n.
Proof.
  unfold Py.int.
  rewrite strip_no_space by (apply is_token_no_space, str_is_token).
  unfold Py.str.
  pose proof (DecimalZ.of_to n) as Hn. unfold Z.of_int in Hn.
  destruct (Z.to_int n) as [d|d].
  - cbn [NilZero.string_of_int].
    pose proof (digits_NilZero_uint d) as Hd.
    pose proof (NilZero_uint_nonempty d) as Hne.
    pose proof (ungroup_digits _ false Hd (or_introl Hne)) as Hu.
    pose proof (NilZero_uint_round_trip d) as Hr.
    destruct (NilZero.string_of_uint d) as [|c s] eqn:E; [congruence|].
    cbn [list_ascii_of_string forallb] in Hd. apply andb_true_iff in Hd as [Hc _].
    assert (Hplus : c <> "+"%char) by (intros ->; discriminate Hc).
    assert (Hminus : c <> "-"%char) by (intros ->; discriminate Hc).
    assert (Hgoal : Z.of_uint <$> (Py.ungroup false (String c s) ≫= NilZero.uint_of_string)
                    = Some n).
    { rewrite Hu. cbn [mbind option_bind]. rewrite Hr. now rewrite <- Hn. }
    destruct c as [[] [] [] [] [] [] [] []]; try exact Hgoal;
      [now elim Hminus | now elim Hplus].
  - cbn [NilZero.string_of_int].
    pose proof (digits_NilZero_uint d) as Hd.
    pose proof (NilZero_uint_nonempty d) as Hne.
    rewrite (ungroup_digits _ false Hd (or_introl Hne)). cbn [mbind option_bind].
    pose proof (NilZero_uint_round_trip d) as Hr.
    destruct (NilZero.uint_of_string (NilZero.string_of_uint d)) as [d'|];
      [|discriminate Hr].
    cbn [fmap option_fmap option_map] in *. injection Hr as Hr.
    rewrite <- Hn. f_equal. cbn [Z.of_int]. unfold Z.of_int. now rewrite Hr.
Qed.

Lemma hex_char_not_space d : negb (Py.is_space (hex_char d)) = true.
Proof.
  destruct d as [|p]; [reflexivity|].
  do 4 (destruct p as [p|p|]; try reflexivity).
Qed.

Lemma hex_digits_no_space n : forall v acc,
  no_space acc = true -> no_space (hex_digits n v acc) = true.
Proof.
  induction n as [|n IH]; intros v acc H; simpl; [exact H|].
  apply IH. simpl. now rewrite hex_char_not_space.
Qed.

Lemma hex_digits_length n : forall v acc,
  String.length (hex_digits n v acc) = (n + String.length acc)%nat.
Proof.
  induction n as [|n IH]; intros v acc; simpl; [reflexivity|].
  rewrite IH. simpl. lia.
Qed.

Lemma hexdigest_is_token v : is_token (hexdigest v) = true.
Proof.
  unfold is_token.
  pose proof (hex_digits_length 64 v EmptyString) as Hl.
  pose proof (hex_digits_no_space 64 v EmptyString eq_refl) as Hn.
  unfold hexdigest. destruct (hex_digits 64 v EmptyString); [discriminate | exact Hn].
Qed.

(** A cache line as the program writes it reads back as its five fields. *)
Lemma split_entry_line h t m a d :
  is_token h = true ->
  Py.split (entry_line h t m a d) = [h; Py.str t; Py.str m; Py.str a; Py.str d].
Proof.
  intros Hh. unfold entry_line.
  rewrite (split_token h) by (exact Hh || reflexivity).
  change (" " +:+ ?x) with (String " " x). cbn [Py.split].
  change (Py.is_space " ") with true. cbv iota.
  rewrite (split_token (Py.str t)) by (apply str_is_token || reflexivity).
  change (" " +:+ ?x) with (String " " x). cbn [Py.split].
  change (Py.is_space " ") with true. cbv iota.
  rewrite (split_token (Py.str m)) by (apply str_is_token || reflexivity).
  change (" " +:+ ?x) with (String " " x). cbn [Py.split].
  change (Py.is_space " ") with true. cbv iota.
  rewrite (split_token (Py.str a)) by (apply str_is_token || reflexivity).
  change (" " +:+ ?x) with (String " " x). cbn [Py.split].
  change (Py.is_space " ") with true. cbv iota.
  rewrite (split_token (Py.str d)) by (apply str_is_token || reflexivity).
  reflexivity.
Qed.

Lemma zeroed_entry_line full :
  zeroed_entry full = entry_line (hexdigest (sha256 full)) 0 0 0 0.
Proof. reflexivity. Qed.

(** ** The monad, step by step *)

Lemma bind_Ok {A B} (c : M A) (k : A -> M B) st b st' :
  bind c k st = (Ok b, st') ->
  exists a st1, c st = (Ok a, st1) /\ k a st1 = (Ok b, st').
Proof.
  unfold bind. destruct (c st) as [[a|e|] st1]; intros H; try discriminate.
  now exists a, st1.
Qed.

Lemma bind_step {A B} (c : M A) (k : A -> M B) st a st1 :
  c st = (Ok a, st1) -> bind c k st = k a st1.
Proof. unfold bind. now intros ->. Qed.

Lemma bind_Raise {A B} (c : M A) (k : A -> M B) st e st1 :
  c st = (Raise e, st1) -> bind c k st = (Raise e, st1).
Proof. unfold bind. now intros ->. Qed.

(** ** One attempt of [gql] *)

Lemma sleep_backoff_spec attempt st :
  sleep_backoff attempt st =
  match backoff_delay attempt with
  | inr q => (Ok tt, after_sleep q st)
  | inl e => (Raise e, st)
  end.
Proof.
  unfold sleep_backoff, backoff_delay, time_sleep.
  destruct (float_pow RETRY_BACKOFF attempt) as [seconds|]; [|reflexivity].
  destruct (sleep_delay seconds); reflexivity.
Qed.

(** The [except] clause after a failed attempt. *)
Lemma except_step {B} attempt (k : M B) e st :
  (if attempt <? MAX_RETRIES then sleep_backoff attempt ;; k else raise e) st =
  if attempt <? MAX_RETRIES then
    match backoff_delay attempt with
    | inr q => k (after_sleep q st)
    | inl e' => (Raise e', st)
    end
  else (Raise e, st).
Proof.
  destruct (attempt <? MAX_RETRIES); [|reflexivity].
  unfold bind. rewrite sleep_backoff_spec.
  destruct (backoff_delay attempt); reflexivity.
Qed.

(** A pause of the [try] block: when it is refused, the [except] clause
    tries the same pause, which is refused again. *)
Ltac try_pause :=
  unfold bind at 1; unfold try_; rewrite sleep_backoff_spec;
  let Hd := fresh "Hd" in
  destruct (backoff_delay _) eqn:Hd; [|reflexivity];
  cbv iota; unfold bind; rewrite sleep_backoff_spec, Hd; reflexivity.

(** Whatever the response, an attempt ends in one of four ways: the
    body is handed back; or the attempt failed and was not the last one,
    and the call pauses and goes on with the remaining attempts, or the
    pause is refused and its exception ends the call; or the attempt
    failed and was the last one, and its exception is raised. *)
Lemma gql_attempt_step query tag attempt rest last_exc st :
  let res := fst (post query (world st)) in
  exists last_exc',
    gql_attempts query tag (attempt :: rest) last_exc st =
    match accepted res with
    | Some d => (Ok d, after_post query st)
    | None =>
        if attempt <? MAX_RETRIES then
          match backoff_delay attempt with
          | inr q =>
              gql_attempts query tag rest last_exc'
                (after_sleep q (after_post query st))
          | inl e => (Raise e, after_post query st)
          end
        else (Raise (failure tag res), after_post query st)
    end.
Proof.
  cbn zeta. cbn [gql_attempts]. unfold bind at 1.
  unfold after_post, requests_post.
  destruct (post query (world st)) as [res w'] eqn:Hpost. cbn [fst snd].
  destruct res as [e|r]; cbn [accepted failure].
  - exists (Some e). apply except_step.
  - destruct (status_code r =? 502) eqn:H502.
    + assert (H200 : (status_code r =? 200) = false) by lia.
      rewrite H200. cbn [negb andb].
      destruct (attempt <? MAX_RETRIES) eqn:Hlt.
      * exists last_exc. try_pause.
      * exists None. reflexivity.
    + cbn [andb]. destruct (status_code r =? 200) eqn:H200; cbn [negb].
      * destruct (json r) as [d|].
        -- destruct (errors d) as [|m ms] eqn:Herr.
           ++ exists None. reflexivity.
           ++ destruct (attempt <? MAX_RETRIES) eqn:Hlt.
              ** rewrite andb_true_r.
                 destruct (Py.contains "rate limit" _).
                 --- exists last_exc. try_pause.
                 --- eexists. cbn [andb].
                     unfold bind. rewrite sleep_backoff_spec.
                     destruct (backoff_delay attempt); reflexivity.
              ** rewrite andb_false_r. exists None. reflexivity.
        -- eexists. apply except_step.
      * eexists. apply except_step.
Qed.

Lemma range_upfrom lo hi : Py.range lo hi = upfrom lo (Z.to_nat (hi - lo)).
Proof.
  unfold Py.range. generalize (Z.to_nat (hi - lo)) as n. intros n.
  revert lo. induction n as [|n IH]; intros lo; [reflexivity|].
  cbn [seq map upfrom]. f_equal; [lia|].
  rewrite <- IH, <- seq_shift, map_map.
  apply map_ext. intros i. lia.
Qed.

Lemma same_files_refl st : same_files st st.
Proof. now repeat split. Qed.

Lemma same_files_trans st1 st2 st3 :
  same_files st1 st2 -> same_files st2 st3 -> same_files st1 st3.
Proof.
  intros (H1 & H2 & H3) (H4 & H5 & H6).
  repeat split; [now rewrite H4 | now rewrite H5 | now rewrite H6].
Qed.

Lemma backoff_schedule_cons query attempt res outs :
  outs <> [] ->
  backoff_schedule query attempt (res :: outs)
  = EvPost query res :: EvSleep (pause attempt)
    :: backoff_schedule query (attempt + 1) outs.
Proof. destruct outs; [congruence | reflexivity]. Qed.

Lemma after_post_trace query st :
  trace (after_post query st)
  = trace st ++ [EvPost query (fst (post query (world st)))].
Proof. unfold after_post, requests_post. now destruct (post query (world st)). Qed.

Lemma after_post_same_files query st : same_files st (after_post query st).
Proof.
  unfold after_post, requests_post. destruct (post query (world st)); now repeat split.
Qed.

(** The attempts of a call whose budget has [n >= 1] attempts left,
    numbered from [a] up to [MAX_RETRIES]. *)
Lemma gql_attempts_spec query tag : forall n a last_exc st,
  a + Z.of_nat n = MAX_RETRIES ->
  exists outs,
    outs <> []
    /\ (length outs <= S n)%nat
    /\ trace (snd (gql_attempts query tag (upfrom a (S n)) last_exc st))
       = trace st ++ backoff_schedule query a outs
    /\ same_files st (snd (gql_attempts query tag (upfrom a (S n)) last_exc st))
    /\ (forall i res, (S i < length outs)%nat -> outs !! i = Some res ->
                      accepted res = None)
    /\ (forall i, (S i < length outs)%nat ->
                  backoff_delay (a + Z.of_nat i) = inr (pause (a + Z.of_nat i)))
    /\ match fst (gql_attempts query tag (upfrom a (S n)) last_exc st) with
       | Ok d => exists res, last outs = Some res /\ accepted res = Some d
       | Raise e =>
           exists res,
             last outs = Some res /\ accepted res = None
             /\ ((length outs = S n /\ e = failure tag res)
                 \/ ((length outs <= n)%nat
                     /\ backoff_delay (a + Z.of_nat (length outs) - 1) = inl e))
       | Hang => False
       end.
Proof.
  induction n as [|n IH]; intros a last_exc st Ha.
  - cbn [upfrom].
    destruct (gql_attempt_step query tag a [] last_exc st) as [l' ->].
    cbn zeta. set (res := fst (post query (world st))).
    assert (Hlt : (a <? MAX_RETRIES) = false) by lia. rewrite Hlt.
    exists [res]. split; [discriminate|]. split; [simpl; lia|].
    pose proof (after_post_trace query st) as Htr. fold res in Htr.
    pose proof (after_post_same_files query st) as Hsf.
    destruct (accepted res) as [d|] eqn:Hacc; cbn [fst snd];
      (split; [exact Htr|]); (split; [exact Hsf|]);
      (split; [intros i r Hi; simpl in Hi; lia|]);
      (split; [intros i Hi; simpl in Hi; lia|]).
    + now exists res.
    + exists res. split; [reflexivity|]. split; [exact Hacc|]. now left.
  - change (upfrom a (S (S n))) with (a :: upfrom (a + 1) (S n)).
    destruct (gql_attempt_step query tag a (upfrom (a + 1) (S n)) last_exc st)
      as [l' ->].
    cbn zeta. set (res := fst (post query (world st))).
    assert (Hlt : (a <? MAX_RETRIES) = true) by lia. rewrite Hlt.
    pose proof (after_post_trace query st) as Htr. fold res in Htr.
    pose proof (after_post_same_files query st) as Hsf.
    destruct (accepted res) as [d|] eqn:Hacc.
    + exists [res]. cbn [fst snd]. split; [discriminate|]. split; [simpl; lia|].
      split; [exact Htr|]. split; [exact Hsf|].
      split; [intros i r Hi; simpl in Hi; lia|].
      split; [intros i Hi; simpl in Hi; lia|]. now exists res.
    + destruct (backoff_delay a) as [e|q] eqn:Hd.
      * exists [res]. cbn [fst snd]. split; [discriminate|]. split; [simpl; lia|].
        split; [exact Htr|]. split; [exact Hsf|].
        split; [intros i r Hi; simpl in Hi; lia|].
        split; [intros i Hi; simpl in Hi; lia|].
        exists res. split; [reflexivity|]. split; [exact Hacc|]. right.
        split; [simpl; lia|]. cbn [length].
        replace (a + Z.of_nat 1 - 1) with a by lia. exact Hd.
      * assert (Hp : pause a = q) by (unfold pause; now rewrite Hd).
        set (st2 := after_sleep q (after_post query st)).
        destruct (IH (a + 1) l' st2 ltac:(lia))
          as (outs & Hne & Hlen & Htr' & Hsf' & Hinit & Hpauses & Hres).
        exists (res :: outs). split; [discriminate|]. split; [simpl; lia|].
        split.
        { rewrite Htr'. rewrite backoff_schedule_cons by exact Hne.
          unfold st2, after_sleep. cbn [trace].
          rewrite Htr, Hp. rewrite <- !app_assoc. reflexivity. }
        split.
        { eapply same_files_trans; [exact Hsf|].
          eapply same_files_trans; [|exact Hsf'].
          unfold st2, after_sleep. now repeat split. }
        split.
        { intros [|i] r Hi Hr.
          - cbn in Hr. injection Hr as <-. exact Hacc.
          - cbn in Hr. apply (Hinit i r); [simpl in Hi; lia | exact Hr]. }
        split.
        { intros [|i] Hi.
          - replace (a + Z.of_nat 0) with a by lia. now rewrite Hp.
          - replace (a + Z.of_nat (S i)) with (a + 1 + Z.of_nat i) by lia.
            apply Hpauses. simpl in Hi. lia. }
        destruct (fst (gql_attempts query tag (upfrom (a + 1) (S n)) l' st2)).
        -- destruct Hres as (r & Hl & Ha'). exists r. split; [|exact Ha'].
           destruct outs; [congruence | exact Hl].
        -- destruct Hres as (r & Hlast & Hf & He).
           exists r. split; [destruct outs; [congruence | exact Hlast]|].
           split; [exact Hf|].
           destruct He as [[Hl He]|[Hl He]]; [left | right].
           ++ split; [simpl; lia | exact He].
           ++ split; [simpl; lia|]. cbn [length].
              replace (a + Z.of_nat (S (length outs)) - 1)
                with (a + 1 + Z.of_nat (length outs) - 1) by lia.
              exact He.
        -- exact Hres.
Qed.

Lemma transient_not_accepted res : transient res = true -> accepted res = None.
Proof.
  destruct res as [e|r]; [reflexivity|]. cbn [transient accepted].
  intros H. destruct (status_code r =? 200) eqn:H200; [|reflexivity].
  assert (Hs : ((500 <=? status_code r) && (status_code r <=? 599)) = false) by lia.
  rewrite Hs in H. cbn [orb] in H.
  destruct (json r) as [d|]; [|reflexivity].
  destruct (errors d); [discriminate H | reflexivity].
Qed.

(** What one call of [gql] does, from any state. *)
Lemma gql_spec query tag st :
  exists outs,
    trace (snd (gql query tag st)) = trace st ++ backoff_schedule query 1 outs
    /\ Z.of_nat (length outs) <= Z.max 0 MAX_RETRIES
    /\ same_files st (snd (gql query tag st))
    /\ (forall i res, (S i < length outs)%nat -> outs !! i = Some res ->
                      accepted res = None)
    /\ (forall i, (S i < length outs)%nat ->
                  backoff_delay (1 + Z.of_nat i) = inr (pause (1 + Z.of_nat i)))
    /\ match fst (gql query tag st) with
       | Ok d => exists res, last outs = Some res /\ accepted res = Some d
       | Raise e =>
           match last outs with
           | Some res =>
               accepted res = None
               /\ ((Z.of_nat (length outs) = MAX_RETRIES /\ e = failure tag res)
                   \/ (Z.of_nat (length outs) < MAX_RETRIES
                       /\ backoff_delay (Z.of_nat (length outs)) = inl e))
           | None =>
               MAX_RETRIES <= 0
               /\ e = RuntimeError (tag +:+ " failed without exception")
           end
       | Hang => False
       end.
Proof.
  unfold gql. rewrite range_upfrom.
  replace (MAX_RETRIES + 1 - 1) with MAX_RETRIES by lia.
  destruct (Z.to_nat MAX_RETRIES) as [|n] eqn:Hn.
  - exists []. cbn [upfrom gql_attempts raise fst snd backoff_schedule length].
    rewrite app_nil_r. split; [reflexivity|]. split; [lia|].
    split; [apply same_files_refl|]. split; [intros i r Hi; simpl in Hi; lia|].
    split; [intros i Hi; simpl in Hi; lia|].
    cbn [last]. split; [lia | reflexivity].
  - destruct (gql_attempts_spec query tag n 1 None st ltac:(lia))
      as (outs & Hne & Hlen & Htr & Hsf & Hinit & Hpauses & Hres).
    exists outs. split; [exact Htr|]. split; [lia|]. split; [exact Hsf|].
    split; [exact Hinit|]. split; [exact Hpauses|].
    destruct (fst (gql_attempts query tag (upfrom 1 (S n)) None st)).
    + exact Hres.
    + destruct Hres as (r & Hlast & Hacc & He). rewrite Hlast.
      split; [exact Hacc|].
      destruct He as [[Hl He]|[Hl He]]; [left | right].
      * split; [lia | exact He].
      * split; [lia|].
        replace (Z.of_nat (length outs)) with (1 + Z.of_nat (length outs) - 1) by lia.
        exact He.
    + exact Hres.
Qed.

Lemma gql_same_files query tag st : same_files st (snd (gql query tag st)).
Proof. destruct (gql_spec query tag st) as (outs & _ & _ & H & _). exact H. Qed.

Lemma posts_backoff_schedule query : forall outs attempt,
  posts (backoff_schedule query attempt outs) = length outs.
Proof.
  induction outs as [|res outs IH]; intros attempt; [reflexivity|].
  destruct outs as [|res' outs]; [reflexivity|].
  rewrite backoff_schedule_cons by discriminate.
  unfold posts in *. cbn [List.filter is_post length].
  now rewrite IH.
Qed.

Lemma pauses_accepted_spec attempt :
  pauses_accepted = true -> 1 <= attempt < MAX_RETRIES ->
  backoff_delay attempt = inr (pause attempt).
Proof.
  unfold pauses_accepted. rewrite forallb_forall. intros H Ha.
  assert (Hin : In attempt (Py.range 1 MAX_RETRIES)).
  { unfold Py.range. apply in_map_iff. exists (Z.to_nat (attempt - 1)).
    split; [lia|]. apply in_seq. lia. }
  specialize (H attempt Hin). unfold pause.
  destruct (backoff_delay attempt); [discriminate | reflexivity].
Qed.

(** ** The retry policy of the query client *)


(** C3 (amended).  A failure that is not transient (a status other than
    200 and outside 5xx, a body that is not JSON, GraphQL errors without
    a rate-limit message, an exception of [requests.post] other than a
    timeout or a connection error) is handled like any other: when the
    attempt is not the last one the call remembers the exception, sleeps
    [RETRY_BACKOFF ** attempt] and goes on with the remaining attempts;
    only on the last attempt is the exception raised.  An attempt that
    is not the last one ends the call only when its pause is one that
    the power or [time.sleep] refuses, and then with their exception. *)
Theorem gql_fatal_failure_is_retried query tag attempt rest last_exc st :
  accepted (fst (post query (world st))) = None ->
  transient (fst (post query (world st))) = false ->
  gql_attempts query tag (attempt :: rest) last_exc st =
    if attempt <? MAX_RETRIES then
      match backoff_delay attempt with
      | inr seconds =>
          gql_attempts query tag rest (Some (failure tag (fst (post query (world st)))))
            (after_sleep seconds (after_post query st))
      | inl e => (Raise e, after_post query st)
      end
    else (Raise (failure tag (fst (post query (world st)))), after_post query st).
Proof.
  cbn [gql_attempts]. unfold bind at 1.
  unfold after_post, requests_post.
  destruct (post query (world st)) as [res w'] eqn:Hpost. cbn [fst snd].
  destruct res as [e|r]; cbn [accepted failure transient]; intros Hacc Htr.
  - apply except_step.
  - apply orb_false_iff in Htr as [H5xx Hrate].
    assert (H502 : (status_code r =? 502) = false) by lia.
    rewrite H502. cbn [andb].
    destruct (status_code r =? 200) eqn:H200; cbn [negb].
    + destruct (json r) as [d|].
      * destruct (errors d) as [|m ms] eqn:Herr; [discriminate Hacc|].
        rewrite Hrate. cbn [andb]. apply except_step.
      * apply except_step.
    + apply except_step.
Qed.

(** ** Query accounting *)

Lemma count_query_spec name st n :
  QUERY_COUNT st !! name = Some n ->
  count_query name st = (Ok tt, counted name st).
Proof. unfold count_query, counted. now intros ->. Qed.

Lemma get_repo_commit_total_eq owner repo st n :
  QUERY_COUNT st !! "loc_repo_scan" = Some n ->
  get_repo_commit_total owner repo st =
    let r := gql (QCommitTotal owner repo) "loc_repo_scan" (counted "loc_repo_scan" st) in
    (match fst r with
     | Ok d => probe_value d
     | Raise e => Raise e
     | Hang => Hang
     end, snd r).
Proof.
  intros Hn. unfold get_repo_commit_total.
  rewrite (bind_step _ _ _ _ _ (count_query_spec _ _ _ Hn)).
  unfold bind at 1. cbn zeta.
  destruct (gql _ _ _) as [[d|e|] st2]; cbn [fst snd]; try reflexivity.
  unfold probe_value, repository_defaultBranchRef, bind, ret, raise, getitem.
  destruct (data d) as [| | |[h|]|]; try reflexivity.
  destruct (totalCount h); reflexivity.
Qed.

(** ** Computations that only read *)

Lemma getitem_Ok {A} key (o : option A) st a st' :
  getitem key o st = (Ok a, st') -> o = Some a /\ st' = st.
Proof. destruct o; cbn; intros [= <- <-] || intros [=]; now split. Qed.

Lemma repository_defaultBranchRef_Ok d st ref st' :
  repository_defaultBranchRef d st = (Ok ref, st') ->
  data d = PRepository ref /\ st' = st.
Proof.
  unfold repository_defaultBranchRef.
  destruct (data d); cbn; intros [= <- <-] || intros [=]; now split.
Qed.

Lemma user_repositories_Ok d st rs st' :
  user_repositories d st = (Ok rs, st') -> data d = PRepositories rs /\ st' = st.
Proof.
  unfold user_repositories.
  destruct (data d); cbn; intros [= <- <-] || intros [=]; now split.
Qed.

Lemma int_of_Ok s st n st' :
  int_of s st = (Ok n, st') -> Py.int s = Some n /\ st' = st.
Proof.
  unfold int_of. destruct (Py.int s); cbn; intros [= <- <-] || intros [=]; now split.
Qed.

Lemma count_query_Ok name st u st' :
  count_query name st = (Ok u, st') ->
  is_Some (QUERY_COUNT st !! name) /\ st' = counted name st.
Proof.
  unfold count_query, counted.
  destruct (QUERY_COUNT st !! name) as [n|]; [|discriminate].
  intros [= _ <-]. split; [now exists n | reflexivity].
Qed.

(** A call that returns a body: its trace, and the one response in it
    that was accepted. *)
Lemma gql_Ok query tag st d st' :
  gql query tag st = (Ok d, st') ->
  exists outs res,
    trace st' = trace st ++ backoff_schedule query 1 outs
    /\ same_files st st'
    /\ last outs = Some res /\ accepted res = Some d
    /\ (forall i r, (S i < length outs)%nat -> outs !! i = Some r -> accepted r = None).
Proof.
  intros H. destruct (gql_spec query tag st) as (outs & Htr & _ & Hsf & Hinit & _ & Hres).
  rewrite H in *. cbn [fst snd] in *. destruct Hres as (res & Hl & Ha).
  now exists outs, res.
Qed.

(** ** Commits seen by a scan *)

Lemma scanned_commits_app tr1 tr2 :
  scanned_commits (tr1 ++ tr2) = scanned_commits tr1 ++ scanned_commits tr2.
Proof. unfold scanned_commits. now rewrite map_app, concat_app. Qed.

(** Of the attempts of one call only the accepted one brings commits. *)
Lemma scanned_commits_schedule query : forall outs attempt res,
  last outs = Some res ->
  (forall i r, (S i < length outs)%nat -> outs !! i = Some r -> accepted r = None) ->
  scanned_commits (backoff_schedule query attempt outs)
  = page_commits (EvPost query res).
Proof.
  induction outs as [|r0 outs IH]; intros attempt res Hlast Hinit; [discriminate|].
  destruct outs as [|r1 outs].
  - cbn in Hlast. injection Hlast as ->. cbn. now rewrite app_nil_r.
  - rewrite backoff_schedule_cons by discriminate.
    unfold scanned_commits. cbn [map concat].
    fold (scanned_commits (backoff_schedule query (attempt + 1) (r1 :: outs))).
    rewrite (IH (attempt + 1) res).
    + assert (H0 : accepted r0 = None) by (apply (Hinit 0%nat); [simpl; lia | reflexivity]).
      assert (Hp : page_commits (EvPost query r0) = []).
      { unfold page_commits. destruct query; try reflexivity. now rewrite H0. }
      rewrite Hp. reflexivity.
    + exact Hlast.
    + intros i r Hi Hr. apply (Hinit (S i)); [simpl in *; lia | exact Hr].
Qed.

Lemma sum_of_app f l1 l2 : sum_of f (l1 ++ l2) = sum_of f l1 + sum_of f l2.
Proof.
  unfold sum_of. induction l1 as [|x l1 IH]; cbn [app fold_right]; [reflexivity|].
  rewrite IH. lia.
Qed.

Lemma tallied_nil acc : tallied [] acc = acc.
Proof. destruct acc as [[m a] d]. cbn. f_equal; [f_equal|]; lia. Qed.

Lemma tallied_app cs1 cs2 acc : tallied (cs1 ++ cs2) acc = tallied cs2 (tallied cs1 acc).
Proof.
  destruct acc as [[m a] d]. unfold tallied.
  rewrite List.filter_app, length_app, !sum_of_app, Nat2Z.inj_add.
  f_equal; [f_equal|]; lia.
Qed.

Lemma tallied_cons node cs m a d :
  tallied (node :: cs) (m, a, d)
  = tallied cs (if by_user node then (m + 1, a + additions node, d + deletions node)
                else (m, a, d)).
Proof.
  unfold tallied. cbn [List.filter]. destruct (by_user node).
  - unfold sum_of. cbn [length fold_right]. f_equal; [f_equal|]; lia.
  - reflexivity.
Qed.

(** The test on a commit with an author object. *)
Lemma authored_by_user_author node st :
  has_author node = true -> authored_by_user node st = (Ok (by_user node), st).
Proof.
  unfold has_author, authored_by_user, by_user.
  destruct (author node) as [a|]; [|discriminate]. intros _.
  destruct (user a); reflexivity.
Qed.

Lemma authored_by_user_null node st :
  has_author node = false -> authored_by_user node st = (Raise TypeError, st).
Proof.
  unfold has_author, authored_by_user.
  destruct (author node); [discriminate | reflexivity].
Qed.

(** The inner loop adds one commit, its additions and its deletions for
    each edge that passes the test, and nothing for the others; it
    raises [TypeError] at the first commit without an author object. *)
Lemma tally_edges_spec es : forall acc st,
  tally_edges es acc st
  = (if forallb has_author es then Ok (tallied es acc) else Raise TypeError, st).
Proof.
  induction es as [|node es IH]; intros [[m a] d] st.
  - cbn [tally_edges forallb ret]. now rewrite tallied_nil.
  - cbn [tally_edges forallb]. unfold bind.
    destruct (has_author node) eqn:Hn.
    + rewrite (authored_by_user_author _ _ Hn). cbn [andb].
      rewrite tallied_cons. destruct (by_user node); apply IH.
    + rewrite (authored_by_user_null _ _ Hn). reflexivity.
Qed.

Lemma tally_edges_Ok es acc st acc' st' :
  tally_edges es acc st = (Ok acc', st') ->
  forallb has_author es = true /\ acc' = tallied es acc /\ st' = st.
Proof.
  rewrite tally_edges_spec. destruct (forallb has_author es); [|discriminate].
  intros [= <- <-]. now repeat split.
Qed.

Lemma history_pages_Ok : forall fuel owner repo after acc st acc' st',
  history_pages fuel owner repo after acc st = (Ok acc', st') ->
  exists tr,
    trace st' = trace st ++ tr
    /\ forallb has_author (scanned_commits tr) = true
    /\ acc' = tallied (scanned_commits tr) acc.
Proof.
  induction fuel as [|fuel IH]; intros owner repo after acc st acc' st' H;
    [discriminate|].
  cbn [history_pages] in H.
  apply bind_Ok in H as (u & st1 & Hc & H).
  apply count_query_Ok in Hc as [_ ->].
  apply bind_Ok in H as (d & st2 & Hg & H).
  apply gql_Ok in Hg as (outs & res & Htr & _ & Hlast & Hacc & Hinit).
  apply bind_Ok in H as (ref & st3 & Hr & H).
  apply repository_defaultBranchRef_Ok in Hr as [Hd ->].
  pose proof (scanned_commits_schedule (QCommitHistory owner repo after) _ 1 _
                Hlast Hinit) as Hsc.
  cbn [page_commits] in Hsc. rewrite Hacc, Hd in Hsc.
  destruct ref as [h|].
  - apply bind_Ok in H as (es & st4 & He & H).
    apply getitem_Ok in He as [He ->].
    apply bind_Ok in H as (acc1 & st5 & Ht & H).
    apply tally_edges_Ok in Ht as (Hau & -> & ->).
    apply bind_Ok in H as (pi & st6 & Hp & H).
    apply getitem_Ok in Hp as [Hp ->].
    rewrite He in Hsc. cbn [default from_option] in Hsc. unfold id in Hsc.
    destruct (negb (hasNextPage pi)).
    + injection H as <- <-. eexists. split; [exact Htr|]. now rewrite Hsc.
    + apply IH in H as (tr' & Htr' & Hau' & ->).
      eexists. split; [|split].
      * rewrite Htr', Htr. cbn [counted trace]. rewrite <- app_assoc. reflexivity.
      * rewrite scanned_commits_app, Hsc, forallb_app, Hau, Hau'. reflexivity.
      * rewrite scanned_commits_app, Hsc. now rewrite tallied_app.
  - injection H as <- <-. eexists. split; [exact Htr|]. rewrite Hsc.
    split; [reflexivity | now rewrite tallied_nil].
Qed.

(** ** Fuel: a loop that has ended has ended for every larger fuel *)

Lemma history_pages_mono : forall fuel owner repo after acc st r st',
  history_pages fuel owner repo after acc st = (r, st') -> r <> Hang ->
  forall fuel', (fuel <= fuel')%nat ->
  history_pages fuel' owner repo after acc st = (r, st').
Proof.
  induction fuel as [|fuel IH]; intros owner repo after acc st r st' H Hr fuel' Hle.
  - cbn in H. injection H as <- <-. congruence.
  - destruct fuel' as [|fuel']; [lia|].
    revert H. cbn [history_pages]. unfold bind.
    destruct (count_query _ st) as [[?|?|] st1]; try (intros; assumption).
    destruct (gql _ _ st1) as [[d|?|] st2]; try (intros; assumption).
    destruct (repository_defaultBranchRef d st2) as [[[h|]|?|] st3];
      try (intros; assumption).
    destruct (getitem "edges" (edges h) st3) as [[es|?|] st4]; try (intros; assumption).
    destruct (tally_edges es acc st4) as [[acc1|?|] st4']; try (intros; assumption).
    destruct (getitem "pageInfo" (pageInfo h) st4') as [[pi|?|] st5];
      try (intros; assumption).
    destruct (negb (hasNextPage pi)); [intros; assumption|].
    intros H. apply (IH _ _ _ _ _ _ _ H Hr). lia.
Qed.

Lemma list_pages_mono : forall fuel login after names st r st',
  list_pages fuel login after names st = (r, st') -> r <> Hang ->
  forall fuel', (fuel <= fuel')%nat ->
  list_pages fuel' login after names st = (r, st').
Proof.
  induction fuel as [|fuel IH]; intros login after names st r st' H Hr fuel' Hle.
  - cbn in H. injection H as <- <-. congruence.
  - destruct fuel' as [|fuel']; [lia|].
    revert H. cbn [list_pages]. unfold bind.
    destruct (count_query _ st) as [[?|?|] st1]; try (intros; assumption).
    destruct (gql _ _ st1) as [[d|?|] st2]; try (intros; assumption).
    destruct (user_repositories d st2) as [[rs|?|] st3]; try (intros; assumption).
    destruct (getitem "edges" (repos_edges rs) st3) as [[es|?|] st4];
      try (intros; assumption).
    destruct (append_names es names st4) as [[names'|?|] st5]; try (intros; assumption).
    destruct (negb (hasNextPage (repos_pageInfo rs))); [intros; assumption|].
    intros H. apply (IH _ _ _ _ _ _ H Hr). lia.
Qed.

Lemma scan_repo_history_mono fuel owner repo st r st' :
  scan_repo_history fuel owner repo st = (r, st') -> r <> Hang ->
  forall fuel', (fuel <= fuel')%nat ->
  scan_repo_history fuel' owner repo st = (r, st').
Proof.
  intros H Hr fuel' Hle. revert H. unfold scan_repo_history. unfold bind.
  destruct (get_repo_commit_total owner repo st) as [[total|?|] st1];
    try (intros; assumption).
  destruct (total =? 0); [intros; assumption|].
  destruct (history_pages fuel owner repo None (0, 0, 0) st1) as [ri sti] eqn:Hh.
  intros H.
  assert (Hne : ri <> Hang).
  { intros ->. injection H as <- _. congruence. }
  now rewrite (history_pages_mono _ _ _ _ _ _ _ _ Hh Hne fuel' Hle).
Qed.

Lemma scanned_commits_other query : forall outs attempt,
  (forall owner repo after, query <> QCommitHistory owner repo after) ->
  scanned_commits (backoff_schedule query attempt outs) = [].
Proof.
  induction outs as [|r0 outs IH]; intros attempt Hq; [reflexivity|].
  assert (Hp : page_commits (EvPost query r0) = []).
  { destruct query; try reflexivity. now elim (Hq owner repo after). }
  destruct outs as [|r1 outs].
  - unfold scanned_commits. cbn [backoff_schedule map concat]. now rewrite Hp.
  - rewrite backoff_schedule_cons by discriminate.
    unfold scanned_commits. cbn [map concat].
    fold (scanned_commits (backoff_schedule query (attempt + 1) (r1 :: outs))).
    rewrite IH by exact Hq. now rewrite Hp.
Qed.

(** A probe that returns: its requests are probes, and it adds one to
    the counter. *)
Lemma get_repo_commit_total_Ok owner repo st total st' :
  get_repo_commit_total owner repo st = (Ok total, st') ->
  exists outs res d,
    trace st' = trace st ++ backoff_schedule (QCommitTotal owner repo) 1 outs
    /\ last outs = Some res /\ accepted res = Some d /\ probe_value d = Ok total
    /\ same_files (counted "loc_repo_scan" st) st'
    /\ is_Some (QUERY_COUNT st !! "loc_repo_scan").
Proof.
  intros H. unfold get_repo_commit_total in H.
  apply bind_Ok in H as (u & st1 & Hc & H).
  apply count_query_Ok in Hc as [Hk ->].
  destruct Hk as [n Hn].
  pose proof (get_repo_commit_total_eq owner repo st n Hn) as E.
  unfold get_repo_commit_total in E.
  rewrite (bind_step _ _ _ _ _ (count_query_spec _ _ _ Hn)) in E.
  rewrite E in H. cbn zeta in H.
  destruct (gql (QCommitTotal owner repo) "loc_repo_scan" (counted "loc_repo_scan" st))
    as [[d|e|] st2] eqn:Hg; cbn [fst snd] in H; try discriminate.
  injection H as Hp <-.
  apply gql_Ok in Hg as (outs & res & Htr & Hsf & Hlast & Hacc & _).
  exists outs, res, d. repeat split; try assumption; try apply Hsf.
  now exists n.
Qed.

(** ** Author attribution *)

(** The test of the inner loop passes when the author has an account
    whose login is the one of the tracked user up to letter case. *)
Lemma by_user_spec node :
  by_user node = true
  <-> exists a login, author node = Some a /\ user a = Some login
                      /\ Py.lower login = Py.lower USER_NAME.
Proof.
  unfold by_user. destruct (author node) as [a|].
  - destruct (user a) as [login|] eqn:Hu.
    + rewrite String.eqb_eq. split.
      * intros E. now exists a, login.
      * intros (a' & l & [= <-] & Hl & E). rewrite Hu in Hl. now injection Hl as <-.
    + split; [discriminate|]. intros (a' & l & [= <-] & Hl & _). congruence.
  - split; [discriminate | intros (a' & l & [=] & _)].
Qed.

(** Whatever the upstream does, a scan that returns has counted exactly
    the commits, among those of the history pages it was given, that pass
    the test, and each of these commits had an author object; more fuel
    does not change the result. *)
Lemma scan_repo_history_Ok fuel owner repo st total my adds dels st' :
  scan_repo_history fuel owner repo st = (Ok (total, my, adds, dels), st') ->
  (exists tr,
     trace st' = trace st ++ tr
     /\ forallb has_author (scanned_commits tr) = true
     /\ my = Z.of_nat (length (List.filter by_user (scanned_commits tr)))
     /\ adds = sum_of additions (List.filter by_user (scanned_commits tr))
     /\ dels = sum_of deletions (List.filter by_user (scanned_commits tr)))
  /\ (forall fuel', (fuel <= fuel')%nat ->
        scan_repo_history fuel' owner repo st = (Ok (total, my, adds, dels), st')).
Proof.
  intros H. split.
  - unfold scan_repo_history in H.
    apply bind_Ok in H as (t & st1 & Hp & H).
    apply get_repo_commit_total_Ok in Hp as (outs & res & d & Htr & _ & _ & _ & _ & _).
    assert (Hnone : scanned_commits (backoff_schedule (QCommitTotal owner repo) 1 outs) = [])
      by (apply scanned_commits_other; discriminate).
    destruct (t =? 0).
    + injection H as <- <- <- <- <-. eexists. split; [exact Htr|].
      rewrite Hnone. now repeat split.
    + apply bind_Ok in H as ([[m a] dl] & st2 & Hh & H).
      injection H as <- <- <- <- <-.
      apply history_pages_Ok in Hh as (tr & Htr' & Hau & Hacc).
      unfold tallied in Hacc. injection Hacc as -> -> ->.
      eexists. split.
      * rewrite Htr', Htr, <- app_assoc. reflexivity.
      * rewrite scanned_commits_app, Hnone. cbn [app]. repeat split; [exact Hau|lia..].
  - intros fuel' Hle. apply (scan_repo_history_mono _ _ _ _ _ _ H); [discriminate | exact Hle].
Qed.

(** A response accepted at the first attempt ends the call there. *)
Lemma gql_accepted query tag st d :
  1 <= MAX_RETRIES ->
  accepted (fst (post query (world st))) = Some d ->
  gql query tag st = (Ok d, after_post query st).
Proof.
  intros Hmax Hacc. unfold gql. rewrite range_upfrom.
  replace (MAX_RETRIES + 1 - 1) with MAX_RETRIES by lia.
  destruct (Z.to_nat MAX_RETRIES) as [|n] eqn:Hn; [lia|].
  change (upfrom 1 (S n)) with (1 :: upfrom (1 + 1) n).
  destruct (gql_attempt_step query tag 1 (upfrom (1 + 1) n) None st) as [l' ->].
  cbn zeta. now rewrite Hacc.
Qed.

Lemma gql_answered resp query tag st d :
  answers resp -> 1 <= MAX_RETRIES ->
  accepted (resp query) = Some d ->
  gql query tag st = (Ok d, after_post query st).
Proof.
  intros Hresp Hmax Hacc. apply gql_accepted; [exact Hmax|]. now rewrite Hresp.
Qed.

Lemma after_post_counters query st :
  QUERY_COUNT (after_post query st) = QUERY_COUNT st.
Proof.
  unfold after_post, requests_post. now destruct (post query (world st)).
Qed.

(** The outer loop on a history served in pages: it ends, with every
    commit of every page tallied when all of them have an author
    object, and with [TypeError] otherwise. *)
Lemma history_pages_served resp owner repo :
  answers resp -> 1 <= MAX_RETRIES ->
  forall n after cs, served_history resp owner repo n after cs ->
  forall fuel acc st, (n <= fuel)%nat ->
    is_Some (QUERY_COUNT st !! "loc_repo_scan") ->
    exists st',
      history_pages fuel owner repo after acc st
      = (if forallb has_author cs then Ok (tallied cs acc) else Raise TypeError, st').
Proof.
  intros Hresp Hmax n after cs Hs.
  induction Hs as [n after d Hacc Hd | n after d h es pi Hacc Hd He Hp Hn
                  | n after d h es pi cs Hacc Hd He Hp Hn Hs IH];
    intros fuel acc st Hle [k Hk]; (destruct fuel as [|fuel]; [lia|]);
    cbn [history_pages];
    rewrite (bind_step _ _ _ _ _ (count_query_spec _ _ _ Hk));
    rewrite (bind_step _ _ _ _ _
               (gql_answered resp _ "loc_repo_scan" _ d Hresp Hmax Hacc));
    unfold repository_defaultBranchRef; rewrite Hd; unfold bind at 1; cbn [ret].
  - eexists. cbn [forallb]. now rewrite tallied_nil.
  - rewrite He. unfold getitem at 1. unfold bind at 1. cbn [ret].
    unfold bind at 1. rewrite tally_edges_spec.
    destruct (forallb has_author es); [|now eexists].
    rewrite Hp. unfold getitem, bind, ret. rewrite Hn. cbn [negb].
    eexists. reflexivity.
  - rewrite He. unfold getitem at 1. unfold bind at 1. cbn [ret].
    unfold bind at 1. rewrite tally_edges_spec. rewrite forallb_app.
    destruct (forallb has_author es); [|now eexists]. cbn [andb].
    rewrite Hp. unfold getitem. unfold bind at 1. cbn [ret].
    rewrite Hn. cbn [negb].
    rewrite tallied_app. apply IH; [lia|].
    rewrite after_post_counters. unfold counted. cbn [QUERY_COUNT].
    rewrite lookup_insert_eq. eauto.
Qed.

(** The scan of a repository whose probe reports commits and whose
    history is served in pages. *)
Lemma scan_repo_history_served resp fuel owner repo st d total n cs :
  answers resp -> 1 <= MAX_RETRIES ->
  is_Some (QUERY_COUNT st !! "loc_repo_scan") ->
  accepted (resp (QCommitTotal owner repo)) = Some d ->
  probe_value d = Ok total -> total <> 0 ->
  served_history resp owner repo n None cs -> (n <= fuel)%nat ->
  exists st',
    scan_repo_history fuel owner repo st
    = (if forallb has_author cs
       then Ok (total,
                Z.of_nat (length (List.filter by_user cs)),
                sum_of additions (List.filter by_user cs),
                sum_of deletions (List.filter by_user cs))
       else Raise TypeError, st').
Proof.
  intros Hresp Hmax [k Hk] Hacc Hp Ht Hs Hle.
  unfold scan_repo_history.
  assert (Hprobe : get_repo_commit_total owner repo st
                   = (Ok total, after_post (QCommitTotal owner repo)
                                  (counted "loc_repo_scan" st))).
  { rewrite (get_repo_commit_total_eq _ _ _ _ Hk). cbn zeta.
    rewrite (gql_answered resp _ "loc_repo_scan" _ d Hresp Hmax Hacc).
    cbn [fst snd]. now rewrite Hp. }
  rewrite (bind_step _ _ _ _ _ Hprobe).
  assert (Hz : (total =? 0) = false) by lia. rewrite Hz.
  destruct (history_pages_served resp owner repo Hresp Hmax n None cs Hs fuel (0, 0, 0)
              (after_post (QCommitTotal owner repo) (counted "loc_repo_scan" st)) Hle)
    as [st' Hh].
  { rewrite after_post_counters. unfold counted. cbn [QUERY_COUNT].
    rewrite lookup_insert_eq. eauto. }
  unfold bind. rewrite Hh.
  destruct (forallb has_author cs); [|now exists st'].
  unfold tallied. cbn [ret]. rewrite !Z.add_0_l. now exists st'.
Qed.


(** ** One repository of the aggregation loop *)

Lemma no_history_post_app tr1 tr2 :
  no_history_post tr1 -> no_history_post tr2 -> no_history_post (tr1 ++ tr2).
Proof. unfold no_history_post. rewrite forallb_app. now intros -> ->. Qed.

Lemma no_history_post_probe owner repo : forall outs attempt,
  no_history_post (backoff_schedule (QCommitTotal owner repo) attempt outs).
Proof.
  induction outs as [|r0 outs IH]; intros attempt; [reflexivity|].
  destruct outs as [|r1 outs]; [reflexivity|].
  rewrite backoff_schedule_cons by discriminate.
  unfold no_history_post in *. cbn [forallb is_history_post negb andb]. apply IH.
Qed.

Lemma get_repo_commit_total_trace owner repo st total st' :
  get_repo_commit_total owner repo st = (Ok total, st') ->
  exists tr, trace st' = trace st ++ tr /\ no_history_post tr.
Proof.
  intros H.
  apply get_repo_commit_total_Ok in H as (outs & res & d & Htr & _).
  eexists. split; [exact Htr | apply no_history_post_probe].
Qed.

Lemma probe_finds_no_ref_total owner repo st st' :
  probe_finds_no_ref owner repo st st' ->
  get_repo_commit_total owner repo st = (Ok 0, st').
Proof.
  intros [[n Hn] (d & Hg & Hd)].
  rewrite (get_repo_commit_total_eq _ _ _ _ Hn). cbn zeta. rewrite Hg. cbn [fst snd].
  unfold probe_value. now rewrite Hd.
Qed.

(** The iteration for an entry whose fingerprint is the expected one,
    once the probe has returned. *)
Lemma heavy_entry_probed fuel repos repo_lines i full line h pt pm pa pd
    owner repo st total st1 :
  repo_lines !! i = Some line ->
  Py.split line = [h; pt; pm; pa; pd] ->
  h = hexdigest (sha256 full) ->
  Py.split_on "/" full = [owner; repo] ->
  get_repo_commit_total owner repo st = (Ok total, st1) ->
  heavy_entry fuel repos repo_lines i full st =
    (let* cached_total := int_of pt in
     let* (my_commits, add_loc, del_loc) :=
       (if total =? cached_total then
          let* my_commits := int_of pm in
          let* add_loc := int_of pa in
          let* del_loc := int_of pd in
          ret (my_commits, add_loc, del_loc)
        else
          let* (_, my_commits, add_loc, del_loc) := scan_repo_history fuel owner repo in
          ret (my_commits, add_loc, del_loc)) in
     ret (Entry (entry_line h total my_commits add_loc del_loc)
                my_commits add_loc del_loc)) st1.
Proof.
  intros Hline Hsplit -> Hfull Hprobe.
  unfold heavy_entry. rewrite Hline. unfold bind at 1. cbn [ret].
  rewrite Hsplit, Hfull. rewrite String.eqb_refl. cbn [negb].
  unfold bind at 1. rewrite Hprobe. reflexivity.
Qed.

(** The iteration for an entry whose fingerprint and total are current. *)
Lemma heavy_entry_cache_valid fuel repos repo_lines i full line h pt pm pa pd
    owner repo st total my adds dels st1 :
  repo_lines !! i = Some line ->
  Py.split line = [h; pt; pm; pa; pd] ->
  h = hexdigest (sha256 full) ->
  Py.split_on "/" full = [owner; repo] ->
  get_repo_commit_total owner repo st = (Ok total, st1) ->
  Py.int pt = Some total ->
  Py.int pm = Some my -> Py.int pa = Some adds -> Py.int pd = Some dels ->
  heavy_entry fuel repos repo_lines i full st
  = (Ok (Entry (entry_line h total my adds dels) my adds dels), st1).
Proof.
  intros Hline Hsplit Hh Hfull Hprobe Ht Hm Ha Hd.
  rewrite (heavy_entry_probed _ _ _ _ _ _ _ _ _ _ _ _ _ _ _ _
             Hline Hsplit Hh Hfull Hprobe).
  unfold int_of, bind, ret. rewrite Ht, Z.eqb_refl, Hm, Ha, Hd. reflexivity.
Qed.

(** After an iteration that ends with an entry, the loop goes on with
    the line appended and the three numbers added to the totals. *)
Lemma heavy_loop_step fuel repos repo_lines i full todo updated tm ta td st
    line my adds dels st1 :
  heavy_entry fuel repos repo_lines i full st = (Ok (Entry line my adds dels), st1) ->
  heavy_loop fuel repos repo_lines i (full :: todo) updated (tm, ta, td) st
  = heavy_loop fuel repos repo_lines (S i) todo (updated ++ [line])
      (tm + my, ta + adds, td + dels) st1.
Proof. intros He. cbn [heavy_loop]. now rewrite (bind_step _ _ _ _ _ He). Qed.

(** ** Every function acts through the primitive effects *)

Lemma runs_ret {A} (a : A) : runs (ret a).
Proof. intros st. apply rtc_refl. Qed.

Lemma runs_raise {A} e : runs (@raise A e).
Proof. intros st. apply rtc_refl. Qed.

Lemma runs_hang {A} : runs (@hang A).
Proof. intros st. apply rtc_refl. Qed.

Lemma runs_bind {A B} (c : M A) (k : A -> M B) :
  runs c -> (forall a, runs (k a)) -> runs (bind c k).
Proof.
  intros Hc Hk st. unfold bind. specialize (Hc st).
  destruct (c st) as [[a|e|] st1]; cbn [snd] in *; [|exact Hc..].
  eapply rtc_trans; [exact Hc | apply Hk].
Qed.

Lemma runs_requests_post query : runs (requests_post query).
Proof. intros st. apply rtc_once. apply eff_post. Qed.

Lemma runs_sleep_backoff attempt : runs (sleep_backoff attempt).
Proof.
  intros st. rewrite sleep_backoff_spec.
  destruct (backoff_delay attempt); [apply rtc_refl|].
  apply rtc_once. apply eff_sleep.
Qed.

Lemma runs_try {A} (c : M A) : runs c -> runs (try_ c).
Proof.
  intros Hc st. specialize (Hc st). unfold try_.
  destruct (c st) as [[a|e|] st1]; exact Hc.
Qed.

Lemma runs_try_sleep attempt : runs (try_ (sleep_backoff attempt)).
Proof. apply runs_try, runs_sleep_backoff. Qed.

Lemma runs_count_query name : runs (count_query name).
Proof.
  intros st. destruct (QUERY_COUNT st !! name) as [n|] eqn:Hn.
  - rewrite (count_query_spec _ _ _ Hn). apply rtc_once. apply eff_count. now exists n.
  - unfold count_query. rewrite Hn. apply rtc_refl.
Qed.

Lemma runs_getitem {A} key (o : option A) : runs (getitem key o).
Proof. destruct o; [apply runs_ret | apply runs_raise]. Qed.

Lemma runs_int_of s : runs (int_of s).
Proof. unfold int_of. destruct (Py.int s); [apply runs_ret | apply runs_raise]. Qed.

Lemma runs_read_cache : runs read_cache.
Proof. intros st. unfold read_cache. destruct (CACHE_FILE st); apply rtc_refl. Qed.

Lemma runs_write_cache lines : runs (write_cache lines).
Proof. intros st. apply rtc_once. apply eff_cache. Qed.

Lemma runs_append_cache lines : runs (append_cache lines).
Proof. intros st. apply rtc_once. apply eff_cache. Qed.

Lemma runs_path_exists : runs path_exists.
Proof. intros st. apply rtc_refl. Qed.

Lemma runs_utcnow : runs utcnow.
Proof. intros st. apply rtc_once. apply eff_clock. Qed.

Lemma runs_get_guard : runs get_guard.
Proof. intros st. apply rtc_refl. Qed.

Create HintDb runs discriminated.

#[local] Hint Resolve runs_ret runs_raise runs_hang runs_requests_post
  runs_sleep_backoff runs_try_sleep runs_count_query runs_getitem runs_int_of runs_read_cache
  runs_write_cache runs_append_cache runs_path_exists runs_utcnow
  runs_get_guard : runs.

Ltac runs_step :=
  first
    [ solve [auto 1 with runs nocore]
    | apply runs_bind; [|intros ?]
    | match goal with
      | |- runs (match ?x with _ => _ end) => destruct x
      | |- runs (if ?b then _ else _) => destruct b
      end ].

Ltac runs_auto := repeat runs_step.

Lemma runs_gql_attempts query tag attempts :
  forall last_exc, runs (gql_attempts query tag attempts last_exc).
Proof.
  induction attempts as [|attempt rest IH]; intros last_exc; cbn [gql_attempts].
  - destruct last_exc; apply runs_raise.
  - cbn zeta. runs_auto; apply IH.
Qed.

Lemma runs_gql query tag : runs (gql query tag).
Proof. apply runs_gql_attempts. Qed.

Lemma runs_user_repositories d : runs (user_repositories d).
Proof. unfold user_repositories. runs_auto. Qed.

Lemma runs_repository_defaultBranchRef d : runs (repository_defaultBranchRef d).
Proof. unfold repository_defaultBranchRef. runs_auto. Qed.

#[local] Hint Resolve runs_gql runs_user_repositories
  runs_repository_defaultBranchRef : runs.

Lemma runs_append_names es : forall names, runs (append_names es names).
Proof. induction es as [|e es IH]; intros names; cbn [append_names]; runs_auto. Qed.

#[local] Hint Resolve runs_append_names : runs.

Lemma runs_list_pages fuel : forall login after names,
  runs (list_pages fuel login after names).
Proof.
  induction fuel as [|fuel IH]; intros login after names; cbn [list_pages];
    runs_auto.
Qed.

Lemma runs_collect_repo_full_names fuel login :
  runs (collect_repo_full_names fuel login).
Proof. apply runs_list_pages. Qed.

Lemma runs_get_repo_commit_total owner repo : runs (get_repo_commit_total owner repo).
Proof. unfold get_repo_commit_total. runs_auto. Qed.

#[local] Hint Resolve runs_collect_repo_full_names runs_get_repo_commit_total : runs.

Lemma runs_tally_edges es acc : runs (tally_edges es acc).
Proof. intros st. rewrite tally_edges_spec. apply rtc_refl. Qed.

#[local] Hint Resolve runs_tally_edges : runs.

Lemma runs_history_pages fuel : forall owner repo after acc,
  runs (history_pages fuel owner repo after acc).
Proof.
  induction fuel as [|fuel IH]; intros owner repo after acc; cbn [history_pages];
    runs_auto.
Qed.

#[local] Hint Resolve runs_history_pages : runs.

Lemma runs_scan_repo_history fuel owner repo : runs (scan_repo_history fuel owner repo).
Proof. unfold scan_repo_history. runs_auto. Qed.

Lemma runs_write_cache_header : runs write_cache_header.
Proof. unfold write_cache_header. runs_auto. Qed.

#[local] Hint Resolve runs_scan_repo_history runs_write_cache_header : runs.

Lemma runs_init_cache_if_needed repos : runs (init_cache_if_needed repos).
Proof. unfold init_cache_if_needed. runs_auto. Qed.

#[local] Hint Resolve runs_init_cache_if_needed : runs.

Lemma runs_bump_guard repos :
  runs (let* guard := get_guard in
        if 1 <? guard then
          raise (RuntimeError "Cache hash mismatch recursion guard triggered")
        else set_guard (guard + 1) ;; init_cache_if_needed repos ;; ret Restart).
Proof.
  intros st. unfold bind at 1. unfold get_guard.
  destruct (1 <? RECURSION_GUARD st) eqn:Hg; [apply rtc_refl|].
  unfold bind at 1. cbn [set_guard].
  eapply rtc_l; [apply eff_guard; lia|].
  apply (runs_bind (init_cache_if_needed repos) (fun _ => ret Restart));
    [apply runs_init_cache_if_needed | intros; apply runs_ret].
Qed.

Lemma runs_heavy_entry fuel repos repo_lines i full :
  runs (heavy_entry fuel repos repo_lines i full).
Proof.
  unfold heavy_entry.
  apply runs_bind; [destruct (repo_lines !! i); runs_auto|]. intros line.
  destruct (Py.split line) as [|h [|pt [|pm [|pa [|pd [|]]]]]]; try apply runs_raise.
  destruct (Py.split_on "/" full) as [|owner [|repo [|]]]; try apply runs_raise.
  destruct (negb _); [apply runs_bump_guard|].
  runs_auto.
Qed.

#[local] Hint Resolve runs_heavy_entry : runs.

Lemma runs_heavy_loop fuel repos repo_lines todo : forall i updated totals,
  runs (heavy_loop fuel repos repo_lines i todo updated totals).
Proof.
  induction todo as [|full todo IH]; intros i updated totals; cbn [heavy_loop];
    [apply runs_ret|].
  apply runs_bind; [apply runs_heavy_entry|]. intros [|line my adds dels];
    [apply runs_ret|].
  destruct totals as [[tm ta] td]. apply IH.
Qed.

#[local] Hint Resolve runs_heavy_loop : runs.

Lemma runs_heavy_stats fuel : forall login, runs (heavy_stats fuel login).
Proof.
  induction fuel as [|fuel IH]; intros login; cbn [heavy_stats]; runs_auto.
Qed.

(** ** What effects preserve *)

Lemma effect_trace st st' : effect st st' -> exists tr, trace st' = trace st ++ tr.
Proof.
  intros [q st0|s st0|name st0 Hk|l st0|st0|st0 Hg].
  - unfold after_post, requests_post. destruct (post q (world st0)). cbn.
    eexists; reflexivity.
  - cbn. eexists; reflexivity.
  - exists []. now rewrite app_nil_r.
  - exists []. now rewrite app_nil_r.
  - exists []. rewrite app_nil_r. unfold utcnow.
    now destruct (utcnow_isoformat (world st0)).
  - exists []. now rewrite app_nil_r.
Qed.

Lemma effects_trace st st' : effects st st' -> exists tr, trace st' = trace st ++ tr.
Proof.
  induction 1 as [st|st st1 st2 H _ (tr2 & IH)].
  - exists []. now rewrite app_nil_r.
  - destruct (effect_trace _ _ H) as (tr1 & E). exists (tr1 ++ tr2).
    rewrite IH, E. now rewrite app_assoc.
Qed.

Lemma effect_counters st st' name :
  effect st st' -> is_Some (QUERY_COUNT st !! name) -> is_Some (QUERY_COUNT st' !! name).
Proof.
  intros [q st0|s st0|name0 st0 Hk|l st0|st0|st0 Hg]; try (cbn; intros Hs; exact Hs).
  - unfold after_post, requests_post. destruct (post q (world st0)). cbn.
    intros Hs; exact Hs.
  - intros Hn. cbn [counted QUERY_COUNT].
    destruct (decide (name0 = name)) as [->|Hne].
    + rewrite lookup_insert_eq. eauto.
    + now rewrite lookup_insert_ne.
  - unfold utcnow. destruct (utcnow_isoformat (world st0)). cbn.
    intros Hs; exact Hs.
Qed.

Lemma effects_counters st st' name :
  effects st st' -> is_Some (QUERY_COUNT st !! name) -> is_Some (QUERY_COUNT st' !! name).
Proof. induction 1; eauto using effect_counters. Qed.

Lemma effect_guard st st' :
  effect st st' ->
  RECURSION_GUARD st <= RECURSION_GUARD st'
  /\ RECURSION_GUARD st' <= Z.max (RECURSION_GUARD st) 2.
Proof.
  intros [q st0|s st0|name0 st0 Hk|l st0|st0|st0 Hg]; try (cbn; lia).
  - unfold after_post, requests_post. destruct (post q (world st0)). cbn. lia.
  - unfold utcnow. destruct (utcnow_isoformat (world st0)). cbn. lia.
Qed.

Lemma effects_guard st st' :
  effects st st' ->
  RECURSION_GUARD st <= RECURSION_GUARD st'
  /\ RECURSION_GUARD st' <= Z.max (RECURSION_GUARD st) 2.
Proof.
  induction 1 as [st|st st1 st2 H _ IH]; [lia|].
  apply effect_guard in H. lia.
Qed.

(** ** The cache file *)

Lemma rebuild_spec repos st :
  exists hdr,
    length hdr = CACHE_COMMENT_LINES
    /\ (write_cache_header ;; append_cache (map zeroed_entry repos)) st
       = (Ok tt, set_cache (Some (hdr ++ map zeroed_entry repos)) (snd (utcnow st))).
Proof.
  unfold write_cache_header, bind, utcnow.
  destruct (utcnow_isoformat (world st)) as [now w']. cbn.
  eexists. split; [|reflexivity]. reflexivity.
Qed.

Lemma init_cache_rebuilds repos st :
  rebuild_needed repos st ->
  exists hdr,
    length hdr = CACHE_COMMENT_LINES
    /\ init_cache_if_needed repos st
       = (Ok tt, set_cache (Some (hdr ++ map zeroed_entry repos)) (snd (utcnow st))).
Proof.
  intros Hneed. destruct (rebuild_spec repos st) as (hdr & Hlen & Hre).
  exists hdr. split; [exact Hlen|].
  unfold init_cache_if_needed. unfold bind at 1. unfold path_exists.
  destruct FORCE_CACHE eqn:Hf; [exact Hre|]. cbn [orb].
  destruct Hneed as [Hforce | [Hnone | (lines & Hsome & Hlines)]].
  - congruence.
  - rewrite Hnone. rewrite bool_decide_eq_false_2 by (intros [? ?]; discriminate).
    exact Hre.
  - rewrite Hsome. rewrite bool_decide_eq_true_2 by eauto. cbn [negb].
    unfold bind at 1. unfold read_cache. rewrite Hsome.
    apply Nat.eqb_neq in Hlines. rewrite Hlines. exact Hre.
Qed.

Lemma init_cache_keeps repos st lines :
  FORCE_CACHE = false ->
  CACHE_FILE st = Some lines ->
  length (drop CACHE_COMMENT_LINES lines) = length repos ->
  init_cache_if_needed repos st = (Ok tt, st).
Proof.
  intros Hf Hsome Hlen.
  unfold init_cache_if_needed. unfold bind at 1. unfold path_exists.
  rewrite Hf, Hsome. rewrite bool_decide_eq_true_2 by eauto. cbn [negb orb].
  unfold bind at 1. unfold read_cache. rewrite Hsome.
  apply Nat.eqb_eq in Hlen. rewrite Hlen. reflexivity.
Qed.

Lemma drop_header {A} (hdr rest : list A) :
  length hdr = CACHE_COMMENT_LINES -> drop CACHE_COMMENT_LINES (hdr ++ rest) = rest.
Proof. intros <-. apply drop_app_length. Qed.

Lemma take_header {A} (hdr rest : list A) :
  length hdr = CACHE_COMMENT_LINES -> take CACHE_COMMENT_LINES (hdr ++ rest) = hdr.
Proof. intros <-. apply take_app_length. Qed.

Lemma rebuilt_frame lines st :
  RECURSION_GUARD (set_cache lines (snd (utcnow st))) = RECURSION_GUARD st
  /\ trace (set_cache lines (snd (utcnow st))) = trace st
  /\ QUERY_COUNT (set_cache lines (snd (utcnow st))) = QUERY_COUNT st.
Proof. unfold utcnow. now destruct (utcnow_isoformat (world st)). Qed.

(** After [init_cache_if_needed] the file exists and has one entry per
    listed repository; the guard, the trace and the counters are as
    before. *)
Lemma init_cache_post repos st :
  exists st' lines,
    init_cache_if_needed repos st = (Ok tt, st')
    /\ CACHE_FILE st' = Some lines
    /\ length (drop CACHE_COMMENT_LINES lines) = length repos
    /\ RECURSION_GUARD st' = RECURSION_GUARD st
    /\ trace st' = trace st
    /\ QUERY_COUNT st' = QUERY_COUNT st.
Proof.
  assert (Hre : rebuild_needed repos st ->
            exists st' lines,
              init_cache_if_needed repos st = (Ok tt, st')
              /\ CACHE_FILE st' = Some lines
              /\ length (drop CACHE_COMMENT_LINES lines) = length repos
              /\ RECURSION_GUARD st' = RECURSION_GUARD st
              /\ trace st' = trace st
              /\ QUERY_COUNT st' = QUERY_COUNT st).
  { intros Hneed. destruct (init_cache_rebuilds repos st Hneed) as (hdr & Hh & ->).
    eexists _, _. split; [reflexivity|]. split; [reflexivity|].
    split; [rewrite drop_header by exact Hh; apply length_map|].
    apply rebuilt_frame. }
  destruct (CACHE_FILE st) as [lines|] eqn:Hc; [|apply Hre; right; now left].
  destruct (decide (length (drop CACHE_COMMENT_LINES lines) = length repos)) as [Hl|Hl];
    [|apply Hre; right; right; now exists lines].
  destruct FORCE_CACHE eqn:Hf; [apply Hre; now left|].
  exists st, lines. split; [now apply (init_cache_keeps repos st lines)|].
  now repeat split.
Qed.

Lemma split_zeroed_entry full :
  Py.split (zeroed_entry full) = [hexdigest (sha256 full); "0"; "0"; "0"; "0"].
Proof.
  rewrite zeroed_entry_line. rewrite split_entry_line by apply hexdigest_is_token.
  reflexivity.
Qed.

(** ** The aggregation pass *)

(** A pass, once the listing is in and the cache initialised. *)
Lemma heavy_stats_pass fuel login st repos st1 st2 lines :
  collect_repo_full_names fuel login st = (Ok repos, st1) ->
  init_cache_if_needed repos st1 = (Ok tt, st2) ->
  CACHE_FILE st2 = Some lines ->
  length (drop CACHE_COMMENT_LINES lines) = length repos ->
  heavy_stats (S fuel) login st = aggregate fuel login repos lines st2.
Proof.
  intros Hl Hi Hc Hlen. cbn [heavy_stats].
  rewrite (bind_step _ _ _ _ _ Hl). rewrite (bind_step _ _ _ _ _ Hi).
  unfold bind at 1. unfold read_cache. rewrite Hc.
  apply Nat.eqb_eq in Hlen. rewrite Hlen. cbn [negb].
  unfold bind at 1. cbn [ret]. reflexivity.
Qed.

Lemma heavy_loop_Some fuel repos repo_lines todo :
  forall i updated tm ta td st updated' tm' ta' td' st',
  heavy_loop fuel repos repo_lines i todo updated (tm, ta, td) st
  = (Ok (Some (updated', (tm', ta', td'))), st') ->
  exists its,
    iterations fuel repos repo_lines i todo its st st'
    /\ updated' = updated ++ map fst its
    /\ tm' = tm + sumZ (map my_of its)
    /\ ta' = ta + sumZ (map adds_of its)
    /\ td' = td + sumZ (map dels_of its).
Proof.
  induction todo as [|full todo IH]; intros i updated tm ta td st updated' tm' ta' td' st' H.
  - cbn in H. injection H as <- <- <- <- <-. exists [].
    split; [constructor|]. cbn. rewrite app_nil_r. repeat split; lia.
  - cbn [heavy_loop] in H.
    apply bind_Ok in H as ([|line my adds dels] & st1 & He & H); [discriminate|].
    apply IH in H as (its & Hits & -> & -> & -> & ->).
    exists ((line, (my, adds, dels)) :: its). split; [econstructor; eassumption|].
    cbn [map fst sumZ fold_right my_of adds_of dels_of snd].
    rewrite <- app_assoc. repeat split; unfold sumZ; lia.
Qed.

Lemma iterations_length fuel repos repo_lines i todo its st st' :
  iterations fuel repos repo_lines i todo its st st' -> length its = length todo.
Proof. induction 1; cbn; congruence. Qed.

(** A run that returns: the pass that produced the result. *)
Lemma heavy_stats_Ok : forall fuel login st r st',
  heavy_stats fuel login st = (Ok r, st') ->
  exists fuel0 s0 repos s1 s2 lines its s3,
    (fuel0 < fuel)%nat
    /\ effects st s0
    /\ collect_repo_full_names fuel0 login s0 = (Ok repos, s1)
    /\ init_cache_if_needed repos s1 = (Ok tt, s2)
    /\ CACHE_FILE s2 = Some lines
    /\ length (drop CACHE_COMMENT_LINES lines) = length repos
    /\ iterations fuel0 repos (drop CACHE_COMMENT_LINES lines) 0 repos its s2 s3
    /\ st' = set_cache (Some (take CACHE_COMMENT_LINES lines ++ map fst its)) s3
    /\ r = (sumZ (map my_of its), sumZ (map adds_of its), sumZ (map dels_of its),
            sumZ (map adds_of its) - sumZ (map dels_of its)).
Proof.
  induction fuel as [|fuel IH]; intros login st r st' H; [discriminate|].
  pose proof H as H0. cbn [heavy_stats] in H.
  apply bind_Ok in H as (repos & s1 & Hl & _).
  destruct (init_cache_post repos s1) as (s2 & lines & Hi & Hc & Hlen & _).
  rewrite (heavy_stats_pass _ _ _ _ _ _ _ Hl Hi Hc Hlen) in H0.
  unfold aggregate in H0.
  apply bind_Ok in H0 as ([[updated [[tm ta] td]]|] & s3 & Hloop & H).
  - apply heavy_loop_Some in Hloop as (its & Hits & -> & -> & -> & ->).
    cbn in H. injection H as <- <-.
    exists fuel, st, repos, s1, s2, lines, its, s3.
    split; [lia|]. split; [apply rtc_refl|]. repeat (split; [assumption|]).
    split; [reflexivity|]. now rewrite !Z.add_0_l.
  - apply IH in H as (fuel0 & s0 & repos' & s1' & s2' & lines' & its & s3' & Hf & He & Hrest).
    exists fuel0, s0, repos', s1', s2', lines', its, s3'.
    split; [lia|]. split; [|exact Hrest].
    eapply rtc_trans; [|exact He].
    eapply rtc_trans; [apply (runs_collect_repo_full_names fuel login st)|].
    rewrite Hl. cbn [snd].
    eapply rtc_trans; [apply (runs_init_cache_if_needed repos s1)|].
    rewrite Hi. cbn [snd].
    pose proof (runs_heavy_loop fuel repos (drop CACHE_COMMENT_LINES lines) repos
                  0%nat [] (0, 0, 0) s2) as Hr.
    rewrite Hloop in Hr. exact Hr.
Qed.

Lemma iterations_effects fuel repos repo_lines i todo its st st' :
  iterations fuel repos repo_lines i todo its st st' -> effects st st'.
Proof.
  induction 1 as [|i full todo line my adds dels its st st1 st' He _ IH];
    [apply rtc_refl|].
  eapply rtc_trans; [|exact IH].
  pose proof (runs_heavy_entry fuel repos repo_lines i full st) as Hr.
  now rewrite He in Hr.
Qed.

Lemma entries_after_rewrite (lines updated repos : list string) :
  length (drop CACHE_COMMENT_LINES lines) = length repos ->
  length updated = length repos ->
  length (drop CACHE_COMMENT_LINES (take CACHE_COMMENT_LINES lines ++ updated))
  = length repos.
Proof.
  rewrite !length_drop, length_app, length_take. unfold CACHE_COMMENT_LINES. lia.
Qed.


(** ** An entry within a pass *)

Lemma iterations_loop fuel repos repo_lines todo its i st st' :
  iterations fuel repos repo_lines i todo its st st' ->
  forall rest updated tm ta td,
    heavy_loop fuel repos repo_lines i (todo ++ rest) updated (tm, ta, td) st
    = heavy_loop fuel repos repo_lines (i + length todo) rest (updated ++ map fst its)
        (tm + sumZ (map my_of its), ta + sumZ (map adds_of its),
         td + sumZ (map dels_of its)) st'.
Proof.
  induction 1 as [i st|i full todo line my adds dels its st st1 st' He _ IH];
    intros rest updated tm ta td.
  - cbn [app length map sumZ fold_right]. rewrite Nat.add_0_r, app_nil_r, !Z.add_0_r.
    reflexivity.
  - cbn [app]. rewrite (heavy_loop_step _ _ _ _ _ _ _ _ _ _ _ _ _ _ _ _ He).
    rewrite IH. cbn [length map fst sumZ fold_right my_of adds_of dels_of snd].
    rewrite <- app_assoc. cbn [app].
    replace (S i + length todo)%nat with (i + S (length todo))%nat by lia.
    unfold sumZ. rewrite !Z.add_assoc. reflexivity.
Qed.

Lemma init_cache_lines repos s1 s2 lines :
  init_cache_if_needed repos s1 = (Ok tt, s2) ->
  CACHE_FILE s2 = Some lines ->
  length (drop CACHE_COMMENT_LINES lines) = length repos.
Proof.
  intros Hi Hc.
  destruct (init_cache_post repos s1) as (s2' & lines' & Hi' & Hc' & Hlen & _).
  rewrite Hi in Hi'. injection Hi' as <-. rewrite Hc in Hc'. now injection Hc' as <-.
Qed.

(** A pass that is at some index goes on from there: the loop over the
    remaining repositories, then a new pass or the rewrite of the
    cache. *)
Lemma pass_at_loop fuel login st lines pre rest its st' :
  pass_at fuel login st (pre ++ rest) lines pre its st' ->
  heavy_stats (S fuel) login st
  = (let* r := heavy_loop fuel (pre ++ rest) (drop CACHE_COMMENT_LINES lines)
                 (length pre) rest (map fst its)
                 (sumZ (map my_of its), sumZ (map adds_of its), sumZ (map dels_of its)) in
     match r with
     | None => heavy_stats fuel login
     | Some (updated_lines, (total_my_commits, total_add, total_del)) =>
         write_cache (take CACHE_COMMENT_LINES lines ++ updated_lines) ;;
         ret (total_my_commits, total_add, total_del, total_add - total_del)
     end) st'.
Proof.
  intros (s1 & s2 & Hl & Hi & Hc & Hits).
  rewrite (heavy_stats_pass _ _ _ _ _ _ _ Hl Hi Hc (init_cache_lines _ _ _ _ Hi Hc)).
  unfold aggregate. unfold bind at 1.
  rewrite (iterations_loop _ _ _ _ _ _ _ _ Hits rest [] 0 0 0).
  cbn [app Nat.add]. rewrite !Z.add_0_l. reflexivity.
Qed.

(** The pass returns when the entry at the index and the entries after
    it are done: the sums are taken over all entries, and the cache is
    rewritten with the header it had and the lines of all entries. *)
Lemma pass_at_returns fuel login st lines pre full todo its st3
    line my adds dels st4 its' st5 :
  pass_at fuel login st (pre ++ full :: todo) lines pre its st3 ->
  heavy_entry fuel (pre ++ full :: todo) (drop CACHE_COMMENT_LINES lines)
    (length pre) full st3 = (Ok (Entry line my adds dels), st4) ->
  iterations fuel (pre ++ full :: todo) (drop CACHE_COMMENT_LINES lines)
    (S (length pre)) todo its' st4 st5 ->
  heavy_stats (S fuel) login st
  = (Ok (sumZ (map my_of its) + my + sumZ (map my_of its'),
         sumZ (map adds_of its) + adds + sumZ (map adds_of its'),
         sumZ (map dels_of its) + dels + sumZ (map dels_of its'),
         sumZ (map adds_of its) + adds + sumZ (map adds_of its')
         - (sumZ (map dels_of its) + dels + sumZ (map dels_of its'))),
     set_cache (Some (take CACHE_COMMENT_LINES lines
                      ++ map fst its ++ line :: map fst its')) st5).
Proof.
  intros Hpass He Hits'. rewrite (pass_at_loop _ _ _ _ _ _ _ _ Hpass).
  unfold bind at 1.
  rewrite (heavy_loop_step _ _ _ _ _ _ _ _ _ _ _ _ _ _ _ _ He).
  pose proof (iterations_loop _ _ _ _ _ _ _ _ Hits' [] (map fst its ++ [line])
                (sumZ (map my_of its) + my) (sumZ (map adds_of its) + adds)
                (sumZ (map dels_of its) + dels)) as Hloop.
  rewrite app_nil_r in Hloop. rewrite Hloop. cbn [heavy_loop ret].
  unfold bind, write_cache, ret. rewrite <- app_assoc. reflexivity.
Qed.

Lemma pass_at_restarts fuel login st lines pre full todo its st3 st4 :
  pass_at fuel login st (pre ++ full :: todo) lines pre its st3 ->
  heavy_entry fuel (pre ++ full :: todo) (drop CACHE_COMMENT_LINES lines)
    (length pre) full st3 = (Ok Restart, st4) ->
  heavy_stats (S fuel) login st = heavy_stats fuel login st4.
Proof.
  intros Hpass He. rewrite (pass_at_loop _ _ _ _ _ _ _ _ Hpass).
  unfold bind at 1. cbn [heavy_loop]. now rewrite (bind_step _ _ _ _ _ He).
Qed.

Lemma pass_at_raises fuel login st lines pre full todo its st3 e st4 :
  pass_at fuel login st (pre ++ full :: todo) lines pre its st3 ->
  heavy_entry fuel (pre ++ full :: todo) (drop CACHE_COMMENT_LINES lines)
    (length pre) full st3 = (Raise e, st4) ->
  heavy_stats (S fuel) login st = (Raise e, st4).
Proof.
  intros Hpass He. rewrite (pass_at_loop _ _ _ _ _ _ _ _ Hpass).
  unfold bind at 1. cbn [heavy_loop]. now rewrite (bind_Raise _ _ _ _ _ He).
Qed.

Lemma entry_fields_entry_line h t m a d :
  is_token h = true ->
  entry_fields (entry_line h t m a d) = Some (CacheEntry h t m a d).
Proof.
  intros Hh. unfold entry_fields. rewrite (split_entry_line _ _ _ _ _ Hh).
  now rewrite !int_str.
Qed.

(** C2.  Take a pass of [heavy_stats] that has come to an entry whose
    fingerprint is the expected one and whose stored total equals the
    total the probe returns.  The iteration ends in the state the probe
    left: it sends no request of its own and none that pages through the
    history.  When the remaining entries are done, [heavy_stats]
    returns sums to which the entry has added the stored triple, and the
    cache it has rewritten holds, at the place of the entry, a line that
    reads back as the expected fingerprint, that total and the same
    triple. *)
Theorem cache_valid_entry_is_reused fuel login st lines pre full todo its st3
    line h pt pm pa pd owner repo total my adds dels st4 its' st5 :
  pass_at fuel login st (pre ++ full :: todo) lines pre its st3 ->
  drop CACHE_COMMENT_LINES lines !! length pre = Some line ->
  Py.split line = [h; pt; pm; pa; pd] ->
  h = hexdigest (sha256 full) ->
  Py.split_on "/" full = [owner; repo] ->
  get_repo_commit_total owner repo st3 = (Ok total, st4) ->
  Py.int pt = Some total ->
  Py.int pm = Some my -> Py.int pa = Some adds -> Py.int pd = Some dels ->
  iterations fuel (pre ++ full :: todo) (drop CACHE_COMMENT_LINES lines)
    (S (length pre)) todo its' st4 st5 ->
  heavy_entry fuel (pre ++ full :: todo) (drop CACHE_COMMENT_LINES lines)
    (length pre) full st3
  = (Ok (Entry (entry_line h total my adds dels) my adds dels), st4)
  /\ (exists tr, trace st4 = trace st3 ++ tr /\ no_history_post tr)
  /\ heavy_stats (S fuel) login st
     = (Ok (sumZ (map my_of its) + my + sumZ (map my_of its'),
            sumZ (map adds_of its) + adds + sumZ (map adds_of its'),
            sumZ (map dels_of its) + dels + sumZ (map dels_of its'),
            sumZ (map adds_of its) + adds + sumZ (map adds_of its')
            - (sumZ (map dels_of its) + dels + sumZ (map dels_of its'))),
        set_cache (Some (take CACHE_COMMENT_LINES lines ++ map fst its
                         ++ entry_line h total my adds dels :: map fst its')) st5)
  /\ entry_fields (entry_line h total my adds dels)
     = Some (CacheEntry h total my adds dels).
Proof.
  intros Hpass Hline Hsplit Hh Hfull Hprobe Ht Hm Ha Hd Hits'.
  pose proof (heavy_entry_cache_valid fuel (pre ++ full :: todo)
                (drop CACHE_COMMENT_LINES lines) (length pre) full line h pt pm pa pd
                owner repo st3 total my adds dels st4
                Hline Hsplit Hh Hfull Hprobe Ht Hm Ha Hd) as He.
  split; [exact He|].
  split; [apply (get_repo_commit_total_trace _ _ _ _ _ Hprobe)|]. split.
  - apply (pass_at_returns _ _ _ _ _ _ _ _ _ _ _ _ _ _ _ _ Hpass He Hits').
  - apply entry_fields_entry_line. subst h. apply hexdigest_is_token.
Qed.

(** C9 (amended).  Take a pass of [heavy_stats] that has come to an
    entry with the expected fingerprint, for a repository whose probe
    is answered with no default branch.  The probe returns 0, and
    [scan_repo_history] returns [(0, 0, 0, 0)] in the state the probe
    left, with no request that pages through the history.  When the
    stored total is not 0 the entry is rescanned: the scan, whose own
    probe again finds no default branch, requests no history page and
    yields zeros, so that [heavy_stats], once the remaining entries are
    done, returns the sums of the other entries and has rewritten the
    entry as the zeroed line of a rebuild.  When the stored total is 0
    the entry is cache-valid: no request follows the probe, and the
    stored triple is added to the sums and written back, whatever it
    is; it is the zero triple when the line is the zeroed one. *)
Theorem empty_branch_entry fuel login st lines pre full todo its st3
    line h pt pm pa pd owner repo cached_total st4 :
  pass_at fuel login st (pre ++ full :: todo) lines pre its st3 ->
  drop CACHE_COMMENT_LINES lines !! length pre = Some line ->
  Py.split line = [h; pt; pm; pa; pd] ->
  h = hexdigest (sha256 full) ->
  Py.split_on "/" full = [owner; repo] ->
  Py.int pt = Some cached_total ->
  probe_finds_no_ref owner repo st3 st4 ->
  get_repo_commit_total owner repo st3 = (Ok 0, st4)
  /\ scan_repo_history fuel owner repo st3 = (Ok (0, 0, 0, 0), st4)
  /\ (exists tr, trace st4 = trace st3 ++ tr /\ no_history_post tr)
  /\ (forall st5 its' st6,
        cached_total <> 0 ->
        probe_finds_no_ref owner repo st4 st5 ->
        iterations fuel (pre ++ full :: todo) (drop CACHE_COMMENT_LINES lines)
          (S (length pre)) todo its' st5 st6 ->
        (exists tr, trace st5 = trace st3 ++ tr /\ no_history_post tr)
        /\ heavy_stats (S fuel) login st
           = (Ok (sumZ (map my_of its) + 0 + sumZ (map my_of its'),
                  sumZ (map adds_of its) + 0 + sumZ (map adds_of its'),
                  sumZ (map dels_of its) + 0 + sumZ (map dels_of its'),
                  sumZ (map adds_of its) + 0 + sumZ (map adds_of its')
                  - (sumZ (map dels_of its) + 0 + sumZ (map dels_of its'))),
              set_cache (Some (take CACHE_COMMENT_LINES lines ++ map fst its
                               ++ zeroed_entry full :: map fst its')) st6))
  /\ (forall my adds dels its' st6,
        cached_total = 0 ->
        Py.int pm = Some my -> Py.int pa = Some adds -> Py.int pd = Some dels ->
        iterations fuel (pre ++ full :: todo) (drop CACHE_COMMENT_LINES lines)
          (S (length pre)) todo its' st4 st6 ->
        heavy_stats (S fuel) login st
        = (Ok (sumZ (map my_of its) + my + sumZ (map my_of its'),
               sumZ (map adds_of its) + adds + sumZ (map adds_of its'),
               sumZ (map dels_of its) + dels + sumZ (map dels_of its'),
               sumZ (map adds_of its) + adds + sumZ (map adds_of its')
               - (sumZ (map dels_of its) + dels + sumZ (map dels_of its'))),
           set_cache (Some (take CACHE_COMMENT_LINES lines ++ map fst its
                            ++ entry_line h 0 my adds dels :: map fst its')) st6))
  /\ (line = zeroed_entry full ->
      Py.int pt = Some 0 /\ Py.int pm = Some 0 /\ Py.int pa = Some 0 /\ Py.int pd = Some 0).
Proof.
  intros Hpass Hline Hsplit Hh Hfull Ht Hprobe.
  pose proof (probe_finds_no_ref_total _ _ _ _ Hprobe) as Hp.
  split; [exact Hp|]. split.
  { unfold scan_repo_history. rewrite (bind_step _ _ _ _ _ Hp). reflexivity. }
  split; [apply (get_repo_commit_total_trace _ _ _ _ _ Hp)|]. split; [|split].
  - intros st5 its' st6 Hne Hprobe2 Hits'.
    pose proof (probe_finds_no_ref_total _ _ _ _ Hprobe2) as Hp2.
    assert (He : heavy_entry fuel (pre ++ full :: todo) (drop CACHE_COMMENT_LINES lines)
                   (length pre) full st3
                 = (Ok (Entry (entry_line h 0 0 0 0) 0 0 0), st5)).
    { rewrite (heavy_entry_probed _ _ _ _ _ _ _ _ _ _ _ _ _ _ _ _
                 Hline Hsplit Hh Hfull Hp).
      unfold int_of. rewrite Ht. unfold bind at 1. cbn [ret].
      assert (E : (0 =? cached_total) = false) by lia. rewrite E.
      unfold scan_repo_history.
      unfold bind at 1. unfold bind at 1. unfold bind at 1.
      rewrite Hp2. reflexivity. }
    split.
    + destruct (get_repo_commit_total_trace _ _ _ _ _ Hp) as (tr1 & Htr1 & Hn1).
      destruct (get_repo_commit_total_trace _ _ _ _ _ Hp2) as (tr2 & Htr2 & Hn2).
      exists (tr1 ++ tr2). split.
      * rewrite Htr2, Htr1, <- app_assoc. reflexivity.
      * now apply no_history_post_app.
    + rewrite zeroed_entry_line, <- Hh.
      apply (pass_at_returns _ _ _ _ _ _ _ _ _ _ _ _ _ _ _ _ Hpass He Hits').
  - intros my adds dels its' st6 -> Hm Ha Hd Hits'.
    eapply pass_at_returns; [exact Hpass | | exact Hits'].
    rewrite (heavy_entry_probed _ _ _ _ _ _ _ _ _ _ _ _ _ _ _ _
               Hline Hsplit Hh Hfull Hp).
    unfold int_of, bind, ret. rewrite Ht, Hm, Ha, Hd. reflexivity.
  - intros ->. rewrite split_zeroed_entry in Hsplit.
    injection Hsplit as _ <- <- <- <-. now repeat split.
Qed.

(** ** Fingerprint mismatch *)

(** C1 (amended).  Take a pass of [heavy_stats] that has come to an
    entry whose stored fingerprint is not the expected one.  No request
    is made for the entry.  When the guard exceeds 1, [heavy_stats]
    raises the fatal error there.  Otherwise one is added to the guard,
    [init_cache_if_needed] is called, and [heavy_stats] starts a whole
    new pass, from the listing on, in the state that results.  The guard
    only grows, by one per restart, and never beyond 2: a process that
    starts with the guard at 0 restarts at most twice. *)
Theorem fingerprint_mismatch_restarts fuel login st lines pre full todo its st3
    line h pt pm pa pd owner repo :
  pass_at fuel login st (pre ++ full :: todo) lines pre its st3 ->
  drop CACHE_COMMENT_LINES lines !! length pre = Some line ->
  Py.split line = [h; pt; pm; pa; pd] ->
  Py.split_on "/" full = [owner; repo] ->
  h <> hexdigest (sha256 full) ->
  (1 < RECURSION_GUARD st3 ->
     heavy_stats (S fuel) login st
     = (Raise (RuntimeError "Cache hash mismatch recursion guard triggered"), st3))
  /\ (RECURSION_GUARD st3 <= 1 ->
      exists st4,
        init_cache_if_needed (pre ++ full :: todo)
          (snd (set_guard (RECURSION_GUARD st3 + 1) st3)) = (Ok tt, st4)
        /\ RECURSION_GUARD st4 = RECURSION_GUARD st3 + 1
        /\ trace st4 = trace st3
        /\ heavy_stats (S fuel) login st = heavy_stats fuel login st4)
  /\ (forall fuel' login' s,
        RECURSION_GUARD s <= RECURSION_GUARD (snd (heavy_stats fuel' login' s))
        /\ RECURSION_GUARD (snd (heavy_stats fuel' login' s))
           <= Z.max (RECURSION_GUARD s) 2).
Proof.
  intros Hpass Hline Hsplit Hfull Hh.
  assert (Hne : negb (String.eqb h (hexdigest (sha256 full))) = true).
  { apply negb_true_iff. now apply String.eqb_neq. }
  assert (Hentry : heavy_entry fuel (pre ++ full :: todo)
                     (drop CACHE_COMMENT_LINES lines) (length pre) full st3 =
            (let* guard := get_guard in
             if 1 <? guard then
               raise (RuntimeError "Cache hash mismatch recursion guard triggered")
             else set_guard (guard + 1) ;;
                  init_cache_if_needed (pre ++ full :: todo) ;; ret Restart) st3).
  { unfold heavy_entry. rewrite Hline. unfold bind at 1. cbn [ret].
    rewrite Hsplit, Hfull, Hne. reflexivity. }
  split; [|split].
  - intros Hg. apply (pass_at_raises _ _ _ _ _ _ _ _ _ _ _ Hpass).
    rewrite Hentry. unfold bind, get_guard.
    assert (E : (1 <? RECURSION_GUARD st3) = true) by lia. now rewrite E.
  - intros Hg.
    destruct (init_cache_post (pre ++ full :: todo)
                (snd (set_guard (RECURSION_GUARD st3 + 1) st3)))
      as (st4 & lines' & Hi & Hc & Hlen & Hguard & Htrace & _).
    exists st4. split; [exact Hi|]. split; [exact Hguard|]. split; [exact Htrace|].
    apply (pass_at_restarts _ _ _ _ _ _ _ _ _ _ Hpass).
    rewrite Hentry. unfold bind at 1. unfold get_guard.
    assert (E : (1 <? RECURSION_GUARD st3) = false) by lia. rewrite E.
    unfold bind at 1. cbn [set_guard]. cbn [set_guard snd] in Hi.
    unfold bind at 1. rewrite Hi. reflexivity.
  - intros fuel' login' s. apply effects_guard. apply runs_heavy_stats.
Qed.

(** ** Counters and calls *)

Lemma runs_sum_stars es : forall stars, runs (sum_stars es stars).
Proof. induction es as [|e es IH]; intros stars; cbn [sum_stars]; runs_auto. Qed.

#[local] Hint Resolve runs_sum_stars : runs.

Lemma runs_owned_pages fuel : forall login after stars,
  runs (owned_pages fuel login after stars).
Proof.
  induction fuel as [|fuel IH]; intros login after stars; cbn [owned_pages];
    runs_auto.
Qed.

Lemma runs_contrib_pages fuel : forall login after,
  runs (contrib_pages fuel login after).
Proof.
  induction fuel as [|fuel IH]; intros login after; cbn [contrib_pages]; runs_auto.
Qed.

#[local] Hint Resolve runs_owned_pages runs_contrib_pages runs_heavy_stats : runs.

Lemma runs_main fuel : runs (main fuel).
Proof.
  unfold main, get_user_and_created, get_repos_and_stars, get_followers.
  runs_auto.
Qed.

Lemma answered_app name tr1 tr2 :
  answered name (tr1 ++ tr2) = answered name tr1 + answered name tr2.
Proof. unfold answered. rewrite List.filter_app, length_app. lia. Qed.

Lemma answered_le_sent name tr : answered name tr <= sent name tr.
Proof.
  unfold answered, sent. induction tr as [|ev tr IH]; [reflexivity|].
  cbn [List.filter]. destruct ev as [q res|seconds]; cbn [is_answer is_request]; [|exact IH].
  destruct (String.eqb (query_tag q) name); cbn [andb length]; [|exact IH].
  destruct (accepted res); cbn [length]; lia.
Qed.

(** Of the attempts of one call only the last one can be an answer. *)
Lemma answered_schedule name query : forall outs attempt,
  (forall i r, (S i < length outs)%nat -> outs !! i = Some r -> accepted r = None) ->
  answered name (backoff_schedule query attempt outs)
  = match last outs with
    | Some res => answered name [EvPost query res]
    | None => 0
    end.
Proof.
  induction outs as [|r0 outs IH]; intros attempt Hinit; [reflexivity|].
  destruct outs as [|r1 outs]; [reflexivity|].
  rewrite backoff_schedule_cons by discriminate.
  change (EvPost query r0 :: EvSleep (pause attempt)
          :: backoff_schedule query (attempt + 1) (r1 :: outs))
    with ([EvPost query r0; EvSleep (pause attempt)]
          ++ backoff_schedule query (attempt + 1) (r1 :: outs)).
  rewrite answered_app, IH.
  - assert (H0 : accepted r0 = None) by (apply (Hinit 0%nat); [simpl; lia | reflexivity]).
    unfold answered at 1. cbn [List.filter is_answer]. rewrite H0, andb_false_r.
    reflexivity.
  - intros i r Hi Hr. apply (Hinit (S i)); [simpl in *; lia | exact Hr].
Qed.

Section Accounting.

Variable name : string.

Lemma hit_range t : 0 <= hit name t <= 1.
Proof. unfold hit. destruct (String.eqb t name); lia. Qed.

Lemma acct_weaken {A} d lo hi lo' hi' (c : M A) :
  acct name d lo hi c -> lo' <= lo -> hi <= hi' -> acct name d lo' hi' c.
Proof.
  intros H Hlo Hhi st Hk. destruct (H st Hk) as [Hs Hc]. split; [exact Hs|].
  destruct (fst (c st)); [exact Hc | lia | lia].
Qed.

Lemma acct_bind {A B} d1 lo1 hi1 d2 lo2 hi2 d lo hi (c : M A) (k : A -> M B) :
  acct name d1 lo1 hi1 c -> (forall a, acct name d2 lo2 hi2 (k a)) ->
  d = d1 + d2 -> lo <= lo1 -> hi1 <= hi -> lo <= d1 + lo2 -> d1 + hi2 <= hi ->
  acct name d lo hi (bind c k).
Proof.
  intros Hc Hk -> H1 H2 H3 H4 st Hs. unfold bind.
  destruct (Hc st Hs) as [Hs1 Hc1].
  destruct (c st) as [[a|e|] s1]; cbn [fst snd] in *.
  - destruct (Hk a s1 Hs1) as [Hs2 Hc2]. split; [exact Hs2|].
    destruct (fst (k a s1)); lia.
  - split; [exact Hs1 | lia].
  - split; [exact Hs1 | lia].
Qed.

(** A step that leaves the counters and the trace alone. *)
Lemma acct_same {A} (c : M A) :
  (forall st, QUERY_COUNT (snd (c st)) = QUERY_COUNT st
              /\ trace (snd (c st)) = trace st) ->
  acct name 0 0 0 c.
Proof.
  intros H st Hs. destruct (H st) as [Hq Ht]. unfold owed. rewrite Hq, Ht.
  split; [exact Hs|]. destruct (fst (c st)); lia.
Qed.

Lemma balanced_steady {A} (c : M A) : steady name c -> balanced name c.
Proof. intros H. apply (acct_weaken 0 0 0); [exact H | lia | lia]. Qed.

Lemma steady_bind {A B} (c : M A) (k : A -> M B) :
  steady name c -> (forall a, steady name (k a)) -> steady name (bind c k).
Proof. intros Hc Hk. apply (acct_bind 0 0 0 0 0 0); try assumption; lia. Qed.

Lemma balanced_bind {A B} (c : M A) (k : A -> M B) :
  balanced name c -> (forall a, balanced name (k a)) -> balanced name (bind c k).
Proof. intros Hc Hk. apply (acct_bind 0 0 1 0 0 1); try assumption; lia. Qed.

Lemma acct_count_query t : acct name (hit name t) 0 0 (count_query t).
Proof.
  intros st Hs. unfold count_query, owed, hit.
  destruct (QUERY_COUNT st !! t) as [n|] eqn:Hn; cbn [fst snd QUERY_COUNT trace].
  - destruct (String.eqb_spec t name) as [->|Hne].
    + rewrite lookup_insert_eq, Hn. cbn [default from_option id]. split; [eauto | lia].
    + rewrite lookup_insert_ne by exact Hne. split; [exact Hs | lia].
  - split; [exact Hs | lia].
Qed.

Lemma acct_gql query tag : acct name (- hit name (query_tag query)) 0 0 (gql query tag).
Proof.
  intros st Hs.
  destruct (gql_spec query tag st) as (outs & Htr & _ & (Hq & _) & Hinit & _ & Hres).
  split; [now rewrite Hq|].
  assert (Ho : owed name (snd (gql query tag st))
               = owed name st - match last outs with
                                | Some res => answered name [EvPost query res]
                                | None => 0
                                end).
  { unfold owed. rewrite Hq, Htr, answered_app.
    rewrite (answered_schedule name query outs 1 Hinit). lia. }
  rewrite Ho.
  destruct (fst (gql query tag st)) as [d|e|].
  - destruct Hres as (res & -> & Hacc). unfold answered, hit.
    cbn [List.filter is_answer]. rewrite Hacc, andb_true_r.
    destruct (String.eqb (query_tag query) name); cbn [length]; lia.
  - destruct (last outs) as [res|].
    + destruct Hres as [Hacc _]. unfold answered.
      cbn [List.filter is_answer]. rewrite Hacc, andb_false_r. cbn [length]. lia.
    + lia.
  - destruct Hres.
Qed.

(** A call as the callers make it: counted, then made. *)
Lemma balanced_call {A} t query tag (k : body -> M A) :
  query_tag query = t ->
  (forall d, balanced name (k d)) ->
  balanced name (count_query t ;; let* d := gql query tag in k d).
Proof.
  intros <- Hk. pose proof (hit_range (query_tag query)) as Hr.
  apply (acct_bind (hit name (query_tag query)) 0 0 (- hit name (query_tag query))
           (- hit name (query_tag query)) (1 - hit name (query_tag query)));
    [apply acct_count_query | intros _ | lia..].
  apply (acct_bind (- hit name (query_tag query)) 0 0 0 0 1);
    [apply acct_gql | exact Hk | lia..].
Qed.

Lemma steady_ret {A} (a : A) : steady name (ret a).
Proof. now apply acct_same. Qed.

Lemma steady_raise {A} e : steady name (@raise A e).
Proof. now apply acct_same. Qed.

Lemma steady_hang {A} : steady name (@hang A).
Proof. now apply acct_same. Qed.

Lemma steady_getitem {A} key (o : option A) : steady name (getitem key o).
Proof. destruct o; [apply steady_ret | apply steady_raise]. Qed.

Lemma steady_int_of s : steady name (int_of s).
Proof. unfold int_of. destruct (Py.int s); [apply steady_ret | apply steady_raise]. Qed.

Lemma steady_user_repositories d : steady name (user_repositories d).
Proof.
  unfold user_repositories. destruct (data d); (apply steady_ret || apply steady_raise).
Qed.

Lemma steady_repository_defaultBranchRef d : steady name (repository_defaultBranchRef d).
Proof.
  unfold repository_defaultBranchRef.
  destruct (data d); (apply steady_ret || apply steady_raise).
Qed.

Lemma steady_tally_edges es acc : steady name (tally_edges es acc).
Proof. apply acct_same. intros st. now rewrite tally_edges_spec. Qed.

Lemma steady_read_cache : steady name read_cache.
Proof. apply acct_same. intros st. unfold read_cache. now destruct (CACHE_FILE st). Qed.

Lemma steady_write_cache lines : steady name (write_cache lines).
Proof. now apply acct_same. Qed.

Lemma steady_init_cache_if_needed repos : steady name (init_cache_if_needed repos).
Proof.
  apply acct_same. intros st.
  destruct (init_cache_post repos st) as (st' & lines & -> & _ & _ & _ & Ht & Hq).
  now split.
Qed.

Lemma steady_get_guard : steady name get_guard.
Proof. now apply acct_same. Qed.

Lemma steady_set_guard g : steady name (set_guard g).
Proof. now apply acct_same. Qed.

Lemma steady_rel_age : steady name (fun st : state W => (Ok (rel_age (world st)), st)).
Proof. now apply acct_same. Qed.

Lemma steady_sum_stars es : forall stars, steady name (sum_stars es stars).
Proof.
  induction es as [|e es IH]; intros stars; cbn [sum_stars]; [apply steady_ret|].
  apply steady_bind; [apply steady_getitem | intros n; apply IH].
Qed.

Lemma steady_append_names es : forall names, steady name (append_names es names).
Proof.
  induction es as [|e es IH]; intros names; cbn [append_names]; [apply steady_ret|].
  apply steady_bind; [apply steady_getitem | intros n; apply IH].
Qed.

Create HintDb steady discriminated.

#[local] Hint Resolve steady_ret steady_raise steady_hang steady_getitem
  steady_int_of steady_user_repositories steady_repository_defaultBranchRef
  steady_tally_edges steady_read_cache steady_write_cache
  steady_init_cache_if_needed steady_get_guard steady_set_guard
  steady_sum_stars steady_append_names : steady.

Create HintDb balanced discriminated.

Ltac balanced_step :=
  first
    [ solve [auto 1 with balanced nocore]
    | solve [apply balanced_steady; auto 1 with steady nocore]
    | apply balanced_call; [reflexivity | intros ?]
    | apply balanced_bind; [|intros ?]
    | match goal with
      | |- balanced _ (match ?x with _ => _ end) => destruct x
      | |- balanced _ (if ?b then _ else _) => destruct b
      end ].

Ltac balanced_auto := repeat balanced_step.

Lemma balanced_get_user_and_created login : balanced name (get_user_and_created login).
Proof. unfold get_user_and_created. balanced_auto. Qed.

Lemma balanced_get_followers login : balanced name (get_followers login).
Proof. unfold get_followers. balanced_auto. Qed.

(** The paging loops of [get_repos_and_stars] are entered with the call
    of the first page counted already, and count the call of each
    further page themselves. *)
Lemma acct_owned_pages fuel : forall login after stars,
  acct name (- hit name "repos_stars") (- hit name "repos_stars") 0
    (owned_pages fuel login after stars).
Proof.
  pose proof (hit_range "repos_stars") as Hr.
  induction fuel as [|fuel IH]; intros login after stars; cbn [owned_pages].
  - apply (acct_weaken (- hit name "repos_stars") 0 0); [|lia..].
    intros st Hs. split; [exact Hs | cbn; lia].
  - apply (acct_bind (- hit name "repos_stars") 0 0 0 0 (hit name "repos_stars"));
      [apply (acct_gql (QOwnedRepos login after)) | intros d | lia..].
    apply (acct_bind 0 0 0 0 0 (hit name "repos_stars"));
      [apply steady_user_repositories | intros repos | lia..].
    apply (acct_bind 0 0 0 0 0 (hit name "repos_stars"));
      [apply steady_getitem | intros total_count | lia..].
    apply (acct_bind 0 0 0 0 0 (hit name "repos_stars"));
      [apply steady_getitem | intros es | lia..].
    apply (acct_bind 0 0 0 0 0 (hit name "repos_stars"));
      [apply steady_sum_stars | intros stars' | lia..].
    destruct (negb (hasNextPage (repos_pageInfo repos))).
    + apply (acct_weaken 0 0 0); [apply steady_ret | lia | lia].
    + apply (acct_bind (hit name "repos_stars") 0 0 (- hit name "repos_stars")
               (- hit name "repos_stars") 0);
        [apply acct_count_query | intros _; apply IH | lia..].
Qed.

Lemma acct_contrib_pages fuel : forall login after,
  acct name (- hit name "repos_stars") (- hit name "repos_stars") 0
    (contrib_pages fuel login after).
Proof.
  pose proof (hit_range "repos_stars") as Hr.
  induction fuel as [|fuel IH]; intros login after; cbn [contrib_pages].
  - apply (acct_weaken (- hit name "repos_stars") 0 0); [|lia..].
    intros st Hs. split; [exact Hs | cbn; lia].
  - apply (acct_bind (- hit name "repos_stars") 0 0 0 0 (hit name "repos_stars"));
      [apply (acct_gql (QContribRepos login after)) | intros d | lia..].
    apply (acct_bind 0 0 0 0 0 (hit name "repos_stars"));
      [apply steady_user_repositories | intros repos | lia..].
    apply (acct_bind 0 0 0 0 0 (hit name "repos_stars"));
      [apply steady_getitem | intros contributed_total | lia..].
    destruct (negb (hasNextPage (repos_pageInfo repos))).
    + apply (acct_weaken 0 0 0); [apply steady_ret | lia | lia].
    + apply (acct_bind (hit name "repos_stars") 0 0 (- hit name "repos_stars")
               (- hit name "repos_stars") 0);
        [apply acct_count_query | intros _; apply IH | lia..].
Qed.

Lemma balanced_get_repos_and_stars fuel login : balanced name (get_repos_and_stars fuel login).
Proof.
  pose proof (hit_range "repos_stars") as Hr.
  unfold get_repos_and_stars.
  apply (acct_bind (hit name "repos_stars") 0 0 (- hit name "repos_stars")
           (- hit name "repos_stars") 0);
    [apply acct_count_query | intros _ | lia..].
  apply (acct_bind (- hit name "repos_stars") (- hit name "repos_stars") 0
                   0 0 (hit name "repos_stars"));
    [apply acct_owned_pages | intros [total_count stars] | lia..].
  apply (acct_bind (hit name "repos_stars") 0 0 (- hit name "repos_stars")
           (- hit name "repos_stars") 0);
    [apply acct_count_query | intros _ | lia..].
  apply (acct_bind (- hit name "repos_stars") (- hit name "repos_stars") 0 0 0 0);
    [apply acct_contrib_pages | intros contributed_total; apply steady_ret | lia..].
Qed.

Lemma balanced_list_pages fuel : forall login after names,
  balanced name (list_pages fuel login after names).
Proof.
  induction fuel as [|fuel IH]; intros login after names; cbn [list_pages];
    balanced_auto; apply IH.
Qed.

Lemma balanced_get_repo_commit_total owner repo :
  balanced name (get_repo_commit_total owner repo).
Proof. unfold get_repo_commit_total. balanced_auto. Qed.

Lemma balanced_history_pages fuel : forall owner repo after acc,
  balanced name (history_pages fuel owner repo after acc).
Proof.
  induction fuel as [|fuel IH]; intros owner repo after acc; cbn [history_pages];
    balanced_auto; apply IH.
Qed.

#[local] Hint Resolve balanced_get_user_and_created balanced_get_followers
  balanced_get_repos_and_stars balanced_list_pages balanced_get_repo_commit_total
  balanced_history_pages : balanced.

Lemma balanced_scan_repo_history fuel owner repo :
  balanced name (scan_repo_history fuel owner repo).
Proof. unfold scan_repo_history. balanced_auto. Qed.

#[local] Hint Resolve balanced_scan_repo_history : balanced.

Lemma balanced_heavy_entry fuel repos repo_lines i full :
  balanced name (heavy_entry fuel repos repo_lines i full).
Proof.
  unfold heavy_entry.
  apply balanced_bind; [destruct (repo_lines !! i); balanced_auto|]. intros line.
  destruct (Py.split line) as [|h [|pt [|pm [|pa [|pd [|]]]]]]; balanced_auto.
Qed.

#[local] Hint Resolve balanced_heavy_entry : balanced.

Lemma balanced_heavy_loop fuel repos repo_lines todo : forall i updated totals,
  balanced name (heavy_loop fuel repos repo_lines i todo updated totals).
Proof.
  induction todo as [|full todo IH]; intros i updated totals; cbn [heavy_loop];
    [balanced_auto|].
  apply balanced_bind; [apply balanced_heavy_entry|]. intros [|line my adds dels];
    [balanced_auto|].
  destruct totals as [[tm ta] td]. apply IH.
Qed.

#[local] Hint Resolve balanced_heavy_loop : balanced.

Lemma balanced_heavy_stats fuel : forall login, balanced name (heavy_stats fuel login).
Proof.
  induction fuel as [|fuel IH]; intros login; cbn [heavy_stats];
    unfold collect_repo_full_names; balanced_auto; apply IH.
Qed.

#[local] Hint Resolve balanced_heavy_stats : balanced.

Lemma balanced_main fuel : balanced name (main fuel).
Proof.
  unfold main.
  apply balanced_bind; [apply balanced_get_user_and_created|]. intros [user_id created].
  apply balanced_bind; [apply balanced_steady, steady_rel_age|]. intros age_str.
  balanced_auto.
Qed.

End Accounting.

(** C4 (amended).  [gql] never touches the counters, however many
    attempts it makes, and the requests of a call hold an answer, the
    last of them, exactly when the call returns.  In a run of [main], a
    counter that exists grows by the number of calls of its kind that
    returned when the run returns, and by that number or one more, for
    the call that failed, when it does not: every call, at each of the
    places where one is made, is counted once by its caller, and the
    attempts it takes beyond the first are not counted. *)
Theorem counter_incremented_once_per_call fuel st name n :
  QUERY_COUNT st !! name = Some n ->
  (forall query tag st0,
     QUERY_COUNT (snd (gql query tag st0)) = QUERY_COUNT st0
     /\ exists tr0,
          trace (snd (gql query tag st0)) = trace st0 ++ tr0
          /\ Z.of_nat (posts tr0) <= Z.max 0 MAX_RETRIES
          /\ forall kind,
               answered kind tr0
               = match fst (gql query tag st0) with
                 | Ok _ => if String.eqb (query_tag query) kind then 1 else 0
                 | _ => 0
                 end)
  /\ exists tr calls,
       trace (snd (main fuel st)) = trace st ++ tr
       /\ QUERY_COUNT (snd (main fuel st)) !! name = Some (n + calls)
       /\ match fst (main fuel st) with
          | Ok _ => calls = answered name tr
          | _ => answered name tr <= calls <= answered name tr + 1
          end
       /\ answered name tr <= sent name tr.
Proof.
  intros Hn. split.
  - intros query tag st0.
    destruct (gql_spec query tag st0) as (outs & Htr & Hlen & (Hq & _) & Hinit & _ & Hres).
    split; [exact Hq|]. exists (backoff_schedule query 1 outs).
    split; [exact Htr|]. split; [now rewrite posts_backoff_schedule|].
    intros kind. rewrite (answered_schedule kind query outs 1 Hinit).
    destruct (fst (gql query tag st0)) as [d|e|].
    + destruct Hres as (res & -> & Hacc). unfold answered.
      cbn [List.filter is_answer]. rewrite Hacc, andb_true_r.
      now destruct (String.eqb (query_tag query) kind).
    + destruct (last outs) as [res|]; [|reflexivity].
      destruct Hres as [Hacc _]. unfold answered.
      cbn [List.filter is_answer]. now rewrite Hacc, andb_false_r.
    + destruct Hres.
  - destruct (effects_trace _ _ (runs_main fuel st)) as (tr & Htr).
    destruct (balanced_main name fuel st (ex_intro _ n Hn)) as [[m Hm] Hb].
    exists tr, (m - n). split; [exact Htr|]. split; [rewrite Hm; f_equal; lia|].
    unfold owed in Hb. rewrite Hm, Hn, Htr, answered_app in Hb.
    cbn [default from_option id] in Hb.
    split; [|apply answered_le_sent].
    destruct (fst (main fuel st)); lia.
Qed.

(** ** Light mode *)

Lemma main_light fuel st stats st' :
  DO_HEAVY = false ->
  main fuel st = (Ok stats, st') ->
  exists age_str owned_repos stars contrib_repos followers,
    stats = <["commits" := VInt 0]> (<["followers" := VInt followers]>
            (<["contrib" := VInt contrib_repos]> (<["stars" := VInt stars]>
            (<["repos" := VInt owned_repos]> (<["age" := VStr age_str]> ∅))))).
Proof.
  intros Hlight H. unfold main in H. rewrite Hlight in H.
  apply bind_Ok in H as ([user_id created] & s1 & _ & H).
  apply bind_Ok in H as (age_str & s2 & _ & H).
  apply bind_Ok in H as ([[owned_repos stars] contrib_repos] & s3 & _ & H).
  apply bind_Ok in H as (followers & s4 & _ & H).
  apply bind_Ok in H as ([[[commits loc_add] loc_del] loc_net] & s5 & Hz & H).
  injection Hz as <- <- <- <- <-. injection H as <- <-.
  now exists age_str, owned_repos, stars, contrib_repos, followers.
Qed.

(** The values the renderer shows when the record has no [loc_net]. *)
Lemma placeholders_survive_limits repos contrib stars commits followers :
  let v := apply_limits MAX_VALUE_CHAR
             (<["loc_del" := "-0"]> (<["loc_add" := "+0"]> (<["loc_net" := "--"]>
             (<["followers" := followers]> (<["commits" := commits]>
             (<["stars" := stars]> (<["contrib" := contrib]>
             (<["repos" := repos]> ∅)))))))) in
  v !! "loc_net" = Some "--" /\ v !! "loc_add" = Some "+0" /\ v !! "loc_del" = Some "-0"
  /\ is_Some (v !! "repos") /\ is_Some (v !! "contrib") /\ is_Some (v !! "stars")
  /\ is_Some (v !! "commits") /\ is_Some (v !! "followers").
Proof.
  cbn zeta. repeat split; try (vm_compute; reflexivity); vm_compute; eexists; reflexivity.
Qed.

Lemma build_lines_Ok v x_base y_base :
  is_Some (v !! "repos") -> is_Some (v !! "contrib") -> is_Some (v !! "stars") ->
  is_Some (v !! "commits") -> is_Some (v !! "followers") ->
  exists stat_lines,
    forall st, build_lines v x_base y_base 0 line_defs st = (Ok stat_lines, st).
Proof.
  intros [r Hr] [c Hc] [s Hs] [m Hm] [f Hf].
  unfold line_defs. cbn [build_lines measure_segments].
  rewrite Hr, Hc, Hs, Hm, Hf. unfold getitem, bind, ret.
  eexists. intros st. reflexivity.
Qed.

(** C10.  With heavy mode off, the record [main] assembles has
    [commits] equal to 0 and no [loc_add], [loc_del] or [loc_net]; and
    for a container whose [x] and [y] attributes read as integers
    [build_stats_container] still ends the children with the
    lines-of-code line, whose three values are the texts ["--"], ["+0"]
    and ["-0"]. *)
Theorem light_mode_shows_placeholders fuel st stats st' c x_base y_base st0 :
  DO_HEAVY = false ->
  main fuel st = (Ok stats, st') ->
  Py.int (default "370" (attr_x c)) = Some x_base ->
  Py.int (default "580" (attr_y c)) = Some y_base ->
  stats !! "commits" = Some (VInt 0)
  /\ stats !! "loc_add" = None /\ stats !! "loc_del" = None /\ stats !! "loc_net" = None
  /\ exists stat_lines,
       build_stats_container (Some c) stats st0
       = (Ok (Some {| attr_x := attr_x c; attr_y := attr_y c;
                      children :=
                        stat_lines ++
                        [ Tspan (Some (Py.str x_base)) (Some (Py.str (y_base + 40)))
                            "keyColor" None "Lines of Code:";
                          Tspan None None "valueColor" (Some "loc_data") "--";
                          Tspan None None "valueColor" None " (";
                          Tspan None None "addColor" (Some "loc_add") "+0";
                          Tspan None None "valueColor" None ", ";
                          Tspan None None "delColor" (Some "loc_del") "-0";
                          Tspan None None "valueColor" None ")" ] |}), st0).
Proof.
  intros Hlight Hmain Hx Hy.
  destruct (main_light _ _ _ _ Hlight Hmain)
    as (age_str & owned & stars & contrib & followers & ->).
  split; [reflexivity|]. split; [reflexivity|]. split; [reflexivity|].
  split; [reflexivity|].
  unfold build_stats_container, int_of. rewrite Hx, Hy.
  unfold bind at 1. cbn [ret]. unfold bind at 1. cbn [ret].
  assert (Hrepos : forall s, format_stat
            (<["commits" := VInt 0]> (<["followers" := VInt followers]>
             (<["contrib" := VInt contrib]> (<["stars" := VInt stars]>
             (<["repos" := VInt owned]> (<["age" := VStr age_str]> ∅))))))
            "repos" s = (Ok (Py.format_int owned), s)) by reflexivity.
  assert (Hcontrib : forall s, format_stat
            (<["commits" := VInt 0]> (<["followers" := VInt followers]>
             (<["contrib" := VInt contrib]> (<["stars" := VInt stars]>
             (<["repos" := VInt owned]> (<["age" := VStr age_str]> ∅))))))
            "contrib" s = (Ok (Py.format_int contrib), s)) by reflexivity.
  assert (Hstars : forall s, format_stat
            (<["commits" := VInt 0]> (<["followers" := VInt followers]>
             (<["contrib" := VInt contrib]> (<["stars" := VInt stars]>
             (<["repos" := VInt owned]> (<["age" := VStr age_str]> ∅))))))
            "stars" s = (Ok (Py.format_int stars), s)) by reflexivity.
  assert (Hcommits : forall s, format_stat
            (<["commits" := VInt 0]> (<["followers" := VInt followers]>
             (<["contrib" := VInt contrib]> (<["stars" := VInt stars]>
             (<["repos" := VInt owned]> (<["age" := VStr age_str]> ∅))))))
            "commits" s = (Ok "0", s)) by reflexivity.
  assert (Hfollowers : forall s, format_stat
            (<["commits" := VInt 0]> (<["followers" := VInt followers]>
             (<["contrib" := VInt contrib]> (<["stars" := VInt stars]>
             (<["repos" := VInt owned]> (<["age" := VStr age_str]> ∅))))))
            "followers" s = (Ok (Py.format_int followers), s)) by reflexivity.
  rewrite (bind_step _ _ _ _ _ (Hrepos st0)).
  rewrite (bind_step _ _ _ _ _ (Hcontrib st0)).
  rewrite (bind_step _ _ _ _ _ (Hstars st0)).
  rewrite (bind_step _ _ _ _ _ (Hcommits st0)).
  rewrite (bind_step _ _ _ _ _ (Hfollowers st0)).
  cbn zeta.
  assert (Hno : bool_decide (is_Some
            ((<["commits" := VInt 0]> (<["followers" := VInt followers]>
             (<["contrib" := VInt contrib]> (<["stars" := VInt stars]>
             (<["repos" := VInt owned]> (<["age" := VStr age_str]> ∅)))))
              : gmap string value) !! "loc_net")) = false).
  { apply bool_decide_eq_false_2. intros [x Hx']. discriminate Hx'. }
  rewrite Hno. unfold bind at 1. cbn [ret].
  destruct (placeholders_survive_limits (Py.format_int owned) (Py.format_int contrib)
              (Py.format_int stars) "0" (Py.format_int followers))
    as (Hnet & Hadd & Hdel & H1 & H2 & H3 & H4 & H5).
  cbn zeta in *.
  destruct (build_lines_Ok _ x_base y_base H1 H2 H3 H4 H5) as (stat_lines & Hlines).
  exists stat_lines.
  rewrite (bind_step _ _ _ _ _ (Hlines st0)).
  rewrite Hnet, Hadd, Hdel. reflexivity.
Qed.

(** ** Two runs against the same upstream *)

Lemma same_keys_refl st : same_keys st st.
Proof. intros name. reflexivity. Qed.

Lemma same_keys_sym st st' : same_keys st st' -> same_keys st' st.
Proof. intros H name. symmetry. apply H. Qed.

Lemma same_keys_trans st1 st2 st3 :
  same_keys st1 st2 -> same_keys st2 st3 -> same_keys st1 st3.
Proof. intros H1 H2 name. rewrite (H1 name). apply H2. Qed.

Lemma effect_same_keys st st' : effect st st' -> same_keys st st'.
Proof.
  intros [q st0|s st0|name0 st0 Hk|l st0|st0|st0 Hg] name; try (cbn; reflexivity).
  - unfold after_post, requests_post. destruct (post q (world st0)). cbn. reflexivity.
  - cbn [counted QUERY_COUNT]. destruct (decide (name0 = name)) as [->|Hne].
    + rewrite lookup_insert_eq. split; eauto.
    + now rewrite lookup_insert_ne.
  - unfold utcnow. destruct (utcnow_isoformat (world st0)). cbn. reflexivity.
Qed.

Lemma effects_same_keys st st' : effects st st' -> same_keys st st'.
Proof.
  induction 1 as [st|st st1 st2 H _ IH]; [apply same_keys_refl|].
  eapply same_keys_trans; [apply effect_same_keys, H | exact IH].
Qed.

Lemma run_same_keys {A} (c : M A) st : runs c -> same_keys st (snd (c st)).
Proof. intros H. apply effects_same_keys, H. Qed.

Section Answers.

Variable resp : request -> post_result.
Hypothesis Hresp : answers resp.

Ltac pause_case IH :=
  unfold bind, try_; rewrite !sleep_backoff_spec;
  let Hd := fresh "Hd" in
  destruct (backoff_delay _) eqn:Hd; cbv iota beta;
  try (destruct (_ <? MAX_RETRIES));
  repeat (rewrite sleep_backoff_spec, Hd; cbv iota beta);
  first [reflexivity | apply IH].

Lemma gql_attempts_answers query tag attempts : forall last_exc sA sB,
  fst (gql_attempts query tag attempts last_exc sA)
  = fst (gql_attempts query tag attempts last_exc sB).
Proof using Hresp.
  induction attempts as [|attempt rest IH]; intros last_exc sA sB.
  - cbn. destruct last_exc; reflexivity.
  - cbn [gql_attempts]. cbn zeta.
    match goal with
    | |- fst (bind ?c ?k sA) = fst (bind ?c ?k sB) =>
        change (fst (match c sA with
                     | (Ok a, st') => k a st'
                     | (Raise e, st') => (Raise e, st')
                     | (Hang, st') => (Hang, st')
                     end)
                = fst (match c sB with
                       | (Ok a, st') => k a st'
                       | (Raise e, st') => (Raise e, st')
                       | (Hang, st') => (Hang, st')
                       end))
    end.
    unfold requests_post.
    pose proof (Hresp query (world sA)) as EA.
    pose proof (Hresp query (world sB)) as EB.
    destruct (post query (world sA)) as [rA wA].
    destruct (post query (world sB)) as [rB wB].
    cbn [fst] in EA, EB. subst rA rB.
    destruct (resp query) as [e|r].
    + destruct (attempt <? MAX_RETRIES); [|reflexivity]. pause_case IH.
    + destruct ((status_code r =? 502) && (attempt <? MAX_RETRIES)).
      { pause_case IH. }
      destruct (negb (status_code r =? 200)).
      { destruct (attempt <? MAX_RETRIES); [|reflexivity]. pause_case IH. }
      destruct (json r) as [d|].
      * destruct (errors d) as [|m ms]; [reflexivity|].
        destruct (Py.contains _ _ && _).
        { pause_case IH. }
        destruct (attempt <? MAX_RETRIES); [|reflexivity]. pause_case IH.
      * destruct (attempt <? MAX_RETRIES); [|reflexivity]. pause_case IH.
Qed.

Lemma gql_answers query tag sA sB :
  fst (gql query tag sA) = fst (gql query tag sB).
Proof using Hresp. apply gql_attempts_answers. Qed.

(** The probe returns the same total whenever it is made. *)
Lemma get_repo_commit_total_answers owner repo sA sA' sB total :
  same_keys sA sB ->
  get_repo_commit_total owner repo sA = (Ok total, sA') ->
  exists sB', get_repo_commit_total owner repo sB = (Ok total, sB').
Proof using Hresp.
  intros Hk H.
  pose proof (get_repo_commit_total_Ok _ _ _ _ _ H) as (_ & _ & _ & _ & _ & _ & _ & _ & HA).
  destruct HA as [nA HA].
  destruct (proj1 (Hk "loc_repo_scan") (ex_intro _ nA HA)) as [nB HB].
  rewrite (get_repo_commit_total_eq _ _ _ _ HA) in H.
  rewrite (get_repo_commit_total_eq _ _ _ _ HB). cbn zeta in *.
  rewrite (gql_answers _ _ (counted "loc_repo_scan" sB) (counted "loc_repo_scan" sA)).
  injection H as H _. rewrite H. eexists. reflexivity.
Qed.

Lemma list_pages_answers : forall fuel login after names sA sA' sB listed,
  same_keys sA sB ->
  list_pages fuel login after names sA = (Ok listed, sA') ->
  exists sB', list_pages fuel login after names sB = (Ok listed, sB').
Proof using Hresp utcnow_isoformat.
  induction fuel as [|fuel IH]; intros login after names sA sA' sB listed Hk H;
    [discriminate|].
  cbn [list_pages] in H |- *.
  apply bind_Ok in H as (u & s1 & Hc & H).
  apply count_query_Ok in Hc as [[nA HA] ->].
  destruct (proj1 (Hk "loc_list_repos") (ex_intro _ nA HA)) as [nB HB].
  rewrite (bind_step _ _ _ _ _ (count_query_spec _ _ _ HB)).
  apply bind_Ok in H as (d & s2 & Hg & H).
  pose proof (gql_answers (QLocListRepos login after) "loc_list_repos"
                (counted "loc_list_repos" sB) (counted "loc_list_repos" sA)) as E.
  rewrite Hg in E. cbn [fst] in E.
  destruct (gql (QLocListRepos login after) "loc_list_repos"
              (counted "loc_list_repos" sB)) as [rB s2B] eqn:HgB.
  cbn [fst] in E. subst rB. unfold bind at 1. rewrite HgB.
  assert (KA : same_keys sA s2).
  { apply (same_keys_trans _ (counted "loc_list_repos" sA)).
    - apply effect_same_keys, eff_count. now exists nA.
    - pose proof (run_same_keys (gql (QLocListRepos login after) "loc_list_repos")
                    (counted "loc_list_repos" sA) (runs_gql _ _)) as K.
      now rewrite Hg in K. }
  assert (KB : same_keys sB s2B).
  { apply (same_keys_trans _ (counted "loc_list_repos" sB)).
    - apply effect_same_keys, eff_count. now exists nB.
    - pose proof (run_same_keys (gql (QLocListRepos login after) "loc_list_repos")
                    (counted "loc_list_repos" sB) (runs_gql _ _)) as K.
      now rewrite HgB in K. }
  assert (Hk2 : same_keys s2 s2B).
  { apply (same_keys_trans _ sA); [now apply same_keys_sym|].
    now apply (same_keys_trans _ sB). }
  apply bind_Ok in H as (rs & s3 & Hr & H).
  apply user_repositories_Ok in Hr as [Hd ->].
  unfold bind at 1. unfold user_repositories at 1. rewrite Hd. cbn [ret].
  apply bind_Ok in H as (es & s4 & He & H).
  apply getitem_Ok in He as [He ->].
  unfold bind at 1. rewrite He. cbn [getitem ret].
  apply bind_Ok in H as (names' & s5 & Hn & H).
  assert (Hpure : forall es0 names0 s s' out,
            append_names es0 names0 s = (Ok out, s') ->
            s' = s /\ forall t, append_names es0 names0 t = (Ok out, t)).
  { clear. induction es0 as [|e es0 IHe]; intros names0 s s' out Ha.
    - cbn in Ha. injection Ha as <- <-. split; [reflexivity|]. intros t. reflexivity.
    - cbn [append_names] in Ha |- *.
      apply bind_Ok in Ha as (nm & s1 & Hg & Ha).
      apply getitem_Ok in Hg as [Hg ->].
      apply IHe in Ha as [-> Ha]. split; [reflexivity|].
      intros t. rewrite Hg. unfold bind at 1. cbn [getitem ret]. apply Ha. }
  apply Hpure in Hn as [-> Hn].
  rewrite (bind_step _ _ _ _ _ (Hn s2B)).
  destruct (negb (hasNextPage (repos_pageInfo rs))).
  - injection H as <- <-. eexists. reflexivity.
  - apply (IH _ _ _ _ _ _ _ Hk2 H).
Qed.

End Answers.

Lemma no_history_post_schedule query : forall outs attempt,
  (forall res, is_history_post (EvPost query res) = false) ->
  no_history_post (backoff_schedule query attempt outs).
Proof.
  induction outs as [|r0 outs IH]; intros attempt Hq; [reflexivity|].
  destruct outs as [|r1 outs].
  - unfold no_history_post. cbn [backoff_schedule forallb]. now rewrite Hq.
  - rewrite backoff_schedule_cons by discriminate.
    unfold no_history_post in *. cbn [forallb]. rewrite Hq. cbn [negb andb is_history_post].
    now apply IH.
Qed.

(** A listing that returns has left the cache file and the guard alone
    and asked for no history page. *)
Lemma list_pages_quiet : forall fuel login after names st listed st',
  list_pages fuel login after names st = (Ok listed, st') ->
  CACHE_FILE st' = CACHE_FILE st
  /\ RECURSION_GUARD st' = RECURSION_GUARD st
  /\ exists tr, trace st' = trace st ++ tr /\ no_history_post tr.
Proof.
  induction fuel as [|fuel IH]; intros login after names st listed st' H;
    [discriminate|].
  cbn [list_pages] in H.
  apply bind_Ok in H as (u & s1 & Hc & H).
  apply count_query_Ok in Hc as [_ ->].
  apply bind_Ok in H as (d & s2 & Hg & H).
  apply gql_Ok in Hg as (outs & res & Htr & (_ & Hcache & Hguard) & _).
  assert (Hn : no_history_post
                 (backoff_schedule (QLocListRepos login after) 1 outs))
    by (apply no_history_post_schedule; reflexivity).
  apply bind_Ok in H as (rs & s3 & Hr & H).
  apply user_repositories_Ok in Hr as [_ ->].
  apply bind_Ok in H as (es & s4 & He & H).
  apply getitem_Ok in He as [_ ->].
  apply bind_Ok in H as (names' & s5 & Ha & H).
  assert (s5 = s2) as ->.
  { clear - Ha. revert names Ha. induction es as [|e es IHe]; intros names Ha.
    - cbn in Ha. now injection Ha as _ <-.
    - cbn [append_names] in Ha. apply bind_Ok in Ha as (nm & s1 & Hg & Ha).
      apply getitem_Ok in Hg as [_ ->]. now apply IHe in Ha. }
  destruct (negb (hasNextPage (repos_pageInfo rs))).
  - injection H as <- <-. split; [exact Hcache|]. split; [exact Hguard|].
    eexists. split; [exact Htr | exact Hn].
  - apply IH in H as (Hc' & Hg' & tr' & Htr' & Hn').
    split; [now rewrite Hc', Hcache|]. split; [now rewrite Hg', Hguard|].
    eexists. split.
    + rewrite Htr', Htr. cbn [counted trace]. rewrite <- app_assoc. reflexivity.
    + now apply no_history_post_app.
Qed.

(** An iteration that ends with an entry: the fingerprint was the
    expected one, the probe returned, and the line carries its total. *)
Lemma heavy_entry_Entry fuel repos repo_lines i full st line my adds dels st' :
  heavy_entry fuel repos repo_lines i full st = (Ok (Entry line my adds dels), st') ->
  exists owner repo total st1,
    Py.split_on "/" full = [owner; repo]
    /\ get_repo_commit_total owner repo st = (Ok total, st1)
    /\ line = entry_line (hexdigest (sha256 full)) total my adds dels.
Proof.
  intros H. unfold heavy_entry in H.
  apply bind_Ok in H as (l & s0 & Hl & H).
  assert (s0 = st) as ->.
  { destruct (repo_lines !! i); cbn in Hl; [now injection Hl as _ <- | discriminate]. }
  destruct (Py.split l) as [|h [|pt [|pm [|pa [|pd [|]]]]]]; try discriminate.
  destruct (Py.split_on "/" full) as [|owner [|repo [|]]]; try discriminate.
  destruct (negb (String.eqb h (hexdigest (sha256 full)))).
  - apply bind_Ok in H as (g & s1 & _ & H).
    destruct (1 <? g); [discriminate|].
    apply bind_Ok in H as (u1 & s2 & _ & H).
    apply bind_Ok in H as (u2 & s3 & _ & H). discriminate.
  - apply bind_Ok in H as (total & s1 & Hp & H).
    apply bind_Ok in H as (ct & s2 & _ & H).
    apply bind_Ok in H as ([[m a] d] & s3 & _ & H).
    injection H as <- <- <- <- <-.
    now exists owner, repo, total, s1.
Qed.

Lemma rewritten_entries (lines updated : list string) :
  (updated <> [] -> (CACHE_COMMENT_LINES <= length lines)%nat) ->
  take CACHE_COMMENT_LINES (take CACHE_COMMENT_LINES lines ++ updated)
  = take CACHE_COMMENT_LINES lines
  /\ forall j x, updated !! j = Some x ->
       drop CACHE_COMMENT_LINES (take CACHE_COMMENT_LINES lines ++ updated) !! j = Some x.
Proof.
  intros Hlen. destruct updated as [|u updated].
  - split; [|intros j x Hj; discriminate].
    rewrite app_nil_r. apply take_take.
  - assert (Hl : length (take CACHE_COMMENT_LINES lines) = CACHE_COMMENT_LINES).
    { rewrite length_take. specialize (Hlen ltac:(discriminate)). lia. }
    split; [now apply take_header|].
    intros j x Hj. now rewrite (drop_header _ _ Hl).
Qed.

Section SecondRun.

Variable resp : request -> post_result.
Hypothesis Hresp : answers resp.

(** The loop of a later run over the lines an earlier run has written. *)
Lemma heavy_loop_again fuelA reposA linesA i todo its sA sA' :
  iterations fuelA reposA linesA i todo its sA sA' ->
  forall fuelB reposB linesB tB updated tm ta td,
    same_keys sA tB ->
    (forall j it, its !! j = Some it -> linesB !! (i + j)%nat = Some (fst it)) ->
    exists tB' tr,
      heavy_loop fuelB reposB linesB i todo updated (tm, ta, td) tB
      = (Ok (Some (updated ++ map fst its,
                   (tm + sumZ (map my_of its), ta + sumZ (map adds_of its),
                    td + sumZ (map dels_of its)))), tB')
      /\ trace tB' = trace tB ++ tr /\ no_history_post tr
      /\ CACHE_FILE tB' = CACHE_FILE tB
      /\ RECURSION_GUARD tB' = RECURSION_GUARD tB.
Proof using Hresp.
  induction 1 as [i sA|i full todo line my adds dels its sA sA1 sA' He Hits IH];
    intros fuelB reposB linesB tB updated tm ta td Hk Hlines.
  - exists tB, []. cbn. rewrite !app_nil_r, !Z.add_0_r. now repeat split.
  - destruct (heavy_entry_Entry _ _ _ _ _ _ _ _ _ _ _ He)
      as (owner & repo & total & sP & Hfull & Hprobe & ->).
    destruct (get_repo_commit_total_answers resp Hresp _ _ _ _ _ _ Hk Hprobe)
      as (tB1 & HprobeB).
    assert (HeB : heavy_entry fuelB reposB linesB i full tB
              = (Ok (Entry (entry_line (hexdigest (sha256 full)) total my adds dels)
                           my adds dels), tB1)).
    { eapply heavy_entry_cache_valid.
      - specialize (Hlines 0%nat _ eq_refl). rewrite Nat.add_0_r in Hlines. exact Hlines.
      - apply split_entry_line, hexdigest_is_token.
      - reflexivity.
      - exact Hfull.
      - exact HprobeB.
      - apply int_str.
      - apply int_str.
      - apply int_str.
      - apply int_str. }
    assert (Hk1 : same_keys sA1 tB1).
    { apply (same_keys_trans _ sA).
      - apply same_keys_sym.
        pose proof (run_same_keys (heavy_entry fuelA reposA linesA i full) sA
                      (runs_heavy_entry _ _ _ _ _)) as K.
        now rewrite He in K.
      - apply (same_keys_trans _ tB); [exact Hk|].
        pose proof (run_same_keys (get_repo_commit_total owner repo) tB
                      (runs_get_repo_commit_total _ _)) as K.
        now rewrite HprobeB in K. }
    destruct (IH fuelB reposB linesB tB1
                (updated ++ [entry_line (hexdigest (sha256 full)) total my adds dels])
                (tm + my) (ta + adds) (td + dels) Hk1)
      as (tB' & tr & Hloop & Htr & Hn & Hc & Hg).
    { intros j it Hj. specialize (Hlines (S j) it Hj).
      now replace (S i + j)%nat with (i + S j)%nat by lia. }
    destruct (get_repo_commit_total_Ok _ _ _ _ _ HprobeB)
      as (outs & res & d & Htr1 & _ & _ & _ & (_ & Hc1 & Hg1) & _).
    exists tB', (backoff_schedule (QCommitTotal owner repo) 1 outs ++ tr).
    split.
    { cbn [heavy_loop]. rewrite (bind_step _ _ _ _ _ HeB). rewrite Hloop.
      cbn [map fst sumZ fold_right my_of adds_of dels_of snd].
      rewrite <- app_assoc. cbn [app]. unfold sumZ.
      now rewrite <- !Z.add_assoc. }
    split; [rewrite Htr, Htr1, <- app_assoc; reflexivity|].
    split; [apply no_history_post_app; [apply no_history_post_probe | exact Hn]|].
    split; [now rewrite Hc, Hc1 | now rewrite Hg, Hg1].
Qed.

End SecondRun.

(** ** Idempotence *)


(** * Further properties *)

(** ** Thousands separators and truncation *)

Lemma uncomma_commas s : uncomma (Py.commas s) = uncomma s.
Proof.
  induction s as [|c s IH]; [reflexivity|].
  cbn [Py.commas uncomma].
  destruct (Nat.ltb 0 (String.length s) && Nat.eqb (Nat.modulo (String.length s) 3) 0)%bool;
    destruct (Ascii.eqb c ","); cbn [uncomma]; try change (Ascii.eqb "," ",") with true;
    cbv iota; now rewrite IH.
Qed.

Lemma uncomma_uint d : uncomma (NilEmpty.string_of_uint d) = NilEmpty.string_of_uint d.
Proof. induction d; simpl; congruence. Qed.

Lemma uncomma_str n : uncomma (Py.str n) = Py.str n.
Proof.
  unfold Py.str.
  assert (Hu : forall d, uncomma (NilZero.string_of_uint d) = NilZero.string_of_uint d).
  { intros d. destruct d; try reflexivity; apply uncomma_uint. }
  destruct (Z.to_int n) as [d|d]; simpl; now rewrite Hu.
Qed.

Lemma str_negative n : n < 0 -> Py.str n = String "-" (Py.str (- n)).
Proof. destruct n as [|p|p]; try lia. intros _. reflexivity. Qed.

Lemma length_append s t :
  String.length (s +:+ t) = (String.length s + String.length t)%nat.
Proof. induction s as [|c s IH]; simpl; [reflexivity | now rewrite IH]. Qed.

Lemma commas_short s : (String.length s <= 3)%nat -> Py.commas s = s.
Proof.
  destruct s as [|a [|b [|c [|d s]]]]; simpl; try reflexivity. lia.
Qed.

Lemma commas_group s t :
  s <> "" -> String.length t = 3%nat ->
  Py.commas (s +:+ t) = Py.commas s +:+ "," +:+ t.
Proof.
  intros Hs Ht. induction s as [|c s IH]; [congruence|].
  destruct s as [|c' s].
  - change (String c "" +:+ t) with (String c t).
    cbn [Py.commas]. rewrite Ht. cbn. now rewrite commas_short by lia.
  - change (String c (String c' s) +:+ t) with (String c (String c' s +:+ t)).
    cbn [Py.commas]. rewrite IH by discriminate.
    assert (Hl : String.length (String c' s +:+ t) = (String.length (String c' s) + 3)%nat).
    { now rewrite length_append, Ht. }
    rewrite Hl.
    replace (Nat.modulo (String.length (String c' s) + 3) 3)
      with (Nat.modulo (String.length (String c' s)) 3).
    2:{ replace 3%nat with (1 * 3)%nat at 2 by reflexivity.
        now rewrite Nat.Div0.mod_add. }
    assert (H1 : Nat.ltb 0 (String.length (String c' s) + 3) = true)
      by (apply Nat.ltb_lt; lia).
    assert (H2 : Nat.ltb 0 (String.length (String c' s)) = true)
      by (apply Nat.ltb_lt; simpl; lia).
    rewrite H1, H2. cbn [andb].
    destruct (Nat.eqb _ 0); reflexivity.
Qed.

Lemma format_int_small n : 0 <= n < 1000 -> Py.format_int n = Py.str n.
Proof.
  intros Hn.
  assert (H : forallb (fun k => String.eqb (Py.format_int (Z.of_nat k)) (Py.str (Z.of_nat k)))
                (seq 0 1000) = true) by (vm_compute; reflexivity).
  rewrite forallb_forall in H.
  specialize (H (Z.to_nat n)). rewrite Z2Nat.id in H by lia.
  apply String.eqb_eq, H, in_seq. lia.
Qed.


Lemma length_substring_0 n s :
  String.length (substring 0 n s) = Nat.min n (String.length s).
Proof.
  revert s. induction n as [|n IH]; intros [|c s]; simpl; try reflexivity.
  now rewrite IH.
Qed.

Lemma prefix_substring_0 n s : String.prefix (substring 0 n s) s = true.
Proof.
  revert s. induction n as [|n IH]; intros [|c s]; simpl; try reflexivity.
  rewrite IH. now destruct (ascii_dec c c).
Qed.

(** X9.  [truncate_text] returns a text of at most [max_chars]
    characters unchanged.  A longer text is cut to its first
    [max_chars - 1] characters (none when [max_chars <= 1]) followed by
    the ellipsis text, so the result has [max(0, max_chars - 1)]
    characters plus those of the ellipsis. *)
Theorem truncate_text_bounds text max_chars :
  (Py.len text <= max_chars -> truncate_text text max_chars = text)
  /\ (max_chars < Py.len text ->
      exists kept,
        truncate_text text max_chars = kept +:+ ELLIPSIS
        /\ String.prefix kept text = true
        /\ Py.len kept = Z.max 0 (max_chars - 1)
        /\ Py.len (truncate_text text max_chars)
           = Z.max 0 (max_chars - 1) + Py.len ELLIPSIS).
Proof.
  unfold truncate_text. split; intros H.
  - assert (E : (Py.len text <=? max_chars) = true) by lia. now rewrite E.
  - assert (E : (Py.len text <=? max_chars) = false) by lia. rewrite E.
    destruct (max_chars <=? 1) eqn:H1.
    + apply Z.leb_le in H1.
      exists "". split; [reflexivity|]. split; [now destruct text|].
      unfold Py.len. cbn [append String.length]. lia.
    + apply Z.leb_gt in H1.
      exists (Py.take (max_chars - 1) text). split; [reflexivity|].
      unfold Py.take, Py.len in *.
      split; [apply prefix_substring_0|].
      rewrite length_append, length_substring_0. lia.
Qed.

(** ** The tagline *)

Lemma split_tokens s : tokens (Py.split s).
Proof.
  unfold tokens. induction s as [|c s IH]; [constructor|].
  cbn [Py.split]. destruct (Py.is_space c) eqn:Hc; [exact IH|].
  destruct s as [|c' s']; [repeat constructor; simpl; now rewrite Hc|].
  destruct (Py.is_space c') eqn:Hc'.
  - constructor; [simpl; now rewrite Hc | exact IH].
  - destruct (Py.split (String c' s')) as [|w ws].
    + repeat constructor. simpl. now rewrite Hc.
    + inversion IH as [|? ? Hw Hws]; subst. constructor; [|exact Hws].
      simpl. rewrite Hc. simpl. now apply is_token_no_space.
Qed.

Lemma append_assoc (a b c : string) : (a +:+ b) +:+ c = a +:+ b +:+ c.
Proof.
  induction a as [|x a IH]; [reflexivity|].
  change (String x ((a +:+ b) +:+ c) = String x (a +:+ b +:+ c)). now rewrite IH.
Qed.

Lemma join_snoc cs w :
  cs <> [] -> Py.join " " (cs ++ [w]) = Py.join " " cs +:+ " " +:+ w.
Proof.
  induction cs as [|c cs IH]; [congruence|]. intros _.
  destruct cs as [|c' cs]; [reflexivity|].
  change ((c :: c' :: cs) ++ [w]) with (c :: ((c' :: cs) ++ [w])).
  change (Py.join " " (c :: (c' :: cs) ++ [w]))
    with (c +:+ " " +:+ Py.join " " ((c' :: cs) ++ [w])).
  rewrite IH by discriminate.
  change (Py.join " " (c :: c' :: cs)) with (c +:+ " " +:+ Py.join " " (c' :: cs)).
  generalize (Py.join " " (c' :: cs)). intros j.
  now rewrite !append_assoc.
Qed.

Lemma rstrip_app_token s w : is_token w = true -> Py.rstrip (s +:+ w) = s +:+ w.
Proof.
  intros Hw. induction s as [|c s IH].
  - apply rstrip_no_space, is_token_no_space, Hw.
  - change (String c s +:+ w) with (String c (s +:+ w)). cbn [Py.rstrip]. rewrite IH.
    destruct (s +:+ w) eqn:E; [|reflexivity].
    destruct s; [|discriminate]. change (w = "") in E. now rewrite E in Hw.
Qed.

Lemma join_tokens_nonempty cs :
  tokens cs -> cs <> [] ->
  exists c r, Py.join " " cs = String c r /\ Py.is_space c = false.
Proof.
  intros Ht Hne. destruct cs as [|w cs]; [congruence|].
  inversion Ht as [|? ? Hw _]; subst.
  destruct w as [|c w]; [discriminate|].
  simpl in Hw. apply andb_true_iff in Hw as [Hc _]. apply negb_true_iff in Hc.
  destruct cs; simpl; eauto.
Qed.

Lemma join_nil_iff cs : tokens cs -> (str_bool (Py.join " " cs) = false <-> cs = []).
Proof.
  intros Ht. split.
  - intros H. destruct cs as [|w cs]; [reflexivity|].
    destruct (join_tokens_nonempty (w :: cs) Ht) as (c & r & E & _); [discriminate|].
    rewrite E in H. discriminate.
  - intros ->. reflexivity.
Qed.

Lemma strip_test cs w :
  tokens cs -> is_token w = true ->
  Py.strip (Py.join " " cs +:+ " " +:+ w) = Py.join " " (cs ++ [w]).
Proof.
  intros Ht Hw. unfold Py.strip.
  assert (E : Py.join " " cs +:+ " " +:+ w = (Py.join " " cs +:+ " ") +:+ w).
  { now rewrite append_assoc. }
  rewrite E, rstrip_app_token by exact Hw. rewrite <- E.
  destruct cs as [|c0 cs].
  - change (Py.lstrip (String " " w) = w). cbn [Py.lstrip].
    change (Py.is_space " ") with true. cbv iota.
    apply lstrip_no_space, is_token_no_space, Hw.
  - rewrite join_snoc by discriminate.
    destruct (join_tokens_nonempty (c0 :: cs) Ht) as (c & r & Ej & Hc); [discriminate|].
    rewrite Ej. change (String c r +:+ " " +:+ w) with (String c (r +:+ " " +:+ w)).
    cbn [Py.lstrip]. now rewrite Hc.
Qed.

Lemma wrap_words_groups max_w words : forall groups cur,
  tokens words -> tokens cur ->
  wrap_words max_w words (map (Py.join " ") groups) (Py.join " " cur)
  = map (Py.join " ") (wrap_groups max_w words groups cur).
Proof.
  induction words as [|w words IH]; intros groups cur Hws Hcur.
  - cbn [wrap_words wrap_groups].
    destruct cur as [|c cur]; [reflexivity|].
    destruct (str_bool (Py.join " " (c :: cur))) eqn:E.
    + now rewrite map_app.
    + apply join_nil_iff in E; [discriminate | exact Hcur].
  - inversion Hws as [|? ? Hw Hws']; subst.
    cbn [wrap_words wrap_groups]. cbv zeta.
    rewrite strip_test by assumption.
    assert (Hcw : tokens (cur ++ [w])).
    { apply Forall_app. split; [exact Hcur | now constructor]. }
    destruct (approx_text_px (Py.join " " (cur ++ [w])) <=? max_w).
    + apply IH; assumption.
    + assert (Hg : (if str_bool (Py.join " " cur)
                    then map (Py.join " ") groups ++ [Py.join " " cur]
                    else map (Py.join " ") groups)
                   = map (Py.join " ")
                       (match cur with [] => groups | _ :: _ => groups ++ [cur] end)).
      { destruct cur as [|c cur]; [reflexivity|].
        destruct (str_bool (Py.join " " (c :: cur))) eqn:E.
        - now rewrite map_app.
        - apply join_nil_iff in E; [discriminate | exact Hcur]. }
      rewrite Hg. apply (IH _ [w]); [assumption | now repeat constructor].
Qed.

Lemma pending_app (groups : list (list string)) cur :
  match cur with [] => groups | _ :: _ => groups ++ [cur] end = groups ++ pending cur.
Proof. destruct cur; [now rewrite app_nil_r | reflexivity]. Qed.

Lemma wrap_groups_concat max_w words : forall groups cur,
  concat (wrap_groups max_w words groups cur) = concat groups ++ cur ++ words.
Proof.
  induction words as [|w words IH]; intros groups cur; cbn [wrap_groups].
  - rewrite app_nil_r. destruct cur; [now rewrite app_nil_r|].
    rewrite concat_app. cbn [concat]. now rewrite app_nil_r.
  - destruct (approx_text_px (Py.join " " (cur ++ [w])) <=? max_w); rewrite IH.
    + now rewrite <- app_assoc.
    + destruct cur; [reflexivity|].
      rewrite concat_app. cbn [concat]. rewrite app_nil_r, <- !app_assoc. reflexivity.
Qed.

Lemma wrap_groups_fit max_w words : forall groups cur,
  Forall (fits_or_single max_w) groups ->
  cur = [] \/ fits_or_single max_w cur ->
  Forall (fits_or_single max_w) (wrap_groups max_w words groups cur).
Proof.
  induction words as [|w words IH]; intros groups cur Hg Hc; cbn [wrap_groups].
  - destruct cur; [exact Hg|]. apply Forall_app. split; [exact Hg|].
    destruct Hc as [Hc|Hc]; [discriminate | constructor; [exact Hc | constructor]].
  - destruct (approx_text_px (Py.join " " (cur ++ [w])) <=? max_w) eqn:E.
    + apply IH; [exact Hg|]. right. split; [now destruct cur|]. left. lia.
    + apply IH.
      * destruct cur; [exact Hg|]. apply Forall_app. split; [exact Hg|].
        destruct Hc as [Hc|Hc]; [discriminate | constructor; [exact Hc | constructor]].
      * right. split; [discriminate | now right].
Qed.

Lemma greedy_app_change max_w groups g g' :
  hd_error g = hd_error g' ->
  greedy max_w (groups ++ [g]) -> greedy max_w (groups ++ [g']).
Proof.
  intros Hh. induction groups as [|a groups IH]; cbn [app greedy].
  - intros _. split; exact I.
  - intros [H1 H2]. split; [|now apply IH].
    destruct groups as [|b groups]; cbn [app] in *.
    + destruct g as [|x g]; destruct g' as [|x' g']; cbn in Hh; try discriminate;
        try exact I. injection Hh as <-. exact H1.
    + exact H1.
Qed.

Lemma greedy_snoc max_w groups g w :
  greedy max_w (groups ++ [g]) ->
  max_w < approx_text_px (Py.join " " (g ++ [w])) ->
  greedy max_w ((groups ++ [g]) ++ [[w]]).
Proof.
  intros Hg Hw. induction groups as [|a groups IH]; cbn [app greedy] in *.
  - split; [exact Hw|]. split; exact I.
  - destruct Hg as [H1 H2]. split; [|now apply IH].
    destruct groups as [|b groups]; cbn [app] in *; exact H1.
Qed.

Lemma wrap_groups_greedy max_w words : forall groups cur,
  (cur = [] -> groups = []) ->
  greedy max_w (groups ++ pending cur) ->
  greedy max_w (wrap_groups max_w words groups cur).
Proof.
  induction words as [|w words IH]; intros groups cur Hc Hg; cbn [wrap_groups].
  - now rewrite pending_app.
  - destruct (approx_text_px (Py.join " " (cur ++ [w])) <=? max_w) eqn:E.
    + apply IH; [now destruct cur|].
      destruct cur as [|c cur].
      * rewrite Hc by reflexivity. cbn. split; exact I.
      * cbn [pending app] in *.
        apply (greedy_app_change max_w groups (c :: cur)); [reflexivity | exact Hg].
    + apply IH; [discriminate|].
      destruct cur as [|c cur].
      * rewrite Hc by reflexivity. cbn. split; exact I.
      * cbn [pending] in *. apply greedy_snoc; [exact Hg | lia].
Qed.

Lemma lstrip_head s c r : Py.lstrip s = String c r -> Py.is_space c = false.
Proof.
  induction s as [|a s IH]; [discriminate|].
  cbn [Py.lstrip]. destruct (Py.is_space a) eqn:Ha; [exact IH|].
  now intros [= <- <-].
Qed.

Lemma split_nonempty c r : Py.is_space c = false -> Py.split (String c r) <> [].
Proof.
  intros Hc. cbn [Py.split]. rewrite Hc.
  destruct r as [|c' r']; [discriminate|].
  destruct (Py.is_space c'); [discriminate|].
  destruct (Py.split (String c' r')); discriminate.
Qed.

Lemma split_strip_nonempty text :
  str_bool (Py.strip text) = true -> Py.split (Py.strip text) <> [].
Proof.
  unfold Py.strip. destruct (Py.lstrip (Py.rstrip text)) as [|c r] eqn:E; [discriminate|].
  intros _. apply split_nonempty. exact (lstrip_head _ _ _ E).
Qed.

(** The lines of a wrap: what the loop leaves for a text with words. *)
Lemma wrap_words_spec max_w original :
  Py.split original <> [] ->
  exists first rest,
    wrap_words max_w (Py.split original) [] "" = map (Py.join " ") (first :: rest)
    /\ concat (first :: rest) = Py.split original
    /\ Forall (fits_or_single max_w) (first :: rest)
    /\ greedy max_w (first :: rest).
Proof.
  intros Hne.
  pose proof (wrap_words_groups max_w (Py.split original) [] [] (split_tokens original)
                ltac:(constructor)) as Hw.
  cbn [map Py.join] in Hw.
  pose proof (wrap_groups_concat max_w (Py.split original) [] []) as Hc.
  cbn [concat app] in Hc.
  pose proof (wrap_groups_fit max_w (Py.split original) [] [] ltac:(constructor)
                ltac:(now left)) as Hf.
  pose proof (wrap_groups_greedy max_w (Py.split original) [] [] ltac:(reflexivity) I)
    as Hg.
  destruct (wrap_groups max_w (Py.split original) [] []) as [|first rest].
  - cbn in Hc. congruence.
  - now exists first, rest.
Qed.

Lemma tagline_spans_lookup base_x base_y lines : forall i k line,
  lines !! k = Some line ->
  tagline_spans base_x base_y i lines !! k
  = Some (TaglineSpan base_x (Py.str (base_y + (i + Z.of_nat k) * 18)) line).
Proof.
  induction lines as [|l lines IH]; intros i k line Hk; [discriminate|].
  destruct k as [|k]; cbn [tagline_spans].
  - change (Some l = Some line) in Hk. injection Hk as ->.
    change (Some (TaglineSpan base_x (Py.str (base_y + i * 18)) line)
            = Some (TaglineSpan base_x (Py.str (base_y + (i + Z.of_nat 0) * 18)) line)).
    do 3 f_equal. lia.
  - change (lines !! k = Some line) in Hk.
    change (tagline_spans base_x base_y (i + 1) lines !! k
            = Some (TaglineSpan base_x (Py.str (base_y + (i + Z.of_nat (S k)) * 18)) line)).
    rewrite (IH (i + 1) k line Hk). do 3 f_equal. lia.
Qed.

Lemma tagline_spans_length base_x base_y lines : forall i,
  length (tagline_spans base_x base_y i lines) = length lines.
Proof. induction lines as [|l lines IH]; intros i; cbn; [reflexivity | now rewrite IH]. Qed.

Lemma approx_text_px_positive s : str_bool s = true <-> 0 < approx_text_px s.
Proof.
  unfold approx_text_px, Py.len, CHAR_WIDTH_PX.
  destruct s; cbn [str_bool String.eqb negb String.length]; split; intros H;
    try lia; try discriminate; reflexivity.
Qed.

(** X13.  When the tagline has a positive [data-max-width] and its
    stripped text is wider, [wrap_tagline] puts the first line in the
    element's text and one [tspan] per further line, at the element's
    [x] (default 30) and at [y + 18 * i] (default 380) for the [i]-th of
    them.  The lines are the words of the text in their order, joined
    by single blanks; no line is empty; a line is within the width
    unless it is a single word; and every line break was needed: the
    first word of a line would not have fitted at the end of the line
    before. *)
Theorem wrap_tagline_wraps_greedily t text attr max_w :
  tag_text t = Some text ->
  tag_max_width t = Some attr -> attr <> "" ->
  Py.int attr = Some max_w -> 0 < max_w ->
  max_w < approx_text_px (Py.strip text) ->
  let base_x := default "30" (tag_x t) in
  let base_y := default 380 (Py.int (default "380" (tag_y t))) in
  exists first rest,
    wrap_tagline (Some t)
    = Ok (Some {| tag_text := Some (Py.join " " first);
                  tag_max_width := tag_max_width t; tag_x := tag_x t; tag_y := tag_y t;
                  tag_children :=
                    tagline_spans base_x base_y 1 (map (Py.join " ") rest) |})
    /\ concat (first :: rest) = Py.split (Py.strip text)
    /\ Forall (fits_or_single max_w) (first :: rest)
    /\ greedy max_w (first :: rest)
    /\ (forall k g, rest !! k = Some g ->
          tagline_spans base_x base_y 1 (map (Py.join " ") rest) !! k
          = Some (TaglineSpan base_x (Py.str (base_y + (1 + Z.of_nat k) * 18))
                    (Py.join " " g))).
Proof.
  intros Htext Hattr Hne Hint Hpos Hwide. cbv zeta.
  assert (Hb : str_bool (Py.strip text) = true) by (apply approx_text_px_positive; lia).
  destruct (wrap_words_spec max_w (Py.strip text) (split_strip_nonempty _ Hb))
    as (first & rest & Hw & Hc & Hf & Hg).
  exists first, rest. split; [|split; [exact Hc|split; [exact Hf|split; [exact Hg|]]]].
  - unfold wrap_tagline. rewrite Htext, Hattr.
    assert (Ha : str_bool attr = true).
    { unfold str_bool. apply negb_true_iff. now apply String.eqb_neq. }
    cbv zeta. rewrite Ha, Hint. cbn [default from_option id].
    assert (E1 : (max_w <=? 0) = false) by lia. rewrite E1.
    rewrite Hb. cbn [negb].
    assert (E2 : (approx_text_px (Py.strip text) <=? max_w) = false) by lia.
    rewrite E2, Hw. reflexivity.
  - intros k g Hk. apply tagline_spans_lookup. now rewrite list_lookup_fmap, Hk.
Qed.

(** X14.  [wrap_tagline] never raises: [lines[0]] always exists.  It
    leaves the tagline as it is when the element or its text is
    missing, when [data-max-width] is missing, empty, not an integer or
    not positive, when the text is blank, and when the stripped text
    fits the width (the text is then not even stripped). *)
Theorem wrap_tagline_never_raises tag :
  (exists r, wrap_tagline tag = Ok r)
  /\ (forall t, tag = Some t ->
      (tag_text t = None -> wrap_tagline tag = Ok tag)
      /\ (tag_max_width t = None \/ tag_max_width t = Some "" ->
          wrap_tagline tag = Ok tag)
      /\ (forall attr, tag_max_width t = Some attr ->
            Py.int attr = None \/ (exists n, Py.int attr = Some n /\ n <= 0) ->
            wrap_tagline tag = Ok tag)
      /\ (forall text, tag_text t = Some text -> Py.strip text = "" ->
            wrap_tagline tag = Ok tag)
      /\ (forall text attr n,
            tag_text t = Some text -> tag_max_width t = Some attr ->
            Py.int attr = Some n -> approx_text_px (Py.strip text) <= n ->
            wrap_tagline tag = Ok tag))
  /\ (tag = None -> wrap_tagline tag = Ok None).
Proof.
  split; [|split].
  - destruct tag as [t|]; [|now eexists]. unfold wrap_tagline.
    destruct (tag_text t) as [text|]; [|now eexists]. cbv zeta.
    destruct (_ <=? 0); [now eexists|].
    destruct (str_bool (Py.strip text)) eqn:Hb; [|now eexists]. cbn [negb].
    destruct (approx_text_px (Py.strip text) <=? _); [now eexists|].
    match goal with |- context [wrap_words ?m _ _ _] =>
      destruct (wrap_words_spec m (Py.strip text) (split_strip_nonempty _ Hb))
        as (first & rest & -> & _) end.
    cbn [map]. now eexists.
  - intros t ->. unfold wrap_tagline.
    split; [now intros ->|]. split; [|split; [|split]].
    + intros [H|H]; rewrite H; now destruct (tag_text t).
    + intros attr Hattr Hint. rewrite Hattr. destruct (tag_text t); [|reflexivity].
      cbv zeta.
      assert (E : default 0 (Py.int (if str_bool attr then attr else "0")) <= 0).
      { destruct (str_bool attr).
        - destruct Hint as [->|(n & -> & Hn)]; cbn [default from_option id]; lia.
        - change (Py.int "0") with (Some 0). cbn [default from_option id]. lia. }
      apply Z.leb_le in E. now rewrite E.
    + intros text Htext Hs. rewrite Htext, Hs. cbv zeta.
      destruct (_ <=? 0); reflexivity.
    + intros text attr n Htext Hattr Hint Hfit. rewrite Htext, Hattr. cbv zeta.
      assert (Ha : str_bool attr = true).
      { destruct attr; [discriminate Hint | reflexivity]. }
      rewrite Ha, Hint. cbn [default from_option id].
      destruct (n <=? 0); [reflexivity|].
      destruct (negb (str_bool (Py.strip text))); [reflexivity|].
      apply Z.leb_le in Hfit. now rewrite Hfit.
  - now intros ->.
Qed.

(** ** The stat lines of the container *)

(** X10.  The two stat lines of the container.  The first line, at
    [y_base], holds Repos, Contrib and Stars; the second, at
    [y_base + 20], Commits and Followers.  A segment is as wide as
    9 pixels per character of its label with [": "] and of its value;
    the first label of a line is at [x_base] and each further label
    follows the segment before it after a gap that shares out what is
    left of 570 pixels.  The gaps are never negative, so segments do not
    overlap; a line whose texts take at most 570 pixels ends within one
    pixel of [x_base + 570]; a wider line has no gaps and runs over. *)
Theorem stat_lines_layout v x_base y_base repos contrib stars commits followers :
  v !! "repos" = Some repos -> v !! "contrib" = Some contrib ->
  v !! "stars" = Some stars -> v !! "commits" = Some commits ->
  v !! "followers" = Some followers ->
  let width := fun label value => approx_text_px (label +:+ ": ") + approx_text_px value in
  let w1 := width "Repos" repos in
  let w2 := width "Contrib" contrib in
  let w3 := width "Stars" stars in
  let w4 := width "Commits" commits in
  let w5 := width "Followers" followers in
  let gap1 := Z.max 0 (AVAILABLE_STATS_WIDTH_PX - (w1 + w2 + w3)) / 2 in
  let gap2 := Z.max 0 (AVAILABLE_STATS_WIDTH_PX - (w4 + w5)) in
  (forall st,
     build_lines v x_base y_base 0 line_defs st
     = (Ok [ Tspan (Some (Py.str x_base)) (Some (Py.str y_base)) "keyColor" None "Repos:";
             Tspan None None "valueColor" (Some "repo_data") repos;
             Tspan (Some (Py.str (x_base + w1 + gap1))) (Some (Py.str y_base))
               "keyColor" None "Contrib:";
             Tspan None None "valueColor" (Some "contrib_data") contrib;
             Tspan (Some (Py.str (x_base + w1 + gap1 + w2 + gap1))) (Some (Py.str y_base))
               "keyColor" None "Stars:";
             Tspan None None "valueColor" (Some "star_data") stars;
             Tspan (Some (Py.str x_base)) (Some (Py.str (y_base + 20))) "keyColor" None
               "Commits:";
             Tspan None None "valueColor" (Some "commit_data") commits;
             Tspan (Some (Py.str (x_base + w4 + gap2))) (Some (Py.str (y_base + 20)))
               "keyColor" None "Followers:";
             Tspan None None "valueColor" (Some "follower_data") followers ], st))
  /\ 0 <= gap1 /\ 0 <= gap2
  /\ (w1 + w2 + w3 <= AVAILABLE_STATS_WIDTH_PX ->
      AVAILABLE_STATS_WIDTH_PX - 1 <= w1 + gap1 + w2 + gap1 + w3 <= AVAILABLE_STATS_WIDTH_PX)
  /\ (w4 + w5 <= AVAILABLE_STATS_WIDTH_PX -> w4 + gap2 + w5 = AVAILABLE_STATS_WIDTH_PX)
  /\ (AVAILABLE_STATS_WIDTH_PX <= w1 + w2 + w3 -> gap1 = 0)
  /\ (AVAILABLE_STATS_WIDTH_PX <= w4 + w5 -> gap2 = 0).
Proof.
  intros Hr Hc Hs Hm Hf. cbv zeta. split.
  - intros st. unfold line_defs. cbn [build_lines measure_segments].
    rewrite Hr, Hc, Hs, Hm, Hf. unfold getitem, bind, ret.
    cbn [place_segments app length].
    change (Py.rstrip ("Repos" +:+ ": ")) with "Repos:".
    change (Py.rstrip ("Contrib" +:+ ": ")) with "Contrib:".
    change (Py.rstrip ("Stars" +:+ ": ")) with "Stars:".
    change (Py.rstrip ("Commits" +:+ ": ")) with "Commits:".
    change (Py.rstrip ("Followers" +:+ ": ")) with "Followers:".
    change (0 <? Z.of_nat 3 - 1) with true. change (0 <? Z.of_nat 2 - 1) with true.
    change (Z.of_nat 3 - 1) with 2. change (Z.of_nat 2 - 1) with 1.
    cbv iota. rewrite Z.div_1_r.
    replace (y_base + 0 * 20) with y_base by lia.
    replace (y_base + (0 + 1) * 20) with (y_base + 20) by lia.
    rewrite !Z.add_0_l. reflexivity.
  - set (t1 := approx_text_px ("Repos" +:+ ": ") + approx_text_px repos
               + (approx_text_px ("Contrib" +:+ ": ") + approx_text_px contrib)
               + (approx_text_px ("Stars" +:+ ": ") + approx_text_px stars)).
    set (t2 := approx_text_px ("Commits" +:+ ": ") + approx_text_px commits
               + (approx_text_px ("Followers" +:+ ": ") + approx_text_px followers)).
    set (r1 := Z.max 0 (AVAILABLE_STATS_WIDTH_PX - t1)).
    pose proof (Z.div_mod r1 2 ltac:(lia)) as Hd.
    pose proof (Z.mod_pos_bound r1 2 ltac:(lia)) as Hb.
    assert (H0 : 0 <= r1 / 2) by (apply Z.div_pos; lia).
    unfold AVAILABLE_STATS_WIDTH_PX in *.
    repeat split; lia.
Qed.

Lemma format_stat_Ok stats key st s st' :
  format_stat stats key st = (Ok s, st') ->
  st' = st /\ exists n, default (VInt 0) (stats !! key) = VInt n /\ s = Py.format_int n.
Proof.
  unfold format_stat. destruct (default (VInt 0) (stats !! key)) as [n|t]; cbn;
    intros [= <- <-] || intros [=]. split; [reflexivity | now exists n].
Qed.

Lemma measure_segments_Ok v segments : forall infos total st infos' total' st',
  measure_segments v segments infos total st = (Ok (infos', total'), st') ->
  st' = st /\ length infos' = (length infos + length segments)%nat.
Proof.
  induction segments as [|[[label id_attr] key] segments IH];
    intros infos total st infos' total' st' H.
  - cbn in H. injection H as <- <- <-. split; [reflexivity | cbn; lia].
  - cbn [measure_segments] in H. apply bind_Ok in H as (value & s1 & Hg & H).
    apply getitem_Ok in Hg as [_ ->].
    apply IH in H as [-> ->]. split; [reflexivity|]. rewrite length_app. cbn. lia.
Qed.

Lemma place_segments_length infos : forall x y gap,
  length (place_segments infos x y gap) = (2 * length infos)%nat.
Proof.
  induction infos as [|[[[l t] i] w] infos IH]; intros x y gap; cbn [place_segments length];
    [reflexivity|]. rewrite IH. lia.
Qed.

Lemma build_lines_length v x_base y_base lines : forall line_index st spans st',
  build_lines v x_base y_base line_index lines st = (Ok spans, st') ->
  st' = st /\ length spans = (2 * length (concat lines))%nat.
Proof.
  induction lines as [|segments lines IH]; intros line_index st spans st' H.
  - cbn in H. injection H as <- <-. now split.
  - cbn [build_lines] in H.
    apply bind_Ok in H as ([infos total] & s1 & Hm & H).
    apply measure_segments_Ok in Hm as [-> Hl].
    apply bind_Ok in H as (below & s2 & Hb & H).
    apply IH in Hb as [-> Hbl]. cbn in H. injection H as <- <-.
    split; [reflexivity|].
    rewrite length_app, place_segments_length, Hbl, Hl. cbn [concat].
    rewrite length_app. cbn [length]. lia.
Qed.

Lemma pure_ret {A} (a : A) : pure (ret a).
Proof. now intros st st0. Qed.

Lemma pure_raise {A} e : pure (@raise A e).
Proof. now intros st st0. Qed.

Lemma pure_bind {A B} (c : M A) (k : A -> M B) :
  pure c -> (forall a, pure (k a)) -> pure (bind c k).
Proof.
  intros Hc Hk st st0. unfold bind.
  rewrite (Hc st st0), (Hc st st). cbn [fst snd].
  destruct (fst (c st)) as [a|e|]; [|reflexivity..].
  rewrite (Hk a st st0), (Hk a st st). reflexivity.
Qed.

Lemma pure_getitem {A} key (o : option A) : pure (getitem key o).
Proof. destruct o; [apply pure_ret | apply pure_raise]. Qed.

Lemma pure_int_of s : pure (int_of s).
Proof. unfold int_of. destruct (Py.int s); [apply pure_ret | apply pure_raise]. Qed.

Lemma pure_format_stat stats key : pure (format_stat stats key).
Proof.
  unfold format_stat. destruct (default (VInt 0) (stats !! key));
    [apply pure_ret | apply pure_raise].
Qed.

Lemma pure_measure_segments v segments : forall infos total,
  pure (measure_segments v segments infos total).
Proof.
  induction segments as [|[[label id_attr] key] segments IH]; intros infos total;
    cbn [measure_segments]; [apply pure_ret|].
  apply pure_bind; [apply pure_getitem|]. intros value. apply IH.
Qed.

Lemma pure_build_lines v x_base y_base lines : forall line_index,
  pure (build_lines v x_base y_base line_index lines).
Proof.
  induction lines as [|segments lines IH]; intros line_index; cbn [build_lines];
    [apply pure_ret|].
  apply pure_bind; [apply pure_measure_segments|]. intros [infos total].
  apply pure_bind; [apply IH|]. intros below. apply pure_ret.
Qed.

Lemma pure_build_stats_container container stats :
  pure (build_stats_container container stats).
Proof.
  unfold build_stats_container. destruct container as [c|]; [|apply pure_ret].
  apply pure_bind; [apply pure_int_of|]. intros x.
  apply pure_bind; [apply pure_int_of|]. intros y.
  do 5 (apply pure_bind; [apply pure_format_stat|]; intros ?).
  cbv zeta. apply pure_bind.
  - destruct (bool_decide _).
    + do 3 (apply pure_bind; [apply pure_format_stat|]; intros ?). apply pure_ret.
    + apply pure_ret.
  - intros v. apply pure_bind; [apply pure_build_lines|]. intros ls.
    do 3 (apply pure_bind; [apply pure_getitem|]; intros ?). apply pure_ret.
Qed.

(** X11.  [build_stats_container] rebuilds the container from scratch:
    what it returns depends only on the [x] and [y] attributes and on
    the statistics, not on the children it found nor on the process
    state, which it leaves alone; the container keeps its attributes
    and has 17 children; and building again over the result changes
    nothing. *)
Theorem build_stats_container_rebuilds c stats st c' st' :
  build_stats_container (Some c) stats st = (Ok (Some c'), st') ->
  st' = st
  /\ attr_x c' = attr_x c /\ attr_y c' = attr_y c
  /\ length (children c') = 17%nat
  /\ (forall old st0,
        build_stats_container (Some (Element (attr_x c) (attr_y c) old)) stats st0
        = (Ok (Some c'), st0))
  /\ build_stats_container (Some c') stats st' = (Ok (Some c'), st').
Proof.
  intros H.
  assert (Hpure : forall st0, build_stats_container (Some c) stats st0 = (Ok (Some c'), st0)).
  { intros st0. rewrite (pure_build_stats_container (Some c) stats st st0). now rewrite H. }
  assert (Hst : st' = st).
  { pose proof (Hpure st) as H0. rewrite H in H0. now injection H0. }
  assert (Hshape : attr_x c' = attr_x c /\ attr_y c' = attr_y c
                   /\ length (children c') = 17%nat).
  { unfold build_stats_container in H.
    apply bind_Ok in H as (x & s1 & _ & H). apply bind_Ok in H as (y & s2 & _ & H).
    do 5 (apply bind_Ok in H as (? & ? & _ & H)). cbv zeta in H.
    apply bind_Ok in H as (v & s3 & _ & H).
    apply bind_Ok in H as (ls & s4 & Hl & H).
    apply build_lines_length in Hl as [_ Hlen].
    do 3 (apply bind_Ok in H as (? & ? & _ & H)).
    cbn in H. injection H as <- _. cbn [attr_x attr_y children].
    repeat split. rewrite length_app, Hlen. reflexivity. }
  destruct Hshape as (Hx & Hy & Hlen).
  assert (Hold : forall old st0,
            build_stats_container (Some (Element (attr_x c) (attr_y c) old)) stats st0
            = (Ok (Some c'), st0)).
  { intros old st0. rewrite <- (Hpure st0). now destruct c. }
  split; [exact Hst|]. split; [exact Hx|]. split; [exact Hy|]. split; [exact Hlen|].
  split; [exact Hold|].
  destruct c' as [x' y' ch']. cbn [attr_x attr_y] in Hx, Hy. subst x' y'. apply Hold.
Qed.

Lemma limits_applied repos contrib stars commits followers loc_net loc_add loc_del :
  let v := apply_limits MAX_VALUE_CHAR
             (<["loc_del" := loc_del]> (<["loc_add" := loc_add]> (<["loc_net" := loc_net]>
             (<["followers" := followers]> (<["commits" := commits]>
             (<["stars" := stars]> (<["contrib" := contrib]>
             (<["repos" := repos]> ∅)))))))) in
  v !! "repos" = Some (truncate_text repos 8)
  /\ v !! "contrib" = Some (truncate_text contrib 8)
  /\ v !! "stars" = Some (truncate_text stars 10)
  /\ v !! "commits" = Some (truncate_text commits 12)
  /\ v !! "followers" = Some (truncate_text followers 10)
  /\ v !! "loc_net" = Some (truncate_text loc_net 15)
  /\ v !! "loc_add" = Some (truncate_text loc_add 10)
  /\ v !! "loc_del" = Some (truncate_text loc_del 10).
Proof. cbn zeta. repeat split; vm_compute; reflexivity. Qed.

Lemma main_heavy fuel st stats st' :
  DO_HEAVY = true ->
  main fuel st = (Ok stats, st') ->
  exists age_str owned_repos stars contrib_repos followers commits loc_add loc_del,
    stats = <["loc_net" := VInt (loc_add - loc_del)]> (<["loc_del" := VInt loc_del]>
            (<["loc_add" := VInt loc_add]>
            (<["commits" := VInt commits]> (<["followers" := VInt followers]>
            (<["contrib" := VInt contrib_repos]> (<["stars" := VInt stars]>
            (<["repos" := VInt owned_repos]> (<["age" := VStr age_str]> ∅)))))))).
Proof.
  intros Hheavy H. unfold main in H. rewrite Hheavy in H.
  apply bind_Ok in H as ([user_id created] & s1 & _ & H).
  apply bind_Ok in H as (age_str & s2 & _ & H).
  apply bind_Ok in H as ([[owned_repos stars] contrib_repos] & s3 & _ & H).
  apply bind_Ok in H as (followers & s4 & _ & H).
  apply bind_Ok in H as ([[[commits loc_add] loc_del] loc_net] & s5 & Hh & H).
  apply heavy_stats_Ok in Hh as (? & ? & ? & ? & ? & ? & its & ? & _ & _ & _ & _ & _ & _
                                 & _ & _ & Hr).
  injection Hr as -> -> -> ->. injection H as <- <-.
  now eexists _, _, _, _, _, _, _, _.
Qed.

(** X12.  With heavy mode on, the record [main] assembles has
    [commits], [loc_add] and [loc_del] from [heavy_stats] and
    [loc_net = loc_add - loc_del]; and the lines-of-code line of the
    container shows the net count with thousands separators, the
    additions after a ["+"] and the deletions after a ["-"], cut to
    15, 10 and 10 characters. *)
Theorem heavy_mode_shows_loc fuel st stats st' c x_base y_base st0 :
  DO_HEAVY = true ->
  main fuel st = (Ok stats, st') ->
  Py.int (default "370" (attr_x c)) = Some x_base ->
  Py.int (default "580" (attr_y c)) = Some y_base ->
  exists commits loc_add loc_del,
    stats !! "commits" = Some (VInt commits)
    /\ stats !! "loc_add" = Some (VInt loc_add)
    /\ stats !! "loc_del" = Some (VInt loc_del)
    /\ stats !! "loc_net" = Some (VInt (loc_add - loc_del))
    /\ exists stat_lines,
         build_stats_container (Some c) stats st0
         = (Ok (Some {| attr_x := attr_x c; attr_y := attr_y c;
                        children :=
                          stat_lines ++
                          [ Tspan (Some (Py.str x_base)) (Some (Py.str (y_base + 40)))
                              "keyColor" None "Lines of Code:";
                            Tspan None None "valueColor" (Some "loc_data")
                              (truncate_text (Py.format_int (loc_add - loc_del)) 15);
                            Tspan None None "valueColor" None " (";
                            Tspan None None "addColor" (Some "loc_add")
                              (truncate_text ("+" +:+ Py.format_int loc_add) 10);
                            Tspan None None "valueColor" None ", ";
                            Tspan None None "delColor" (Some "loc_del")
                              (truncate_text ("-" +:+ Py.format_int loc_del) 10);
                            Tspan None None "valueColor" None ")" ] |}), st0).
Proof.
  intros Hheavy Hmain Hx Hy.
  destruct (main_heavy _ _ _ _ Hheavy Hmain)
    as (age_str & owned & stars & contrib & followers & commits & add & del & ->).
  exists commits, add, del.
  split; [reflexivity|]. split; [reflexivity|]. split; [reflexivity|].
  split; [reflexivity|].
  unfold build_stats_container, int_of. rewrite Hx, Hy.
  unfold bind at 1. cbn [ret]. unfold bind at 1. cbn [ret].
  set (stats := <["loc_net" := VInt (add - del)]> _).
  assert (Hrepos : forall s, format_stat stats "repos" s = (Ok (Py.format_int owned), s))
    by reflexivity.
  assert (Hcontrib : forall s, format_stat stats "contrib" s
                               = (Ok (Py.format_int contrib), s)) by reflexivity.
  assert (Hstars : forall s, format_stat stats "stars" s = (Ok (Py.format_int stars), s))
    by reflexivity.
  assert (Hcommits : forall s, format_stat stats "commits" s
                               = (Ok (Py.format_int commits), s)) by reflexivity.
  assert (Hfollowers : forall s, format_stat stats "followers" s
                                 = (Ok (Py.format_int followers), s)) by reflexivity.
  assert (Hnet : forall s, format_stat stats "loc_net" s
                           = (Ok (Py.format_int (add - del)), s)) by reflexivity.
  assert (Hadd : forall s, format_stat stats "loc_add" s = (Ok (Py.format_int add), s))
    by reflexivity.
  assert (Hdel : forall s, format_stat stats "loc_del" s = (Ok (Py.format_int del), s))
    by reflexivity.
  rewrite (bind_step _ _ _ _ _ (Hrepos st0)).
  rewrite (bind_step _ _ _ _ _ (Hcontrib st0)).
  rewrite (bind_step _ _ _ _ _ (Hstars st0)).
  rewrite (bind_step _ _ _ _ _ (Hcommits st0)).
  rewrite (bind_step _ _ _ _ _ (Hfollowers st0)).
  cbn zeta.
  assert (Hyes : bool_decide (is_Some (stats !! "loc_net")) = true).
  { apply bool_decide_eq_true_2. now eexists. }
  rewrite Hyes.
  unfold bind at 1. rewrite (bind_step _ _ _ _ _ (Hnet st0)).
  rewrite (bind_step _ _ _ _ _ (Hadd st0)). rewrite (bind_step _ _ _ _ _ (Hdel st0)).
  cbn [ret].
  destruct (limits_applied (Py.format_int owned) (Py.format_int contrib)
              (Py.format_int stars) (Py.format_int commits) (Py.format_int followers)
              (Py.format_int (add - del)) ("+" +:+ Py.format_int add)
              ("-" +:+ Py.format_int del))
    as (H1 & H2 & H3 & H4 & H5 & H6 & H7 & H8).
  cbn zeta in *.
  destruct (build_lines_Ok _ x_base y_base (mk_is_Some _ _ H1) (mk_is_Some _ _ H2)
              (mk_is_Some _ _ H3) (mk_is_Some _ _ H4) (mk_is_Some _ _ H5))
    as (stat_lines & Hlines).
  exists stat_lines.
  rewrite (bind_step _ _ _ _ _ (Hlines st0)).
  rewrite H6, H7, H8. reflexivity.
Qed.

(** ** The cache file, line by line *)


Lemma iterations_entries fuel repos repo_lines i todo its st st' :
  iterations fuel repos repo_lines i todo its st st' ->
  exists entries,
    map entry_fields (map fst its) = map Some entries
    /\ map ce_hash entries = map (fun full => hexdigest (sha256 full)) todo
    /\ map ce_my entries = map my_of its
    /\ map ce_add entries = map adds_of its
    /\ map ce_del entries = map dels_of its.
Proof.
  induction 1 as [|i full todo line my adds dels its st st1 st' He _ IH].
  - now exists [].
  - destruct IH as (entries & H1 & H2 & H3 & H4 & H5).
    apply heavy_entry_Entry in He as (owner & repo & total & s1 & _ & _ & ->).
    exists (CacheEntry (hexdigest (sha256 full)) total my adds dels :: entries).
    cbn [map fst ce_hash ce_my ce_add ce_del my_of adds_of dels_of snd].
    rewrite entry_fields_entry_line by apply hexdigest_is_token.
    now rewrite H1, H2, H3, H4, H5.
Qed.

Lemma drop_rewritten (lines updated : list string) :
  length (drop CACHE_COMMENT_LINES lines) = length updated ->
  drop CACHE_COMMENT_LINES (take CACHE_COMMENT_LINES lines ++ updated) = updated.
Proof.
  intros Hlen. destruct updated as [|u updated].
  - rewrite app_nil_r. apply drop_ge. rewrite length_take. lia.
  - apply drop_header. rewrite length_take. rewrite length_drop in Hlen. cbn in Hlen.
    unfold CACHE_COMMENT_LINES in *. lia.
Qed.

(** X5.  A cache line as the program writes it, for any fingerprint and
    any four integers, negative ones included, reads back as these five
    fields the way [heavy_stats] reads lines; so does the zeroed line of
    a rebuild.  A fingerprint has 64 characters. *)
Theorem cache_entry_round_trip v t m a d :
  entry_fields (entry_line (hexdigest v) t m a d) = Some (CacheEntry (hexdigest v) t m a d)
  /\ (forall full,
        entry_fields (zeroed_entry full)
        = Some (CacheEntry (hexdigest (sha256 full)) 0 0 0 0))
  /\ String.length (hexdigest v) = 64%nat.
Proof.
  split; [apply entry_fields_entry_line, hexdigest_is_token|]. split.
  - intros full. rewrite zeroed_entry_line.
    apply entry_fields_entry_line, hexdigest_is_token.
  - unfold hexdigest. now rewrite hex_digits_length.
Qed.

(** X6.  Take a pass of [heavy_stats] that has come to an entry with
    the expected fingerprint whose stored total differs from the total
    the probe returns.  The entry is rescanned, and when the remaining
    entries are done [heavy_stats] returns sums to which the entry has
    added the three counts of the scan, and has rewritten the entry
    with the fingerprint, the total of the probe made by the loop and
    those counts; the stored counts are never read, so they need not be
    integers.  The scan starts with a probe of its own, whose total is
    dropped. *)
Theorem stale_entry_is_rescanned fuel login st lines pre full todo its st3
    line h pt pm pa pd owner repo total cached st4 total2 my adds dels st5 its' st6 :
  pass_at fuel login st (pre ++ full :: todo) lines pre its st3 ->
  drop CACHE_COMMENT_LINES lines !! length pre = Some line ->
  Py.split line = [h; pt; pm; pa; pd] ->
  h = hexdigest (sha256 full) ->
  Py.split_on "/" full = [owner; repo] ->
  get_repo_commit_total owner repo st3 = (Ok total, st4) ->
  Py.int pt = Some cached -> total <> cached ->
  scan_repo_history fuel owner repo st4 = (Ok (total2, my, adds, dels), st5) ->
  iterations fuel (pre ++ full :: todo) (drop CACHE_COMMENT_LINES lines)
    (S (length pre)) todo its' st5 st6 ->
  heavy_stats (S fuel) login st
  = (Ok (sumZ (map my_of its) + my + sumZ (map my_of its'),
         sumZ (map adds_of its) + adds + sumZ (map adds_of its'),
         sumZ (map dels_of its) + dels + sumZ (map dels_of its'),
         sumZ (map adds_of its) + adds + sumZ (map adds_of its')
         - (sumZ (map dels_of its) + dels + sumZ (map dels_of its'))),
     set_cache (Some (take CACHE_COMMENT_LINES lines ++ map fst its
                      ++ entry_line h total my adds dels :: map fst its')) st6)
  /\ entry_fields (entry_line h total my adds dels) = Some (CacheEntry h total my adds dels)
  /\ (exists s, get_repo_commit_total owner repo st4 = (Ok total2, s)).
Proof.
  intros Hpass Hline Hsplit Hh Hfull Hprobe Hpt Hne Hscan Hits'.
  assert (He : heavy_entry fuel (pre ++ full :: todo) (drop CACHE_COMMENT_LINES lines)
                 (length pre) full st3
               = (Ok (Entry (entry_line h total my adds dels) my adds dels), st5)).
  { rewrite (heavy_entry_probed _ _ _ _ _ _ _ _ _ _ _ _ _ _ _ _
               Hline Hsplit Hh Hfull Hprobe).
    unfold int_of. rewrite Hpt. unfold bind at 1. cbn [ret].
    assert (E : (total =? cached) = false) by lia. rewrite E.
    unfold bind at 1. unfold bind at 1. rewrite Hscan. reflexivity. }
  split; [|split].
  - apply (pass_at_returns _ _ _ _ _ _ _ _ _ _ _ _ _ _ _ _ Hpass He Hits').
  - subst h. apply entry_fields_entry_line, hexdigest_is_token.
  - unfold scan_repo_history in Hscan.
    apply bind_Ok in Hscan as (t & s & Hp & H). exists s.
    destruct (t =? 0) eqn:Ht.
    + injection H as <- _ _ _ _. apply Z.eqb_eq in Ht. now subst t.
    + apply bind_Ok in H as ([[m0 a0] d0] & s' & _ & H). injection H as <- _ _ _ _.
      exact Hp.
Qed.

(** X7.  When [heavy_stats] returns, the net count is the additions
    minus the deletions, and the cache file it leaves holds, after the
    header, one line per repository of the listing it worked on, in
    listing order, each of which reads back as the fingerprint of the
    repository and four integers; the commits, additions and deletions
    returned are the sums of the corresponding columns of the file. *)
Theorem heavy_stats_totals_match_cache fuel login st my add del net st' :
  heavy_stats fuel login st = (Ok (my, add, del, net), st') ->
  net = add - del
  /\ exists fuel0 s0 s1 listed lines entries,
       collect_repo_full_names fuel0 login s0 = (Ok listed, s1)
       /\ CACHE_FILE st' = Some lines
       /\ map entry_fields (drop CACHE_COMMENT_LINES lines) = map Some entries
       /\ map ce_hash entries = map (fun full => hexdigest (sha256 full)) listed
       /\ my = sumZ (map ce_my entries)
       /\ add = sumZ (map ce_add entries)
       /\ del = sumZ (map ce_del entries).
Proof.
  intros H.
  apply heavy_stats_Ok in H
    as (fuel0 & s0 & listed & s1 & s2 & lines & its & s3
        & _ & _ & Hl & _ & _ & Hlen & Hits & -> & Hr).
  injection Hr as -> -> -> ->. split; [reflexivity|].
  destruct (iterations_entries _ _ _ _ _ _ _ _ Hits) as (entries & H1 & H2 & H3 & H4 & H5).
  exists fuel0, s0, s1, listed, (take CACHE_COMMENT_LINES lines ++ map fst its), entries.
  split; [exact Hl|]. split; [reflexivity|].
  rewrite drop_rewritten.
  - rewrite H3, H4, H5. now repeat split.
  - rewrite length_map, (iterations_length _ _ _ _ _ _ _ _ Hits). exact Hlen.
Qed.

(** ** What a run that fails leaves behind *)

#[local] Instance same_cache_refl : Reflexive same_cache.
Proof. now intros st. Qed.

#[local] Instance same_cache_trans : Transitive same_cache.
Proof. unfold same_cache. intros s1 s2 s3 H1 H2. congruence. Qed.

Lemma keeps_ret {A} R `{!Reflexive R} (a : A) : keeps R (ret a).
Proof. intros st. reflexivity. Qed.

Lemma keeps_raise {A} R `{!Reflexive R} e : keeps R (@raise A e).
Proof. intros st. reflexivity. Qed.

Lemma keeps_hang {A} R `{!Reflexive R} : keeps R (@hang A).
Proof. intros st. reflexivity. Qed.

Lemma keeps_bind {A B} R `{!Transitive R} (c : M A) (k : A -> M B) :
  keeps R c -> (forall a, keeps R (k a)) -> keeps R (bind c k).
Proof.
  intros Hc Hk st. unfold bind. specialize (Hc st).
  destruct (c st) as [[a|e|] s1]; cbn [snd] in *; [|exact Hc..].
  etransitivity; [exact Hc | apply Hk].
Qed.

Lemma keeps_getitem {A} R `{!Reflexive R} key (o : option A) : keeps R (getitem key o).
Proof. destruct o; [apply keeps_ret | apply keeps_raise]; assumption. Qed.

Lemma keeps_int_of R `{!Reflexive R} s : keeps R (int_of s).
Proof. unfold int_of. destruct (Py.int s); [apply keeps_ret | apply keeps_raise]; assumption. Qed.

Lemma keeps_user_repositories R `{!Reflexive R} d : keeps R (user_repositories d).
Proof.
  unfold user_repositories. destruct (data d); (apply keeps_ret || apply keeps_raise);
    assumption.
Qed.

Lemma keeps_repository_defaultBranchRef R `{!Reflexive R} d :
  keeps R (repository_defaultBranchRef d).
Proof.
  unfold repository_defaultBranchRef.
  destruct (data d); (apply keeps_ret || apply keeps_raise); assumption.
Qed.

Lemma keeps_tally_edges R `{!Reflexive R} es acc : keeps R (tally_edges es acc).
Proof. intros st. rewrite tally_edges_spec. reflexivity. Qed.

Lemma same_cache_count_query name : keeps same_cache (count_query name).
Proof. intros st. unfold count_query. now destruct (QUERY_COUNT st !! name). Qed.

Lemma same_cache_gql query tag : keeps same_cache (gql query tag).
Proof. intros st. apply (gql_same_files query tag st). Qed.

Lemma same_cache_get_repo_commit_total owner repo :
  keeps same_cache (get_repo_commit_total owner repo).
Proof.
  unfold get_repo_commit_total.
  apply keeps_bind; [apply _ | apply same_cache_count_query|]. intros _.
  apply keeps_bind; [apply _ | apply same_cache_gql|]. intros d.
  apply keeps_bind; [apply _ | apply keeps_repository_defaultBranchRef; apply _|].
  intros [h|]; [apply keeps_getitem | apply keeps_ret]; apply _.
Qed.

Lemma same_cache_history_pages fuel : forall owner repo after acc,
  keeps same_cache (history_pages fuel owner repo after acc).
Proof.
  induction fuel as [|fuel IH]; intros owner repo after acc; cbn [history_pages];
    [apply keeps_hang; apply _|].
  apply keeps_bind; [apply _ | apply same_cache_count_query|]. intros _.
  apply keeps_bind; [apply _ | apply same_cache_gql|]. intros d.
  apply keeps_bind; [apply _ | apply keeps_repository_defaultBranchRef; apply _|].
  intros [h|]; [|apply keeps_ret; apply _].
  apply keeps_bind; [apply _ | apply keeps_getitem; apply _|]. intros es.
  apply keeps_bind; [apply _ | apply keeps_tally_edges; apply _|]. intros acc1.
  apply keeps_bind; [apply _ | apply keeps_getitem; apply _|]. intros pi.
  destruct (negb (hasNextPage pi)); [apply keeps_ret; apply _ | apply IH].
Qed.

Lemma same_cache_scan_repo_history fuel owner repo :
  keeps same_cache (scan_repo_history fuel owner repo).
Proof.
  unfold scan_repo_history.
  apply keeps_bind; [apply _ | apply same_cache_get_repo_commit_total|]. intros total.
  destruct (total =? 0); [apply keeps_ret; apply _|].
  apply keeps_bind; [apply _ | apply same_cache_history_pages|]. intros [[m a] d].
  apply keeps_ret; apply _.
Qed.

Lemma keeps_append_names R `{!Reflexive R} `{!Transitive R} es : forall names,
  keeps R (append_names es names).
Proof.
  induction es as [|e es IH]; intros names; cbn [append_names]; [now apply keeps_ret|].
  apply keeps_bind; [assumption | now apply keeps_getitem|]. intros name. apply IH.
Qed.

Lemma same_cache_list_pages fuel : forall login after names,
  keeps same_cache (list_pages fuel login after names).
Proof.
  induction fuel as [|fuel IH]; intros login after names; cbn [list_pages];
    [apply keeps_hang; apply _|].
  apply keeps_bind; [apply _ | apply same_cache_count_query|]. intros _.
  apply keeps_bind; [apply _ | apply same_cache_gql|]. intros d.
  apply keeps_bind; [apply _ | apply keeps_user_repositories; apply _|]. intros rs.
  apply keeps_bind; [apply _ | apply keeps_getitem; apply _|]. intros es.
  apply keeps_bind; [apply _ | apply keeps_append_names; apply _|]. intros names'.
  destruct (negb (hasNextPage (repos_pageInfo rs))); [apply keeps_ret; apply _ | apply IH].
Qed.

Lemma init_cache_cases repos st :
  (FORCE_CACHE = false /\ init_cache_if_needed repos st = (Ok tt, st))
  \/ exists hdr,
       length hdr = CACHE_COMMENT_LINES
       /\ init_cache_if_needed repos st
          = (Ok tt, set_cache (Some (hdr ++ map zeroed_entry repos)) (snd (utcnow st))).
Proof.
  destruct (CACHE_FILE st) as [lines|] eqn:Hc;
    [|right; apply init_cache_rebuilds; right; now left].
  destruct (decide (length (drop CACHE_COMMENT_LINES lines) = length repos)) as [Hl|Hl];
    [|right; apply init_cache_rebuilds; right; right; now exists lines].
  destruct FORCE_CACHE eqn:Hf; [right; apply init_cache_rebuilds; now left|].
  left. split; [reflexivity|]. now apply (init_cache_keeps repos st lines).
Qed.

Lemma init_cache_cache repos st :
  same_cache st (snd (init_cache_if_needed repos st))
  \/ rebuilt (CACHE_FILE (snd (init_cache_if_needed repos st))).
Proof.
  destruct (init_cache_cases repos st) as [[_ ->]|(hdr & Hh & ->)].
  - now left.
  - right. now exists hdr, repos.
Qed.

Lemma heavy_entry_cache fuel repos repo_lines i full st r s :
  heavy_entry fuel repos repo_lines i full st = (r, s) ->
  match r with
  | Ok Restart => same_cache st s \/ rebuilt (CACHE_FILE s)
  | _ => same_cache st s
  end.
Proof.
  unfold heavy_entry.
  destruct (repo_lines !! i) as [line|]; [|now intros [= <- <-]].
  unfold bind at 1. cbn [ret].
  destruct (Py.split line) as [|h [|pt [|pm [|pa [|pd [|]]]]]];
    try (now intros [= <- <-]).
  destruct (Py.split_on "/" full) as [|owner [|repo [|]]]; try (now intros [= <- <-]).
  destruct (negb (String.eqb h (hexdigest (sha256 full)))).
  - unfold bind at 1. unfold get_guard.
    destruct (1 <? RECURSION_GUARD st); [now intros [= <- <-]|].
    unfold bind at 1. cbn [set_guard].
    set (s1 := {| world := world st; QUERY_COUNT := QUERY_COUNT st;
                  CACHE_FILE := CACHE_FILE st;
                  RECURSION_GUARD := RECURSION_GUARD st + 1; trace := trace st |}).
    destruct (init_cache_post repos s1) as (s2 & lines & Hi & _).
    pose proof (init_cache_cache repos s1) as Hc. rewrite Hi in Hc. cbn [snd] in Hc.
    unfold bind at 1. rewrite Hi. cbn [ret]. intros [= <- <-]. exact Hc.
  - intros H.
    assert (Hk : same_cache st s).
    { match type of H with bind ?c ?k st = _ =>
        pose proof (keeps_bind same_cache c k) as Hk end.
      match type of Hk with ?A -> ?B -> _ =>
        assert (H1 : A) by apply same_cache_get_repo_commit_total;
        assert (H2 : B) end.
      { intros total. apply keeps_bind; [apply _ | apply keeps_int_of; apply _|].
        intros ct. apply keeps_bind; [apply _ | |].
        - destruct (total =? ct).
          + do 3 (apply keeps_bind; [apply _ | apply keeps_int_of; apply _|]; intros ?).
            apply keeps_ret; apply _.
          + apply keeps_bind; [apply _ | apply same_cache_scan_repo_history|].
            intros [[[t m] a] d]. apply keeps_ret; apply _.
        - intros [[m a] d]. apply keeps_ret; apply _. }
      specialize (Hk H1 H2 st). now rewrite H in Hk. }
    destruct r as [[|]| |]; try exact Hk. now left.
Qed.

Lemma heavy_loop_cache fuel repos repo_lines todo : forall i updated totals st r s,
  heavy_loop fuel repos repo_lines i todo updated totals st = (r, s) ->
  match r with
  | Ok None => same_cache st s \/ rebuilt (CACHE_FILE s)
  | _ => same_cache st s
  end.
Proof.
  induction todo as [|full todo IH]; intros i updated totals st r s; cbn [heavy_loop];
    [now intros [= <- <-]|].
  unfold bind at 1.
  destruct (heavy_entry fuel repos repo_lines i full st)
    as [[[|line my adds dels]|e|] s1] eqn:He;
    apply heavy_entry_cache in He.
  - intros [= <- <-]. exact He.
  - destruct totals as [[tm ta] td]. intros H. apply IH in H.
    unfold same_cache in *.
    destruct r as [[x|]| |]; congruence.
  - intros [= <- <-]. exact He.
  - intros [= <- <-]. exact He.
Qed.

(** X8.  The cache file is rewritten with updated entries only at the
    end of a pass that completes.  When [heavy_stats] raises, whatever
    it had scanned so far is lost: the cache file is as it was before
    the call, or it is a header followed by zeroed entries as a rebuild
    left it. *)
Theorem failed_run_leaves_no_partial_update : forall fuel login st e st',
  heavy_stats fuel login st = (Raise e, st') ->
  CACHE_FILE st' = CACHE_FILE st
  \/ exists hdr listed,
       length hdr = CACHE_COMMENT_LINES
       /\ CACHE_FILE st' = Some (hdr ++ map zeroed_entry listed).
Proof.
  induction fuel as [|fuel IH]; intros login st e st' H; [discriminate|].
  pose proof (same_cache_list_pages fuel login None [] st) as Hl.
  fold (collect_repo_full_names fuel login) in Hl.
  destruct (collect_repo_full_names fuel login st) as [[repos|e0|] s1] eqn:El;
    cbn [snd] in Hl.
  2:{ cbn [heavy_stats] in H. rewrite (bind_Raise _ _ _ _ _ El) in H.
      injection H as _ <-. now left. }
  2:{ cbn [heavy_stats] in H. unfold bind at 1 in H. rewrite El in H. discriminate. }
  destruct (init_cache_post repos s1) as (s2 & lines & Hi & Hc & Hlen & _).
  pose proof (init_cache_cache repos s1) as Hic. rewrite Hi in Hic. cbn [snd] in Hic.
  rewrite (heavy_stats_pass _ _ _ _ _ _ _ El Hi Hc Hlen) in H.
  unfold aggregate in H.
  unfold bind at 1 in H.
  destruct (heavy_loop fuel repos (drop CACHE_COMMENT_LINES lines) 0 repos [] (0, 0, 0) s2)
    as [[[[updated [[tm ta] td]]|]|e1|] s3] eqn:Hloop;
    apply heavy_loop_cache in Hloop.
  - discriminate.
  - apply IH in H. unfold same_cache in *.
    destruct H as [H|H]; [|now right].
    destruct Hloop as [Hloop|Hloop]; [|right; now rewrite H].
    destruct Hic as [Hic|Hic]; [left; congruence | right; now rewrite H, Hloop].
  - injection H as _ <-. unfold same_cache in *.
    destruct Hic as [Hic|Hic]; [left; congruence | right; now rewrite Hloop].
  - discriminate.
Qed.


(** ** Light mode keeps away from the heavy scan *)

#[local] Instance light_refl : Reflexive light.
Proof.
  intros st. repeat (split; [reflexivity|]). exists []. now rewrite app_nil_r.
Qed.

#[local] Instance light_trans : Transitive light.
Proof.
  intros s1 s2 s3 (H1 & H2 & H3 & H4 & tr1 & H5 & H6) (K1 & K2 & K3 & K4 & tr2 & K5 & K6).
  split; [congruence|]. split; [congruence|]. split; [congruence|]. split; [congruence|].
  exists (tr1 ++ tr2). split; [now rewrite K5, H5, app_assoc|].
  rewrite forallb_app. now rewrite H6, K6.
Qed.

Lemma schedule_forallb (P : event -> bool) query : forall outs attempt,
  (forall res, P (EvPost query res) = true) ->
  (forall seconds, P (EvSleep seconds) = true) ->
  forallb P (backoff_schedule query attempt outs) = true.
Proof.
  induction outs as [|r0 outs IH]; intros attempt Hp Hs; [reflexivity|].
  destruct outs as [|r1 outs].
  - cbn [backoff_schedule forallb]. now rewrite Hp.
  - rewrite backoff_schedule_cons by discriminate.
    cbn [forallb]. rewrite Hp, Hs. cbn [andb]. now apply IH.
Qed.

Lemma light_gql query tag :
  (forall res, is_heavy_post (EvPost query res) = false) ->
  keeps light (gql query tag).
Proof.
  intros Hq st.
  destruct (gql_spec query tag st) as (outs & Htr & _ & (Hc & Hf & Hg) & _).
  split; [exact Hf|]. split; [exact Hg|]. split; [now rewrite Hc|]. split; [now rewrite Hc|].
  eexists. split; [exact Htr|].
  apply schedule_forallb; [intros res; now rewrite Hq | reflexivity].
Qed.

Lemma light_count_query name :
  name <> "loc_list_repos" -> name <> "loc_repo_scan" -> keeps light (count_query name).
Proof.
  intros H1 H2 st. unfold count_query.
  destruct (QUERY_COUNT st !! name) as [n|]; cbn [snd]; [|reflexivity].
  split; [reflexivity|]. split; [reflexivity|]. cbn [QUERY_COUNT].
  split; [now rewrite lookup_insert_ne|]. split; [now rewrite lookup_insert_ne|].
  exists []. now rewrite app_nil_r.
Qed.

Lemma keeps_sum_stars R `{!Reflexive R} `{!Transitive R} es : forall stars,
  keeps R (sum_stars es stars).
Proof.
  induction es as [|e es IH]; intros stars; cbn [sum_stars]; [now apply keeps_ret|].
  apply keeps_bind; [assumption | now apply keeps_getitem|]. intros n. apply IH.
Qed.

Lemma light_owned_pages fuel : forall login after stars,
  keeps light (owned_pages fuel login after stars).
Proof.
  induction fuel as [|fuel IH]; intros login after stars; cbn [owned_pages];
    [apply keeps_hang; apply _|].
  apply keeps_bind; [apply _ | now apply light_gql|]. intros d.
  apply keeps_bind; [apply _ | apply keeps_user_repositories; apply _|]. intros rs.
  apply keeps_bind; [apply _ | apply keeps_getitem; apply _|]. intros total.
  apply keeps_bind; [apply _ | apply keeps_getitem; apply _|]. intros es.
  apply keeps_bind; [apply _ | apply keeps_sum_stars; apply _|]. intros stars'.
  destruct (negb (hasNextPage (repos_pageInfo rs))); [apply keeps_ret; apply _|].
  apply keeps_bind; [apply _ | now apply light_count_query|]. intros _. apply IH.
Qed.

Lemma light_contrib_pages fuel : forall login after,
  keeps light (contrib_pages fuel login after).
Proof.
  induction fuel as [|fuel IH]; intros login after; cbn [contrib_pages];
    [apply keeps_hang; apply _|].
  apply keeps_bind; [apply _ | now apply light_gql|]. intros d.
  apply keeps_bind; [apply _ | apply keeps_user_repositories; apply _|]. intros rs.
  apply keeps_bind; [apply _ | apply keeps_getitem; apply _|]. intros total.
  destruct (negb (hasNextPage (repos_pageInfo rs))); [apply keeps_ret; apply _|].
  apply keeps_bind; [apply _ | now apply light_count_query|]. intros _. apply IH.
Qed.

Lemma light_get_repos_and_stars fuel login : keeps light (get_repos_and_stars fuel login).
Proof.
  unfold get_repos_and_stars.
  apply keeps_bind; [apply _ | now apply light_count_query|]. intros _.
  apply keeps_bind; [apply _ | apply light_owned_pages|]. intros [total stars].
  apply keeps_bind; [apply _ | now apply light_count_query|]. intros _.
  apply keeps_bind; [apply _ | apply light_contrib_pages|]. intros c.
  apply keeps_ret; apply _.
Qed.

Lemma light_get_user_and_created login : keeps light (get_user_and_created login).
Proof.
  unfold get_user_and_created.
  apply keeps_bind; [apply _ | now apply light_count_query|]. intros _.
  apply keeps_bind; [apply _ | now apply light_gql|]. intros d.
  destruct (data d); (apply keeps_ret || apply keeps_raise); apply _.
Qed.

Lemma light_get_followers login : keeps light (get_followers login).
Proof.
  unfold get_followers.
  apply keeps_bind; [apply _ | now apply light_count_query|]. intros _.
  apply keeps_bind; [apply _ | now apply light_gql|]. intros d.
  destruct (data d); (apply keeps_ret || apply keeps_raise); apply _.
Qed.

(** X16.  With heavy mode off, [main], however it ends, leaves the cache
    file and the recursion guard as they were, does not count any
    listing or scan query, and sends no request of the heavy scan: no
    listing for the scan, no probe of a commit total, no history page. *)
Theorem light_mode_sends_no_heavy_query fuel st :
  DO_HEAVY = false ->
  CACHE_FILE (snd (main fuel st)) = CACHE_FILE st
  /\ RECURSION_GUARD (snd (main fuel st)) = RECURSION_GUARD st
  /\ QUERY_COUNT (snd (main fuel st)) !! "loc_list_repos"
     = QUERY_COUNT st !! "loc_list_repos"
  /\ QUERY_COUNT (snd (main fuel st)) !! "loc_repo_scan"
     = QUERY_COUNT st !! "loc_repo_scan"
  /\ exists tr,
       trace (snd (main fuel st)) = trace st ++ tr
       /\ forallb (fun ev => negb (is_heavy_post ev)) tr = true.
Proof.
  intros Hlight. revert st. change (keeps light (main fuel)).
  unfold main. rewrite Hlight.
  apply keeps_bind; [apply _ | apply light_get_user_and_created|]. intros [id created].
  apply keeps_bind; [apply _ | intros st; reflexivity|]. intros age.
  apply keeps_bind; [apply _ | apply light_get_repos_and_stars|]. intros [[o s] c].
  apply keeps_bind; [apply _ | apply light_get_followers|]. intros f.
  apply keeps_bind; [apply _ | apply keeps_ret; apply _|]. intros [[[m a] d] n].
  apply keeps_ret; apply _.
Qed.

(** ** Listings served in pages *)

Lemma append_names_Some es : forall ns names st,
  mapM nameWithOwner es = Some ns ->
  append_names es names st = (Ok (names ++ ns), st).
Proof.
  induction es as [|e es IH]; intros ns names st H.
  - injection H as <-. cbn. now rewrite app_nil_r.
  - apply mapM_Some in H. inversion H as [|? n ? ns' Hn Hrest]; subst.
    apply mapM_Some in Hrest.
    cbn [append_names]. rewrite Hn. unfold bind at 1. cbn [getitem ret].
    rewrite (IH ns' _ st Hrest). now rewrite <- app_assoc.
Qed.

Lemma sumZ_cons x l : sumZ (x :: l) = x + sumZ l.
Proof. reflexivity. Qed.

Lemma sum_stars_Some es : forall ss stars st,
  mapM stargazers es = Some ss ->
  sum_stars es stars st = (Ok (stars + sumZ ss), st).
Proof.
  induction es as [|e es IH]; intros ss stars st H.
  - injection H as <-. cbn. now rewrite Z.add_0_r.
  - apply mapM_Some in H. inversion H as [|? n ? ss' Hn Hrest]; subst.
    apply mapM_Some in Hrest.
    cbn [sum_stars]. rewrite Hn. unfold bind at 1. cbn [getitem ret].
    rewrite (IH ss' _ st Hrest). now rewrite sumZ_cons, Z.add_assoc.
Qed.

Lemma counted_after_post query name st n :
  QUERY_COUNT st !! name = Some n ->
  QUERY_COUNT (after_post query (counted name st)) = <[name := n + 1]> (QUERY_COUNT st).
Proof.
  intros Hn. rewrite after_post_counters. unfold counted. cbn [QUERY_COUNT].
  now rewrite Hn.
Qed.

Section Served.

Variable resp : request -> post_result.
Hypothesis Hresp : answers resp.
Hypothesis Hmax : 1 <= MAX_RETRIES.

Lemma list_pages_served login after pages :
  served_pages resp (QLocListRepos login) after pages ->
  forall nss fuel names st n,
    mapM page_names pages = Some nss ->
    (length pages <= fuel)%nat ->
    QUERY_COUNT st !! "loc_list_repos" = Some n ->
    exists st',
      list_pages fuel login after names st = (Ok (names ++ concat nss), st')
      /\ QUERY_COUNT st'
         = <["loc_list_repos" := n + Z.of_nat (length pages)]> (QUERY_COUNT st).
Proof using Hresp Hmax.
  induction 1 as [after d rs Hacc Hd Hlast | after d rs pages Hacc Hd Hnext Hs IH];
    intros nss fuel names st n Hn Hle Hk; (destruct fuel as [|fuel]; [cbn in Hle; lia|]);
    apply mapM_Some in Hn; inversion Hn as [|? ns ? nss' Hns Hrest]; subst;
    unfold page_names in Hns; destruct (repos_edges rs) as [es|] eqn:He; try discriminate;
    cbn [mbind option_bind] in Hns;
    cbn [list_pages];
    rewrite (bind_step _ _ _ _ _ (count_query_spec _ _ _ Hk));
    rewrite (bind_step _ _ _ _ _
               (gql_answered resp _ "loc_list_repos" _ d Hresp Hmax Hacc));
    unfold user_repositories; rewrite Hd; unfold bind at 1; cbn [ret];
    rewrite He; unfold bind at 1; cbn [getitem ret];
    rewrite (bind_step _ _ _ _ _ (append_names_Some es ns names _ Hns)).
  - rewrite Hlast. cbn [negb ret]. inversion Hrest; subst.
    eexists. split; [cbn [concat]; now rewrite app_nil_r|].
    now rewrite (counted_after_post _ _ _ _ Hk).
  - rewrite Hnext. cbn [negb].
    apply mapM_Some in Hrest.
    destruct (IH nss' fuel (names ++ ns)
                (after_post (QLocListRepos login after) (counted "loc_list_repos" st))
                (n + 1) Hrest) as (st' & Hrun & Hq).
    { cbn in Hle. lia. }
    { rewrite (counted_after_post _ _ _ _ Hk). apply lookup_insert_eq. }
    exists st'. split; [rewrite Hrun; cbn [concat]; now rewrite app_assoc|].
    rewrite Hq, (counted_after_post _ _ _ _ Hk), insert_insert_eq.
    f_equal. cbn [length]. lia.
Qed.

Lemma owned_pages_served login after pages :
  served_pages resp (QOwnedRepos login) after pages ->
  forall ss ts fuel stars st n,
    mapM page_stars pages = Some ss ->
    mapM repos_totalCount pages = Some ts ->
    (length pages <= fuel)%nat ->
    QUERY_COUNT st !! "repos_stars" = Some n ->
    exists st',
      owned_pages fuel login after stars st
      = (Ok (default 0 (last ts), stars + sumZ ss), st')
      /\ QUERY_COUNT st'
         = <["repos_stars" := n + Z.of_nat (length pages) - 1]> (QUERY_COUNT st).
Proof using Hresp Hmax.
  induction 1 as [after d rs Hacc Hd Hlast | after d rs pages Hacc Hd Hnext Hs IH];
    intros ss ts fuel stars st n Hss Hts Hle Hk;
    (destruct fuel as [|fuel]; [cbn in Hle; lia|]);
    apply mapM_Some in Hss; inversion Hss as [|? s ? ss' Hs1 Hsrest]; subst;
    apply mapM_Some in Hts; inversion Hts as [|? t ? ts' Ht1 Htrest]; subst;
    unfold page_stars in Hs1; destruct (repos_edges rs) as [es|] eqn:He; try discriminate;
    cbn [mbind option_bind] in Hs1;
    destruct (mapM stargazers es) as [sl|] eqn:Hsl; try discriminate;
    injection Hs1 as <-;
    cbn [owned_pages];
    rewrite (bind_step _ _ _ _ _
               (gql_answered resp _ "repos_stars" _ d Hresp Hmax Hacc));
    unfold user_repositories; rewrite Hd; unfold bind at 1; cbn [ret];
    rewrite Ht1, He; unfold bind at 1; cbn [getitem ret]; unfold bind at 1; cbn [ret];
    rewrite (bind_step _ _ _ _ _ (sum_stars_Some es sl stars _ Hsl)).
  - rewrite Hlast. cbn [negb ret]. inversion Hsrest; subst. inversion Htrest; subst.
    eexists. split.
    + rewrite sumZ_cons. cbn [sumZ fold_right]. now rewrite Z.add_0_r.
    + rewrite after_post_counters. cbn [length].
      replace (n + Z.of_nat 1 - 1) with n by lia. symmetry. now apply insert_id.
  - rewrite Hnext. cbn [negb].
    apply mapM_Some in Hsrest. apply mapM_Some in Htrest.
    assert (Hk' : QUERY_COUNT (after_post (QOwnedRepos login after) st) !! "repos_stars"
                  = Some n) by now rewrite after_post_counters.
    rewrite (bind_step _ _ _ _ _ (count_query_spec _ _ _ Hk')).
    destruct (IH ss' ts' fuel (stars + sumZ sl)
                (counted "repos_stars" (after_post (QOwnedRepos login after) st))
                (n + 1) Hsrest Htrest) as (st' & Hrun & Hq).
    { cbn in Hle. lia. }
    { unfold counted. cbn [QUERY_COUNT]. rewrite Hk'. apply lookup_insert_eq. }
    exists st'. split.
    + rewrite Hrun, sumZ_cons, Z.add_assoc.
      destruct ts' as [|t' ts']; [|reflexivity].
      apply mapM_Some in Htrest. inversion Hs; subst; inversion Htrest.
    + rewrite Hq. unfold counted. cbn [QUERY_COUNT]. rewrite Hk', after_post_counters.
      rewrite insert_insert_eq. f_equal. cbn [length]. lia.
Qed.
Lemma contrib_pages_served login after pages :
  served_pages resp (QContribRepos login) after pages ->
  forall ts fuel st n,
    mapM repos_totalCount pages = Some ts ->
    (length pages <= fuel)%nat ->
    QUERY_COUNT st !! "repos_stars" = Some n ->
    exists st',
      contrib_pages fuel login after st = (Ok (default 0 (last ts)), st')
      /\ QUERY_COUNT st'
         = <["repos_stars" := n + Z.of_nat (length pages) - 1]> (QUERY_COUNT st).
Proof using Hresp Hmax.
  induction 1 as [after d rs Hacc Hd Hlast | after d rs pages Hacc Hd Hnext Hs IH];
    intros ts fuel st n Hts Hle Hk;
    (destruct fuel as [|fuel]; [cbn in Hle; lia|]);
    apply mapM_Some in Hts; inversion Hts as [|? t ? ts' Ht1 Htrest]; subst;
    cbn [contrib_pages];
    rewrite (bind_step _ _ _ _ _
               (gql_answered resp _ "repos_stars" _ d Hresp Hmax Hacc));
    unfold user_repositories; rewrite Hd; unfold bind at 1; cbn [ret];
    rewrite Ht1; unfold bind at 1; cbn [getitem ret].
  - rewrite Hlast. cbn [negb ret]. inversion Htrest; subst.
    eexists. split; [reflexivity|].
    rewrite after_post_counters. cbn [length].
    replace (n + Z.of_nat 1 - 1) with n by lia. symmetry. now apply insert_id.
  - rewrite Hnext. cbn [negb].
    apply mapM_Some in Htrest.
    assert (Hk' : QUERY_COUNT (after_post (QContribRepos login after) st) !! "repos_stars"
                  = Some n) by now rewrite after_post_counters.
    rewrite (bind_step _ _ _ _ _ (count_query_spec _ _ _ Hk')).
    destruct (IH ts' fuel
                (counted "repos_stars" (after_post (QContribRepos login after) st))
                (n + 1) Htrest) as (st' & Hrun & Hq).
    { cbn in Hle. lia. }
    { unfold counted. cbn [QUERY_COUNT]. rewrite Hk'. apply lookup_insert_eq. }
    exists st'. split.
    + rewrite Hrun.
      destruct ts' as [|t' ts']; [|reflexivity].
      apply mapM_Some in Htrest. inversion Hs; subst; inversion Htrest.
    + rewrite Hq. unfold counted. cbn [QUERY_COUNT]. rewrite Hk', after_post_counters.
      rewrite insert_insert_eq. f_equal. cbn [length]. lia.
Qed.

End Served.

Lemma served_pages_nonempty resp q after pages :
  served_pages resp q after pages -> (1 <= length pages)%nat.
Proof. destruct 1; cbn; lia. Qed.

(** X4.  Against an upstream that answers each query the same way and
    serves the listing in pages, [collect_repo_full_names] returns the
    names of all pages in listing order, and counts one
    ["loc_list_repos"] query per page. *)
Theorem collect_repo_full_names_in_listing_order resp fuel login st n pages nss :
  answers resp -> 1 <= MAX_RETRIES ->
  QUERY_COUNT st !! "loc_list_repos" = Some n ->
  served_pages resp (QLocListRepos login) None pages ->
  mapM page_names pages = Some nss ->
  (length pages <= fuel)%nat ->
  exists st',
    collect_repo_full_names fuel login st = (Ok (concat nss), st')
    /\ QUERY_COUNT st'
       = <["loc_list_repos" := n + Z.of_nat (length pages)]> (QUERY_COUNT st).
Proof.
  intros Hresp Hmax Hk Hs Hn Hle. unfold collect_repo_full_names.
  apply (list_pages_served resp Hresp Hmax login None pages Hs nss fuel [] st n Hn Hle Hk).
Qed.

Lemma get_repos_and_stars_served resp fuel login st n owned contributed ss ts cts :
  answers resp -> 1 <= MAX_RETRIES ->
  QUERY_COUNT st !! "repos_stars" = Some n ->
  served_pages resp (QOwnedRepos login) None owned ->
  served_pages resp (QContribRepos login) None contributed ->
  mapM page_stars owned = Some ss ->
  mapM repos_totalCount owned = Some ts ->
  mapM repos_totalCount contributed = Some cts ->
  (length owned <= fuel)%nat -> (length contributed <= fuel)%nat ->
  exists st',
    get_repos_and_stars fuel login st
    = (Ok (default 0 (last ts), sumZ ss, default 0 (last cts)), st')
    /\ QUERY_COUNT st'
       = <["repos_stars" := n + Z.of_nat (length owned + length contributed)]>
           (QUERY_COUNT st).
Proof.
  intros Hresp Hmax Hk Ho Hc Hss Hts Hcts Hlo Hlc. unfold get_repos_and_stars.
  rewrite (bind_step _ _ _ _ _ (count_query_spec _ _ _ Hk)).
  destruct (owned_pages_served resp Hresp Hmax login None owned Ho ss ts fuel 0
              (counted "repos_stars" st) (n + 1) Hss Hts Hlo) as (s1 & Hrun1 & Hq1).
  { unfold counted. cbn [QUERY_COUNT]. rewrite Hk. apply lookup_insert_eq. }
  rewrite (bind_step _ _ _ _ _ Hrun1).
  pose proof (served_pages_nonempty _ _ _ _ Ho) as Hno.
  pose proof (served_pages_nonempty _ _ _ _ Hc) as Hnc.
  assert (Hk1 : QUERY_COUNT s1 !! "repos_stars" = Some (n + Z.of_nat (length owned))).
  { rewrite Hq1, lookup_insert_eq. f_equal. lia. }
  rewrite (bind_step _ _ _ _ _ (count_query_spec _ _ _ Hk1)).
  destruct (contrib_pages_served resp Hresp Hmax login None contributed Hc cts fuel
              (counted "repos_stars" s1) (n + Z.of_nat (length owned) + 1) Hcts Hlc)
    as (s2 & Hrun2 & Hq2).
  { unfold counted. cbn [QUERY_COUNT]. rewrite Hk1. apply lookup_insert_eq. }
  rewrite (bind_step _ _ _ _ _ Hrun2). cbn [ret].
  exists s2. split; [now rewrite Z.add_0_l|].
  rewrite Hq2. unfold counted. cbn [QUERY_COUNT]. rewrite Hk1, Hq1.
  unfold counted. cbn [QUERY_COUNT]. rewrite Hk. rewrite !insert_insert_eq.
  f_equal. lia.
Qed.

(** X2.  Against an upstream that answers each query the same way and
    serves the owned and the contributed listings in pages,
    [get_repos_and_stars] returns the [totalCount] of the last owned
    page, the sum of the stars of the repositories of all owned pages,
    and the [totalCount] of the last contributed page; it counts one
    ["repos_stars"] query per page of either listing. *)
Theorem get_repos_and_stars_sums_pages resp fuel login st n owned contributed ss ts cts :
  answers resp -> 1 <= MAX_RETRIES ->
  QUERY_COUNT st !! "repos_stars" = Some n ->
  served_pages resp (QOwnedRepos login) None owned ->
  served_pages resp (QContribRepos login) None contributed ->
  mapM page_stars owned = Some ss ->
  mapM repos_totalCount owned = Some ts ->
  mapM repos_totalCount contributed = Some cts ->
  (length owned <= fuel)%nat -> (length contributed <= fuel)%nat ->
  exists st',
    get_repos_and_stars fuel login st
    = (Ok (default 0 (last ts), sumZ ss, default 0 (last cts)), st')
    /\ QUERY_COUNT st'
       = <["repos_stars" := n + Z.of_nat (length owned + length contributed)]>
           (QUERY_COUNT st).
Proof.
  intros Hresp Hmax Hk Ho Hc Hss Hts Hcts Hlo Hlc.
  now apply (get_repos_and_stars_served resp).
Qed.

(** X15.  With heavy mode off, against an upstream that answers each
    query the same way, [main] returns, and the record it assembles
    holds the age text, the owned and contributed repository counts and
    the star sum of the listings, the follower count, and 0 commits. *)
Theorem light_run_returns_the_served_counts resp fuel st id created followers
    owned contributed ss ts cts d1 d2 :
  DO_HEAVY = false ->
  answers resp -> 1 <= MAX_RETRIES ->
  is_Some (QUERY_COUNT st !! "user_getter") ->
  is_Some (QUERY_COUNT st !! "followers") ->
  is_Some (QUERY_COUNT st !! "repos_stars") ->
  accepted (resp (QUserGetter USER_NAME)) = Some d1 -> data d1 = PUser id created ->
  accepted (resp (QFollowers USER_NAME)) = Some d2 -> data d2 = PFollowers followers ->
  served_pages resp (QOwnedRepos USER_NAME) None owned ->
  served_pages resp (QContribRepos USER_NAME) None contributed ->
  mapM page_stars owned = Some ss ->
  mapM repos_totalCount owned = Some ts ->
  mapM repos_totalCount contributed = Some cts ->
  (length owned <= fuel)%nat -> (length contributed <= fuel)%nat ->
  exists st',
    main fuel st
    = (Ok (<["commits" := VInt 0]> (<["followers" := VInt followers]>
           (<["contrib" := VInt (default 0 (last cts))]>
           (<["stars" := VInt (sumZ ss)]>
           (<["repos" := VInt (default 0 (last ts))]>
           (<["age" := VStr (rel_age (world (after_post (QUserGetter USER_NAME)
                                                 (counted "user_getter" st))))]>
              ∅)))))), st').
Proof.
  intros Hlight Hresp Hmax [n1 Hk1] [n2 Hk2] [n3 Hk3] Ha1 Hd1 Ha2 Hd2 Ho Hc Hss Hts Hcts
    Hlo Hlc.
  unfold main. rewrite Hlight.
  assert (Hu : get_user_and_created USER_NAME st
               = (Ok (id, created),
                  after_post (QUserGetter USER_NAME) (counted "user_getter" st))).
  { unfold get_user_and_created.
    rewrite (bind_step _ _ _ _ _ (count_query_spec _ _ _ Hk1)).
    rewrite (bind_step _ _ _ _ _
               (gql_answered resp _ "user_getter" _ d1 Hresp Hmax Ha1)).
    now rewrite Hd1. }
  rewrite (bind_step _ _ _ _ _ Hu).
  set (s1 := after_post (QUserGetter USER_NAME) (counted "user_getter" st)).
  unfold bind at 1.
  assert (Hk3' : QUERY_COUNT s1 !! "repos_stars" = Some n3).
  { unfold s1. rewrite (counted_after_post _ _ _ _ Hk1).
    now rewrite lookup_insert_ne by discriminate. }
  destruct (get_repos_and_stars_served resp fuel USER_NAME s1 n3 owned contributed
              ss ts cts Hresp Hmax Hk3' Ho Hc Hss Hts Hcts Hlo Hlc) as (s2 & Hrun & Hq).
  rewrite (bind_step _ _ _ _ _ Hrun).
  assert (Hk2' : QUERY_COUNT s2 !! "followers" = Some n2).
  { rewrite Hq, lookup_insert_ne by discriminate.
    unfold s1. rewrite (counted_after_post _ _ _ _ Hk1).
    now rewrite lookup_insert_ne by discriminate. }
  assert (Hf : get_followers USER_NAME s2
               = (Ok followers, after_post (QFollowers USER_NAME) (counted "followers" s2))).
  { unfold get_followers.
    rewrite (bind_step _ _ _ _ _ (count_query_spec _ _ _ Hk2')).
    rewrite (bind_step _ _ _ _ _
               (gql_answered resp _ "followers" _ d2 Hresp Hmax Ha2)).
    now rewrite Hd2. }
  rewrite (bind_step _ _ _ _ _ Hf).
  unfold bind at 1. cbn [ret]. now eexists.
Qed.

(** ** A pass over a fresh cache *)

Section Fresh.

Variable resp : request -> post_result.
Hypothesis Hresp : answers resp.
Hypothesis Hmax : 1 <= MAX_RETRIES.

Lemma probe_answered owner repo st d total n :
  QUERY_COUNT st !! "loc_repo_scan" = Some n ->
  accepted (resp (QCommitTotal owner repo)) = Some d ->
  probe_value d = Ok total ->
  get_repo_commit_total owner repo st
  = (Ok total, after_post (QCommitTotal owner repo) (counted "loc_repo_scan" st)).
Proof using Hresp Hmax.
  intros Hk Hacc Hp. rewrite (get_repo_commit_total_eq _ _ _ _ Hk). cbn zeta.
  rewrite (gql_answered resp _ "loc_repo_scan" _ d Hresp Hmax Hacc).
  cbn [fst snd]. now rewrite Hp.
Qed.

Lemma scan_served fuel owner repo st d total n cs :
  is_Some (QUERY_COUNT st !! "loc_repo_scan") ->
  accepted (resp (QCommitTotal owner repo)) = Some d ->
  probe_value d = Ok total -> total <> 0 ->
  served_history resp owner repo n None cs -> (n <= fuel)%nat ->
  forallb has_author cs = true ->
  exists st',
    scan_repo_history fuel owner repo st
    = (Ok (total,
           Z.of_nat (length (List.filter by_user cs)),
           sum_of additions (List.filter by_user cs),
           sum_of deletions (List.filter by_user cs)), st').
Proof using Hresp Hmax.
  intros Hk Hacc Hp Ht Hs Hle Hau.
  destruct (scan_repo_history_served resp fuel owner repo st d total n cs
              Hresp Hmax Hk Hacc Hp Ht Hs Hle) as [st' H].
  rewrite Hau in H. now exists st'.
Qed.

Lemma entry_served fuel repos repo_lines i full cs st :
  repo_served resp fuel full cs ->
  forallb has_author cs = true ->
  repo_lines !! i = Some (zeroed_entry full) ->
  is_Some (QUERY_COUNT st !! "loc_repo_scan") ->
  exists line st',
    heavy_entry fuel repos repo_lines i full st
    = (Ok (Entry line
             (Z.of_nat (length (List.filter by_user cs)))
             (sum_of additions (List.filter by_user cs))
             (sum_of deletions (List.filter by_user cs))), st')
    /\ is_Some (QUERY_COUNT st' !! "loc_repo_scan").
Proof using Hresp Hmax.
  intros Hserved Hau Hline [k Hk].
  assert (Hkeep : forall st', heavy_entry fuel repos repo_lines i full st = (Ok (Entry
                     (fst (fst (fst (fst st')))) (snd (fst (fst (fst st'))))
                     (snd (fst (fst st'))) (snd (fst st'))), snd st') ->
                  is_Some (QUERY_COUNT (snd st') !! "loc_repo_scan")).
  { intros st' He.
    pose proof (runs_heavy_entry fuel repos repo_lines i full st) as Hr.
    rewrite He in Hr. cbn [snd] in Hr.
    apply (effects_counters _ _ _ Hr). eauto. }
  destruct Hserved as [owner repo d Hfull Hacc Hp
                      | owner repo d total n cs Hfull Hacc Hp Ht Hs Hle].
  - pose proof (heavy_entry_probed fuel repos _ _ _ _ _ _ _ _ _ _ _ _ _ _
                  Hline (split_zeroed_entry full) eq_refl Hfull
                  (probe_answered _ _ _ _ _ _ Hk Hacc Hp)) as He.
    unfold int_of in He. change (Py.int "0") with (Some 0) in He.
    unfold bind at 1 in He. cbn [ret] in He. change (0 =? 0) with true in He.
    cbv iota in He. unfold bind, ret in He.
    eexists _, _. split; [exact He|].
    exact (Hkeep (_, _, _, _, _) He).
  - destruct (scan_served fuel owner repo
                (after_post (QCommitTotal owner repo) (counted "loc_repo_scan" st))
                d total n cs) as [st' Hscan]; try assumption.
    { rewrite (counted_after_post _ _ _ _ Hk), lookup_insert_eq. eauto. }
    pose proof (heavy_entry_probed fuel repos _ _ _ _ _ _ _ _ _ _ _ _ _ _
                  Hline (split_zeroed_entry full) eq_refl Hfull
                  (probe_answered _ _ _ _ _ _ Hk Hacc Hp)) as He.
    unfold int_of in He. change (Py.int "0") with (Some 0) in He.
    unfold bind at 1 in He. cbn [ret] in He.
    assert (Hz : (total =? 0) = false) by lia. rewrite Hz in He.
    unfold bind at 1 in He. unfold bind at 1 in He. rewrite Hscan in He.
    cbn [ret] in He.
    eexists _, _. split; [exact He|].
    exact (Hkeep (_, _, _, _, _) He).
Qed.

Lemma loop_served fuel repos repo_lines todo css :
  Forall2 (repo_served resp fuel) todo css ->
  forallb has_author (concat css) = true ->
  forall i updated tm ta td st,
    (forall k full, todo !! k = Some full ->
                    repo_lines !! (i + k)%nat = Some (zeroed_entry full)) ->
    is_Some (QUERY_COUNT st !! "loc_repo_scan") ->
    exists updated' st',
      heavy_loop fuel repos repo_lines i todo updated (tm, ta, td) st
      = (Ok (Some (updated',
                   (tm + Z.of_nat (length (List.filter by_user (concat css))),
                    ta + sum_of additions (List.filter by_user (concat css)),
                    td + sum_of deletions (List.filter by_user (concat css))))),
         st').
Proof using Hresp Hmax.
  induction 1 as [|full cs todo css Hs _ IH]; intros Hau i updated tm ta td st Hlines Hk.
  - cbn. rewrite !Z.add_0_r. now eexists _, _.
  - cbn [concat] in Hau. rewrite forallb_app in Hau.
    apply andb_true_iff in Hau as [Hau1 Hau2].
    destruct (entry_served fuel repos repo_lines i full cs st Hs Hau1)
      as (line & s1 & He & Hk1); [|exact Hk|].
    { rewrite <- (Nat.add_0_r i). now apply (Hlines 0%nat full). }
    rewrite (heavy_loop_step _ _ _ _ _ _ _ _ _ _ _ _ _ _ _ _ He).
    destruct (IH Hau2 (S i) (updated ++ [line])
                (tm + Z.of_nat (length (List.filter by_user cs)))
                (ta + sum_of additions (List.filter by_user cs))
                (td + sum_of deletions (List.filter by_user cs)) s1)
      as (updated' & st' & Hloop); [|exact Hk1|].
    { intros k f Hf. replace (S i + k)%nat with (i + S k)%nat by lia.
      now apply (Hlines (S k) f). }
    exists updated', st'. rewrite Hloop. cbn [concat].
    rewrite List.filter_app, length_app, !sum_of_app, Nat2Z.inj_add, !Z.add_assoc.
    reflexivity.
Qed.

End Fresh.


End Updater.

(** * Worked examples *)

(** ** The query client on scripted responses *)

(** Three transient failures in a row use up the default budget: the
    pauses are 1.5 and 2.25 seconds, and the last exception is raised. *)
Example gql_three_transient_failures :
  let st := Sim.initial
              [ Sim.status 502; PostRaises Timeout;
                Sim.graphql_errors [Some "API rate limit exceeded"] ] None in
  let out := gql (list post_result) Sim.scripted 3 Sim.backoff Sim.pow Sim.sleep_max
               (QUserGetter "octo") "user_getter" st in
  fst out = Raise (RuntimeError "user_getter GraphQL errors: API rate limit exceeded")
  /\ trace (snd out)
     = [ EvPost (QUserGetter "octo") (Sim.status 502); EvSleep (3 # 2);
         EvPost (QUserGetter "octo") (PostRaises Timeout); EvSleep (9 # 4);
         EvPost (QUserGetter "octo")
           (Sim.graphql_errors [Some "API rate limit exceeded"]) ].
Proof. vm_compute. split; reflexivity. Qed.

(** With a negative backoff the first pause is refused: the call ends
    after one attempt, with the [ValueError] of [time.sleep]. *)
Example negative_backoff_ends_the_call :
  let st := Sim.initial
              [ Sim.status 502; Sim.ok (PUser "MOCKID" "2020-01-01T00:00:00Z") ] None in
  let out := gql (list post_result) Sim.scripted 3 (Finite (-1 # 1)) Sim.pow Sim.sleep_max
               (QUserGetter "octo") "user_getter" st in
  pauses_accepted 3 (Finite (-1 # 1)) Sim.pow Sim.sleep_max = false
  /\ fst out = Raise ValueError
  /\ trace (snd out) = [ EvPost (QUserGetter "octo") (Sim.status 502) ].
Proof. vm_compute. repeat split. Qed.


(** C3, counterexample.  The first attempt is answered 401, which is not
    a transient failure; the call does not raise but sleeps, asks again
    and returns the body of the second attempt. *)
Lemma fatal_failure_is_not_surfaced_at_once :
  let st := Sim.initial
              [ Sim.status 401; Sim.ok (PUser "MOCKID" "2020-01-01T00:00:00Z") ] None in
  let out := gql (list post_result) Sim.scripted 3 Sim.backoff Sim.pow Sim.sleep_max
               (QUserGetter "octo") "user_getter" st in
  transient (Sim.status 401) = false
  /\ accepted (Sim.status 401) = None
  /\ fst out = Ok (Body [] (PUser "MOCKID" "2020-01-01T00:00:00Z"))
  /\ posts (trace (snd out)) = 2%nat.
Proof. vm_compute. repeat split. Qed.

Lemma gql_fatal_failure_is_retried_witness :
  let st := Sim.initial
              [ Sim.status 401; Sim.ok (PUser "MOCKID" "2020-01-01T00:00:00Z") ] None in
  accepted (fst (Sim.scripted (QUserGetter "octo") (world st))) = None
  /\ transient (fst (Sim.scripted (QUserGetter "octo") (world st))) = false
  /\ gql_attempts (list post_result) Sim.scripted 3 Sim.backoff Sim.pow Sim.sleep_max
       (QUserGetter "octo") "user_getter" [1; 2; 3] None st
     = gql_attempts (list post_result) Sim.scripted 3 Sim.backoff Sim.pow Sim.sleep_max
         (QUserGetter "octo") "user_getter" [2; 3]
         (Some (RuntimeError "user_getter failed: 401 "))
         (after_sleep (list post_result) (3 # 2)
            (after_post (list post_result) Sim.scripted (QUserGetter "octo") st)).
Proof.
  cbv zeta. split; [reflexivity|]. split; [reflexivity|].
  exact (gql_fatal_failure_is_retried (list post_result) Sim.scripted
    3 Sim.backoff Sim.pow Sim.sleep_max
           (QUserGetter "octo") "user_getter" 1 [2; 3] None
           (Sim.initial
              [ Sim.status 401; Sim.ok (PUser "MOCKID" "2020-01-01T00:00:00Z") ] None)
           eq_refl eq_refl).
Defined.

(** C4, counterexample.  The probe is answered 502 and then 200: two
    attempts are made, and the counter of the query type has gone from 0
    to 1. *)
Lemma retry_attempt_is_not_counted :
  let st := Sim.initial [ Sim.status 502; Sim.ok (Sim.total_is 4) ] None in
  let out := get_repo_commit_total (list post_result) Sim.scripted
    3 Sim.backoff Sim.pow Sim.sleep_max
               "octo" "cat" st in
  QUERY_COUNT st !! "loc_repo_scan" = Some 0
  /\ fst out = Ok 4
  /\ posts (trace (snd out)) = 2%nat
  /\ QUERY_COUNT (snd out) !! "loc_repo_scan" = Some 1.
Proof. vm_compute. repeat split. Qed.

(** C4, on a run of [main] with heavy mode on, for the counter of the
    probes and history pages. *)
Lemma counter_incremented_once_per_call_witness :
  let st := Sim.initial tt None in
  let out := main unit (Sim.fixed Sim.upstream) Sim.clock Sim.age "octo" true false
               3 Sim.backoff Sim.pow Sim.sleep_max Sim.toy_sha256 5 st in
  QUERY_COUNT st !! "loc_repo_scan" = Some 0
  /\ exists tr calls,
       trace (snd out) = trace st ++ tr
       /\ QUERY_COUNT (snd out) !! "loc_repo_scan" = Some (0 + calls)
       /\ match fst out with
          | Ok _ => calls = answered "loc_repo_scan" tr
          | _ => answered "loc_repo_scan" tr <= calls <= answered "loc_repo_scan" tr + 1
          end
       /\ answered "loc_repo_scan" tr <= sent "loc_repo_scan" tr.
Proof.
  cbv zeta. split; [reflexivity|].
  exact (proj2
           (counter_incremented_once_per_call unit (Sim.fixed Sim.upstream) Sim.clock
              Sim.age "octo" true false 3 Sim.backoff Sim.pow Sim.sleep_max
              Sim.toy_sha256 5 (Sim.initial tt None) "loc_repo_scan" 0 eq_refl)).
Defined.

(** ** The aggregator on a fixed upstream *)



(** C2, on the account with two repositories and a current entry for
    each: the pass has gone through the first and is at the second,
    whose stored total 1 is the one its probe returns. *)
Lemma cache_valid_entry_is_reused_witness :
  let st := Sim.initial tt (Some Sim.two_cache) in
  let repos := ["octo/cat"; "octo/dog"] in
  let lines := drop CACHE_COMMENT_LINES Sim.two_cache in
  let cat := Sim.fingerprint +:+ " 1 1 10 2" +:+ newline in
  let dog := Sim.fingerprint_dog +:+ " 1 4 40 4" +:+ newline in
  let s2 := snd (collect_repo_full_names unit (Sim.fixed Sim.two_page_account)
                   3 Sim.backoff Sim.pow Sim.sleep_max 5 "octo" st) in
  let s3 := snd (get_repo_commit_total unit (Sim.fixed Sim.two_page_account)
                   3 Sim.backoff Sim.pow Sim.sleep_max "octo" "cat" s2) in
  let s4 := snd (get_repo_commit_total unit (Sim.fixed Sim.two_page_account)
                   3 Sim.backoff Sim.pow Sim.sleep_max "octo" "dog" s3) in
  (pass_at unit (Sim.fixed Sim.two_page_account) Sim.clock "octo" false
     3 Sim.backoff Sim.pow Sim.sleep_max Sim.toy_sha256 5 "octo" st
     repos Sim.two_cache ["octo/cat"] [(cat, (1, 10, 2))] s3
   /\ lines !! 1%nat = Some dog
   /\ Py.split dog = [Sim.fingerprint_dog; "1"; "4"; "40"; "4"]
   /\ Sim.fingerprint_dog = hexdigest (Sim.toy_sha256 "octo/dog")
   /\ Py.split_on "/" "octo/dog" = ["octo"; "dog"]
   /\ get_repo_commit_total unit (Sim.fixed Sim.two_page_account)
        3 Sim.backoff Sim.pow Sim.sleep_max "octo" "dog" s3 = (Ok 1, s4)
   /\ Py.int "1" = Some 1 /\ Py.int "4" = Some 4 /\ Py.int "40" = Some 40
   /\ iterations unit (Sim.fixed Sim.two_page_account) Sim.clock "octo" false
        3 Sim.backoff Sim.pow Sim.sleep_max Sim.toy_sha256 5 repos lines 2 [] [] s4 s4)
  /\ heavy_stats unit (Sim.fixed Sim.two_page_account) Sim.clock "octo" false
       3 Sim.backoff Sim.pow Sim.sleep_max Sim.toy_sha256 6 "octo" st
     = (Ok (5, 50, 6, 44), set_cache unit (Some Sim.two_cache) s4).
Proof.
  cbv zeta.
  set (st := Sim.initial tt (Some Sim.two_cache)).
  set (s2 := snd (collect_repo_full_names unit (Sim.fixed Sim.two_page_account)
                    3 Sim.backoff Sim.pow Sim.sleep_max 5 "octo" st)).
  set (s3 := snd (get_repo_commit_total unit (Sim.fixed Sim.two_page_account)
                    3 Sim.backoff Sim.pow Sim.sleep_max "octo" "cat" s2)).
  set (s4 := snd (get_repo_commit_total unit (Sim.fixed Sim.two_page_account)
                    3 Sim.backoff Sim.pow Sim.sleep_max "octo" "dog" s3)).
  assert (Hpass : pass_at unit (Sim.fixed Sim.two_page_account) Sim.clock "octo" false
                    3 Sim.backoff Sim.pow Sim.sleep_max Sim.toy_sha256 5 "octo" st
                    ["octo/cat"; "octo/dog"] Sim.two_cache ["octo/cat"]
                    [(Sim.fingerprint +:+ " 1 1 10 2" +:+ newline, (1, 10, 2))] s3).
  { exists s2, s2. split; [vm_compute; reflexivity|]. split; [vm_compute; reflexivity|].
    split; [vm_compute; reflexivity|].
    econstructor; [|constructor]. vm_compute. reflexivity. }
  assert (Hsplit : Py.split (Sim.fingerprint_dog +:+ " 1 4 40 4" +:+ newline)
                   = [Sim.fingerprint_dog; "1"; "4"; "40"; "4"])
    by (vm_compute; reflexivity).
  assert (Hprobe : get_repo_commit_total unit (Sim.fixed Sim.two_page_account)
                     3 Sim.backoff Sim.pow Sim.sleep_max "octo" "dog" s3 = (Ok 1, s4))
    by (vm_compute; reflexivity).
  assert (Hrest : iterations unit (Sim.fixed Sim.two_page_account) Sim.clock "octo" false
                    3 Sim.backoff Sim.pow Sim.sleep_max Sim.toy_sha256 5
                    ["octo/cat"; "octo/dog"] (drop CACHE_COMMENT_LINES Sim.two_cache)
                    2 [] [] s4 s4) by constructor.
  split.
  { exact (conj Hpass (conj eq_refl (conj Hsplit (conj eq_refl (conj eq_refl
             (conj Hprobe (conj eq_refl (conj eq_refl (conj eq_refl Hrest))))))))). }
  exact (proj1 (proj2 (proj2
           (cache_valid_entry_is_reused unit (Sim.fixed Sim.two_page_account) Sim.clock
              "octo" false 3 Sim.backoff Sim.pow Sim.sleep_max Sim.toy_sha256 5 "octo" st
              Sim.two_cache ["octo/cat"] "octo/dog" []
              [(Sim.fingerprint +:+ " 1 1 10 2" +:+ newline, (1, 10, 2))] s3
              (Sim.fingerprint_dog +:+ " 1 4 40 4" +:+ newline)
              Sim.fingerprint_dog "1" "4" "40" "4" "octo" "dog" 1 4 40 4 s4 [] s4
              Hpass eq_refl Hsplit eq_refl eq_refl Hprobe eq_refl eq_refl eq_refl eq_refl
              Hrest)))).
Defined.

(** C9, counterexample.  Two runs over a cache that says three commits.
    In the first the probe of the loop finds no default branch, and the
    scan, whose own probe finds the branch again, counts the commit of
    the user: the entry is written with total 0 and the triple
    (1, 10, 2).  In the second the repository has no default branch; the
    only request after the listing is the probe; and the pass takes the
    entry as valid, reports (1, 10, 2) for the repository, adds it to
    the sums and writes it back. *)
Lemma empty_branch_with_cached_counts :
  let st := Sim.initial Sim.flickering (Some Sim.old_cache) in
  let run := heavy_stats (list post_result) Sim.scripted Sim.clock "octo" false
               3 Sim.backoff Sim.pow Sim.sleep_max Sim.toy_sha256 5 "octo" in
  let st1 := snd (run st) in
  let st2 := snd (run st1) in
  fst (run st) = Ok (1, 10, 2, 8)
  /\ CACHE_FILE st1 = Some (Sim.header ++ [ Sim.fingerprint +:+ " 0 1 10 2" +:+ newline ])
  /\ drop (length (trace st1)) (trace st2)
     = [ EvPost (QLocListRepos "octo" None) (Sim.ok (Sim.repo_page ["octo/cat"]));
         EvPost (QCommitTotal "octo" "cat") (Sim.ok (PRepository None)) ]
  /\ fst (run st1) = Ok (1, 10, 2, 8)
  /\ CACHE_FILE st2 = CACHE_FILE st1.
Proof. vm_compute. repeat split. Qed.

(** C9, on the example account when the repository has lost its default
    branch: the entry still says three commits, so the rescan runs, and
    its probe too finds no branch; the pass returns zeros and leaves the
    zeroed entry. *)
Lemma empty_branch_entry_witness :
  let st := Sim.initial tt (Some Sim.old_cache) in
  let line := Sim.fingerprint +:+ " 3 1 10 2" +:+ newline in
  let probe := gql unit (Sim.fixed Sim.empty_upstream) 3 Sim.backoff Sim.pow Sim.sleep_max
                 (QCommitTotal "octo" "cat") "loc_repo_scan" in
  let s2 := snd (collect_repo_full_names unit (Sim.fixed Sim.empty_upstream)
                   3 Sim.backoff Sim.pow Sim.sleep_max 5 "octo" st) in
  let s3 := snd (probe (counted unit "loc_repo_scan" s2)) in
  let s4 := snd (probe (counted unit "loc_repo_scan" s3)) in
  (pass_at unit (Sim.fixed Sim.empty_upstream) Sim.clock "octo" false
     3 Sim.backoff Sim.pow Sim.sleep_max Sim.toy_sha256 5 "octo" st
     ["octo/cat"] Sim.old_cache [] [] s2
   /\ drop CACHE_COMMENT_LINES Sim.old_cache !! 0%nat = Some line
   /\ Py.split line = [Sim.fingerprint; "3"; "1"; "10"; "2"]
   /\ Sim.fingerprint = hexdigest (Sim.toy_sha256 "octo/cat")
   /\ Py.split_on "/" "octo/cat" = ["octo"; "cat"]
   /\ Py.int "3" = Some 3
   /\ probe_finds_no_ref unit (Sim.fixed Sim.empty_upstream)
        3 Sim.backoff Sim.pow Sim.sleep_max "octo" "cat" s2 s3
   /\ 3 <> 0
   /\ probe_finds_no_ref unit (Sim.fixed Sim.empty_upstream)
        3 Sim.backoff Sim.pow Sim.sleep_max "octo" "cat" s3 s4
   /\ iterations unit (Sim.fixed Sim.empty_upstream) Sim.clock "octo" false
        3 Sim.backoff Sim.pow Sim.sleep_max Sim.toy_sha256 5 ["octo/cat"]
        (drop CACHE_COMMENT_LINES Sim.old_cache) 1 [] [] s4 s4)
  /\ scan_repo_history unit (Sim.fixed Sim.empty_upstream) "octo"
       3 Sim.backoff Sim.pow Sim.sleep_max 5 "octo" "cat" s2 = (Ok (0, 0, 0, 0), s3)
  /\ heavy_stats unit (Sim.fixed Sim.empty_upstream) Sim.clock "octo" false
       3 Sim.backoff Sim.pow Sim.sleep_max Sim.toy_sha256 6 "octo" st
     = (Ok (0, 0, 0, 0),
        set_cache unit
          (Some (Sim.header ++ [ zeroed_entry Sim.toy_sha256 "octo/cat" ])) s4).
Proof.
  cbv zeta.
  set (st := Sim.initial tt (Some Sim.old_cache)).
  set (probe := gql unit (Sim.fixed Sim.empty_upstream) 3 Sim.backoff Sim.pow Sim.sleep_max
                  (QCommitTotal "octo" "cat") "loc_repo_scan").
  set (s2 := snd (collect_repo_full_names unit (Sim.fixed Sim.empty_upstream)
                    3 Sim.backoff Sim.pow Sim.sleep_max 5 "octo" st)).
  set (s3 := snd (probe (counted unit "loc_repo_scan" s2))).
  set (s4 := snd (probe (counted unit "loc_repo_scan" s3))).
  assert (Hpass : pass_at unit (Sim.fixed Sim.empty_upstream) Sim.clock "octo" false
                    3 Sim.backoff Sim.pow Sim.sleep_max Sim.toy_sha256 5 "octo" st
                    ["octo/cat"] Sim.old_cache [] [] s2).
  { exists s2, s2. split; [vm_compute; reflexivity|]. split; [vm_compute; reflexivity|].
    split; [vm_compute; reflexivity | constructor]. }
  assert (Hsplit : Py.split (Sim.fingerprint +:+ " 3 1 10 2" +:+ newline)
                   = [Sim.fingerprint; "3"; "1"; "10"; "2"])
    by (vm_compute; reflexivity).
  assert (Hp1 : probe_finds_no_ref unit (Sim.fixed Sim.empty_upstream)
                  3 Sim.backoff Sim.pow Sim.sleep_max "octo" "cat" s2 s3).
  { split; [exists 0; vm_compute; reflexivity|].
    exists (Body [] (PRepository None)). split; [vm_compute; reflexivity | reflexivity]. }
  assert (Hp2 : probe_finds_no_ref unit (Sim.fixed Sim.empty_upstream)
                  3 Sim.backoff Sim.pow Sim.sleep_max "octo" "cat" s3 s4).
  { split; [exists 1; vm_compute; reflexivity|].
    exists (Body [] (PRepository None)). split; [vm_compute; reflexivity | reflexivity]. }
  assert (Hne : 3 <> 0) by lia.
  assert (Hrest : iterations unit (Sim.fixed Sim.empty_upstream) Sim.clock "octo" false
                    3 Sim.backoff Sim.pow Sim.sleep_max Sim.toy_sha256 5 ["octo/cat"]
                    (drop CACHE_COMMENT_LINES Sim.old_cache) 1 [] [] s4 s4) by constructor.
  pose proof (empty_branch_entry unit (Sim.fixed Sim.empty_upstream) Sim.clock "octo"
                false 3 Sim.backoff Sim.pow Sim.sleep_max Sim.toy_sha256 5 "octo" st
                Sim.old_cache [] "octo/cat" [] [] s2
                (Sim.fingerprint +:+ " 3 1 10 2" +:+ newline)
                Sim.fingerprint "3" "1" "10" "2" "octo" "cat" 3 s3
                Hpass eq_refl Hsplit eq_refl eq_refl eq_refl Hp1)
    as (_ & Hscan & _ & Hrescan & _).
  split.
  { exact (conj Hpass (conj eq_refl (conj Hsplit (conj eq_refl (conj eq_refl
             (conj eq_refl (conj Hp1 (conj Hne (conj Hp2 Hrest))))))))). }
  split; [exact Hscan|].
  exact (proj2 (Hrescan s4 [] s4 Hne Hp2 Hrest)).
Defined.

(** C1, counterexample.  The only entry of the cache carries a foreign
    fingerprint and the force flag is off.  The pass restarts after the
    first mismatch and again after the second, lists the repositories
    three times, and fails on the third mismatch with the guard at 2;
    the cache file is never rebuilt. *)
Lemma mismatch_restarts_twice_without_rebuild :
  let st := Sim.initial tt (Some Sim.stale_cache) in
  let out := heavy_stats unit (Sim.fixed Sim.upstream) Sim.clock "octo" false
               3 Sim.backoff Sim.pow Sim.sleep_max Sim.toy_sha256 5 "octo" st in
  fst out = Raise (RuntimeError "Cache hash mismatch recursion guard triggered")
  /\ RECURSION_GUARD st = 0
  /\ RECURSION_GUARD (snd out) = 2
  /\ posts (trace (snd out)) = 3%nat
  /\ CACHE_FILE (snd out) = Some Sim.stale_cache.
Proof. vm_compute. repeat split. Qed.

(** C1, on the same cache: the first pass has the listing and is at the
    only entry, with the guard at 0. *)
Lemma fingerprint_mismatch_restarts_witness :
  let st := Sim.initial tt (Some Sim.stale_cache) in
  let line := "deadbeef 3 1 10 2" +:+ newline in
  let run := heavy_stats unit (Sim.fixed Sim.upstream) Sim.clock "octo" false
               3 Sim.backoff Sim.pow Sim.sleep_max Sim.toy_sha256 in
  let s2 := snd (collect_repo_full_names unit (Sim.fixed Sim.upstream)
                   3 Sim.backoff Sim.pow Sim.sleep_max 5 "octo" st) in
  (pass_at unit (Sim.fixed Sim.upstream) Sim.clock "octo" false
     3 Sim.backoff Sim.pow Sim.sleep_max Sim.toy_sha256 5 "octo" st
     ["octo/cat"] Sim.stale_cache [] [] s2
   /\ drop CACHE_COMMENT_LINES Sim.stale_cache !! 0%nat = Some line
   /\ Py.split line = ["deadbeef"; "3"; "1"; "10"; "2"]
   /\ Py.split_on "/" "octo/cat" = ["octo"; "cat"]
   /\ "deadbeef" <> hexdigest (Sim.toy_sha256 "octo/cat")
   /\ RECURSION_GUARD s2 <= 1)
  /\ exists st4,
       RECURSION_GUARD st4 = RECURSION_GUARD s2 + 1
       /\ trace st4 = trace s2
       /\ run 6%nat "octo" st = run 5%nat "octo" st4.
Proof.
  cbv zeta.
  set (st := Sim.initial tt (Some Sim.stale_cache)).
  set (s2 := snd (collect_repo_full_names unit (Sim.fixed Sim.upstream)
                    3 Sim.backoff Sim.pow Sim.sleep_max 5 "octo" st)).
  assert (Hpass : pass_at unit (Sim.fixed Sim.upstream) Sim.clock "octo" false
                    3 Sim.backoff Sim.pow Sim.sleep_max Sim.toy_sha256 5 "octo" st
                    ["octo/cat"] Sim.stale_cache [] [] s2).
  { exists s2, s2. split; [vm_compute; reflexivity|]. split; [vm_compute; reflexivity|].
    split; [vm_compute; reflexivity | constructor]. }
  assert (Hne : "deadbeef" <> hexdigest (Sim.toy_sha256 "octo/cat"))
    by (vm_compute; discriminate).
  assert (Hg : RECURSION_GUARD s2 <= 1) by (vm_compute; discriminate).
  split; [exact (conj Hpass (conj eq_refl (conj eq_refl (conj eq_refl (conj Hne Hg)))))|].
  destruct (proj1 (proj2
              (fingerprint_mismatch_restarts unit (Sim.fixed Sim.upstream) Sim.clock
                 "octo" false 3 Sim.backoff Sim.pow Sim.sleep_max Sim.toy_sha256 5 "octo" st
                 Sim.stale_cache [] "octo/cat" [] [] s2
                 ("deadbeef 3 1 10 2" +:+ newline) "deadbeef" "3" "1" "10" "2"
                 "octo" "cat" Hpass eq_refl eq_refl eq_refl Hne)) Hg)
    as (st4 & _ & Hguard & Htrace & Hrun).
  exists st4. exact (conj Hguard (conj Htrace Hrun)).
Defined.




(** ** Light mode on the example account *)

Lemma light_mode_shows_placeholders_witness :
  let run := main unit (Sim.fixed Sim.upstream) Sim.clock Sim.age "octo" false false 3
               Sim.backoff Sim.pow Sim.sleep_max Sim.toy_sha256 5 (Sim.initial tt None) in
  let stats := match fst run with Ok stats => stats | _ => ∅ end in
  let c := Element None (Some "600") [] in
  (false = false
   /\ run = (Ok stats, snd run)
   /\ Py.int (default "370" (attr_x c)) = Some 370
   /\ Py.int (default "580" (attr_y c)) = Some 600)
  /\ stats !! "commits" = Some (VInt 0)
  /\ stats !! "loc_add" = None /\ stats !! "loc_del" = None /\ stats !! "loc_net" = None
  /\ exists stat_lines,
       build_stats_container unit "..." (Some c) stats (Sim.initial tt None)
       = (Ok (Some {| attr_x := attr_x c; attr_y := attr_y c;
                      children :=
                        stat_lines ++
                        [ Tspan (Some (Py.str 370)) (Some (Py.str (600 + 40)))
                            "keyColor" None "Lines of Code:";
                          Tspan None None "valueColor" (Some "loc_data") "--";
                          Tspan None None "valueColor" None " (";
                          Tspan None None "addColor" (Some "loc_add") "+0";
                          Tspan None None "valueColor" None ", ";
                          Tspan None None "delColor" (Some "loc_del") "-0";
                          Tspan None None "valueColor" None ")" ] |}),
          Sim.initial tt None).
Proof.
  cbv zeta.
  assert (Hm : main unit (Sim.fixed Sim.upstream) Sim.clock Sim.age "octo" false false 3
                 Sim.backoff Sim.pow Sim.sleep_max Sim.toy_sha256 5 (Sim.initial tt None)
               = (Ok (match fst (main unit (Sim.fixed Sim.upstream) Sim.clock Sim.age
                                   "octo" false false
                                     3 Sim.backoff Sim.pow Sim.sleep_max Sim.toy_sha256 5
                                   (Sim.initial tt None))
                      with Ok stats => stats | _ => ∅ end),
                  snd (main unit (Sim.fixed Sim.upstream) Sim.clock Sim.age "octo" false
                         false
                           3
                             Sim.backoff Sim.pow Sim.sleep_max
                               Sim.toy_sha256 5 (Sim.initial tt None))))
    by (vm_compute; reflexivity).
  split; [exact (conj eq_refl (conj Hm (conj eq_refl eq_refl)))|].
  exact (light_mode_shows_placeholders unit (Sim.fixed Sim.upstream) Sim.clock Sim.age
           "octo" false false
             3 Sim.backoff Sim.pow Sim.sleep_max Sim.toy_sha256 "..." 5 (Sim.initial tt None)
           _ _ (Element None (Some "600") []) 370 600 (Sim.initial tt None)
           eq_refl Hm eq_refl eq_refl).
Defined.

(** * Further worked examples *)

(** ** The tagline and the container *)

(** X13, on a tagline of four words with room for ten characters a
    line: "build things" and "things that" do not fit, "that last"
    does. *)
Lemma wrap_tagline_wraps_greedily_witness :
  let t := Sim.tagline_example in
  (tag_text t = Some "  build things that last  "
   /\ tag_max_width t = Some "90" /\ "90" <> ""
   /\ Py.int "90" = Some 90 /\ 0 < 90
   /\ 90 < approx_text_px (Py.strip "  build things that last  "))
  /\ wrap_tagline (Some t)
     = Ok (Some {| tag_text := Some "build"; tag_max_width := Some "90";
                   tag_x := Some "30"; tag_y := Some "380";
                   tag_children := [ TaglineSpan "30" "398" "things";
                                     TaglineSpan "30" "416" "that last" ] |})
  /\ exists first rest,
       concat (first :: rest) = ["build"; "things"; "that"; "last"]
       /\ Forall (fits_or_single 90) (first :: rest)
       /\ greedy 90 (first :: rest).
Proof.
  cbv zeta.
  assert (H3 : "90" <> "") by discriminate.
  assert (H5 : 0 < 90) by lia.
  assert (H6 : 90 < approx_text_px (Py.strip "  build things that last  "))
    by (vm_compute; reflexivity).
  split; [exact (conj eq_refl (conj eq_refl (conj H3 (conj eq_refl (conj H5 H6)))))|].
  split; [vm_compute; reflexivity|].
  destruct (wrap_tagline_wraps_greedily Sim.tagline_example "  build things that last  "
              "90" 90 eq_refl eq_refl H3 eq_refl H5 H6)
    as (first & rest & _ & Hc & Hf & Hg & _).
  exists first, rest. exact (conj Hc (conj Hf Hg)).
Defined.

(** The attributes are read as [int] reads them: with the width written
    ["9_0"] and [y] written ["1_0"], the same tagline is wrapped at 90
    pixels and its further lines are placed from 10 on. *)
Example wrap_tagline_reads_grouped_digits :
  wrap_tagline (Some {| tag_text := Some "  build things that last  ";
                        tag_max_width := Some "9_0"; tag_x := None;
                        tag_y := Some "1_0"; tag_children := [] |})
  = Ok (Some {| tag_text := Some "build"; tag_max_width := Some "9_0";
                tag_x := None; tag_y := Some "1_0";
                tag_children := [ TaglineSpan "30" "28" "things";
                                  TaglineSpan "30" "46" "that last" ] |}).
Proof. vm_compute. reflexivity. Qed.

(** X10, on a container at (370, 580) with small counts: the first line
    takes 234 pixels and its gaps are 168 wide, so that Stars ends at
    940; the second takes 243 and its gap is 327. *)
Lemma stat_lines_layout_witness :
  let v := Sim.shown_example in
  (v !! "repos" = Some "2" /\ v !! "contrib" = Some "3" /\ v !! "stars" = Some "8"
   /\ v !! "commits" = Some "1,234" /\ v !! "followers" = Some "42")
  /\ build_lines unit v 370 580 0 line_defs (Sim.initial tt None)
     = (Ok [ Tspan (Some "370") (Some "580") "keyColor" None "Repos:";
             Tspan None None "valueColor" (Some "repo_data") "2";
             Tspan (Some "610") (Some "580") "keyColor" None "Contrib:";
             Tspan None None "valueColor" (Some "contrib_data") "3";
             Tspan (Some "868") (Some "580") "keyColor" None "Stars:";
             Tspan None None "valueColor" (Some "star_data") "8";
             Tspan (Some "370") (Some "600") "keyColor" None "Commits:";
             Tspan None None "valueColor" (Some "commit_data") "1,234";
             Tspan (Some "823") (Some "600") "keyColor" None "Followers:";
             Tspan None None "valueColor" (Some "follower_data") "42" ],
        Sim.initial tt None).
Proof.
  cbv zeta.
  split; [repeat split; reflexivity|].
  exact (proj1 (stat_lines_layout unit Sim.shown_example 370 580 "2" "3" "8" "1,234" "42"
                  eq_refl eq_refl eq_refl eq_refl eq_refl) (Sim.initial tt None)).
Defined.

(** X11, on a container that holds an old child and a record with only
    the stars. *)
Lemma build_stats_container_rebuilds_witness :
  let c := Element None (Some "600") [ Tspan None None "valueColor" None "stale" ] in
  let stats : gmap string value := <["stars" := VInt 8]> ∅ in
  let st := Sim.initial tt None in
  let out := build_stats_container unit "..." (Some c) stats st in
  let c' := match fst out with Ok (Some c') => c' | _ => c end in
  out = (Ok (Some c'), st)
  /\ length (children c') = 17%nat
  /\ build_stats_container unit "..." (Some c') stats st = (Ok (Some c'), st).
Proof.
  cbv zeta.
  set (c := Element None (Some "600") [ Tspan None None "valueColor" None "stale" ]).
  set (stats := (<["stars" := VInt 8]> ∅ : gmap string value)).
  set (st := Sim.initial tt None).
  set (c' := match fst (build_stats_container unit "..." (Some c) stats st) with
             | Ok (Some c') => c' | _ => c end).
  assert (H : build_stats_container unit "..." (Some c) stats st = (Ok (Some c'), st))
    by (vm_compute; reflexivity).
  destruct (build_stats_container_rebuilds unit "..." c stats st c' st H)
    as (_ & _ & _ & Hlen & _ & Hidem).
  exact (conj H (conj Hlen Hidem)).
Defined.

(** X12, on the example account with heavy mode on. *)
Lemma heavy_mode_shows_loc_witness :
  let st := Sim.initial tt None in
  let run := main unit (Sim.fixed Sim.upstream) Sim.clock Sim.age "octo" true false 3
               Sim.backoff Sim.pow Sim.sleep_max Sim.toy_sha256 5 st in
  let stats := match fst run with Ok stats => stats | _ => ∅ end in
  let c := Element None (Some "600") [] in
  (true = true
   /\ run = (Ok stats, snd run)
   /\ Py.int (default "370" (attr_x c)) = Some 370
   /\ Py.int (default "580" (attr_y c)) = Some 600)
  /\ stats !! "loc_add" = Some (VInt 10) /\ stats !! "loc_del" = Some (VInt 2)
  /\ stats !! "loc_net" = Some (VInt 8)
  /\ exists commits loc_add loc_del stat_lines,
       stats !! "commits" = Some (VInt commits)
       /\ build_stats_container unit "..." (Some c) stats st
          = (Ok (Some {| attr_x := attr_x c; attr_y := attr_y c;
                         children :=
                           stat_lines ++
                           [ Tspan (Some (Py.str 370)) (Some (Py.str (600 + 40)))
                               "keyColor" None "Lines of Code:";
                             Tspan None None "valueColor" (Some "loc_data")
                               (truncate_text "..." (Py.format_int (loc_add - loc_del)) 15);
                             Tspan None None "valueColor" None " (";
                             Tspan None None "addColor" (Some "loc_add")
                               (truncate_text "..." ("+" +:+ Py.format_int loc_add) 10);
                             Tspan None None "valueColor" None ", ";
                             Tspan None None "delColor" (Some "loc_del")
                               (truncate_text "..." ("-" +:+ Py.format_int loc_del) 10);
                             Tspan None None "valueColor" None ")" ] |}), st).
Proof.
  cbv zeta.
  set (st := Sim.initial tt None).
  set (stats := match fst (main unit (Sim.fixed Sim.upstream) Sim.clock Sim.age "octo"
                             true false 3 Sim.backoff Sim.pow Sim.sleep_max Sim.toy_sha256 5 st)
                with Ok stats => stats | _ => ∅ end).
  assert (Hm : main unit (Sim.fixed Sim.upstream) Sim.clock Sim.age "octo" true false 3
                 Sim.backoff Sim.pow Sim.sleep_max Sim.toy_sha256 5 st
               = (Ok stats,
                  snd (main unit (Sim.fixed Sim.upstream) Sim.clock Sim.age "octo" true
                         false 3 Sim.backoff Sim.pow Sim.sleep_max Sim.toy_sha256 5 st)))
    by (vm_compute; reflexivity).
  split; [exact (conj eq_refl (conj Hm (conj eq_refl eq_refl)))|].
  split; [vm_compute; reflexivity|]. split; [vm_compute; reflexivity|].
  split; [vm_compute; reflexivity|].
  destruct (heavy_mode_shows_loc unit (Sim.fixed Sim.upstream) Sim.clock Sim.age
              "octo" true false
                3 Sim.backoff Sim.pow Sim.sleep_max Sim.toy_sha256 "..." 5 st stats _
              (Element None (Some "600") []) 370 600 st eq_refl Hm eq_refl eq_refl)
    as (commits & add & del & Hc & _ & _ & _ & stat_lines & Hb).
  exists commits, add, del, stat_lines. exact (conj Hc Hb).
Defined.

(** ** The cache file on the example account *)

(** X6, on the account with two repositories and a cache whose first
    entry was left when its repository had three commits: the probe
    says one, the scan finds the commit of the user, the second entry
    is current, and the pass returns the sums of both with the first
    line now saying [1 1 10 2]. *)
Lemma stale_entry_is_rescanned_witness :
  let st := Sim.initial tt (Some Sim.two_cache_old) in
  let repos := ["octo/cat"; "octo/dog"] in
  let lines := drop CACHE_COMMENT_LINES Sim.two_cache_old in
  let cat := Sim.fingerprint +:+ " 3 1 10 2" +:+ newline in
  let dog := Sim.fingerprint_dog +:+ " 1 4 40 4" +:+ newline in
  let s2 := snd (collect_repo_full_names unit (Sim.fixed Sim.two_page_account)
                   3 Sim.backoff Sim.pow Sim.sleep_max 5 "octo" st) in
  let s3 := snd (get_repo_commit_total unit (Sim.fixed Sim.two_page_account)
                   3 Sim.backoff Sim.pow Sim.sleep_max "octo" "cat" s2) in
  let s4 := snd (scan_repo_history unit (Sim.fixed Sim.two_page_account) "octo"
                   3 Sim.backoff Sim.pow Sim.sleep_max 5 "octo" "cat" s3) in
  let s5 := snd (get_repo_commit_total unit (Sim.fixed Sim.two_page_account)
                   3 Sim.backoff Sim.pow Sim.sleep_max "octo" "dog" s4) in
  (pass_at unit (Sim.fixed Sim.two_page_account) Sim.clock "octo" false
     3 Sim.backoff Sim.pow Sim.sleep_max Sim.toy_sha256 5 "octo" st
     repos Sim.two_cache_old [] [] s2
   /\ lines !! 0%nat = Some cat
   /\ Py.split cat = [Sim.fingerprint; "3"; "1"; "10"; "2"]
   /\ Sim.fingerprint = hexdigest (Sim.toy_sha256 "octo/cat")
   /\ Py.split_on "/" "octo/cat" = ["octo"; "cat"]
   /\ get_repo_commit_total unit (Sim.fixed Sim.two_page_account)
        3 Sim.backoff Sim.pow Sim.sleep_max "octo" "cat" s2 = (Ok 1, s3)
   /\ Py.int "3" = Some 3 /\ 1 <> 3
   /\ scan_repo_history unit (Sim.fixed Sim.two_page_account) "octo"
        3 Sim.backoff Sim.pow Sim.sleep_max 5 "octo" "cat" s3 = (Ok (1, 1, 10, 2), s4)
   /\ iterations unit (Sim.fixed Sim.two_page_account) Sim.clock "octo" false
        3 Sim.backoff Sim.pow Sim.sleep_max Sim.toy_sha256 5 repos lines 1
        ["octo/dog"] [(dog, (4, 40, 4))] s4 s5)
  /\ heavy_stats unit (Sim.fixed Sim.two_page_account) Sim.clock "octo" false
       3 Sim.backoff Sim.pow Sim.sleep_max Sim.toy_sha256 6 "octo" st
     = (Ok (5, 50, 6, 44), set_cache unit (Some Sim.two_cache) s5)
  /\ entry_fields (entry_line Sim.fingerprint 1 1 10 2)
     = Some (CacheEntry Sim.fingerprint 1 1 10 2).
Proof.
  cbv zeta.
  set (st := Sim.initial tt (Some Sim.two_cache_old)).
  set (s2 := snd (collect_repo_full_names unit (Sim.fixed Sim.two_page_account)
                    3 Sim.backoff Sim.pow Sim.sleep_max 5 "octo" st)).
  set (s3 := snd (get_repo_commit_total unit (Sim.fixed Sim.two_page_account)
                    3 Sim.backoff Sim.pow Sim.sleep_max "octo" "cat" s2)).
  set (s4 := snd (scan_repo_history unit (Sim.fixed Sim.two_page_account) "octo"
                    3 Sim.backoff Sim.pow Sim.sleep_max 5 "octo" "cat" s3)).
  set (s5 := snd (get_repo_commit_total unit (Sim.fixed Sim.two_page_account)
                    3 Sim.backoff Sim.pow Sim.sleep_max "octo" "dog" s4)).
  assert (Hpass : pass_at unit (Sim.fixed Sim.two_page_account) Sim.clock "octo" false
                    3 Sim.backoff Sim.pow Sim.sleep_max Sim.toy_sha256 5 "octo" st
                    ["octo/cat"; "octo/dog"] Sim.two_cache_old [] [] s2).
  { exists s2, s2. split; [vm_compute; reflexivity|]. split; [vm_compute; reflexivity|].
    split; [vm_compute; reflexivity | constructor]. }
  assert (Hsplit : Py.split (Sim.fingerprint +:+ " 3 1 10 2" +:+ newline)
                   = [Sim.fingerprint; "3"; "1"; "10"; "2"])
    by (vm_compute; reflexivity).
  assert (Hprobe : get_repo_commit_total unit (Sim.fixed Sim.two_page_account)
                     3 Sim.backoff Sim.pow Sim.sleep_max "octo" "cat" s2 = (Ok 1, s3))
    by (vm_compute; reflexivity).
  assert (Hscan : scan_repo_history unit (Sim.fixed Sim.two_page_account) "octo"
                    3 Sim.backoff Sim.pow Sim.sleep_max 5 "octo" "cat" s3
                  = (Ok (1, 1, 10, 2), s4))
    by (vm_compute; reflexivity).
  assert (Hne : 1 <> 3) by lia.
  assert (Hrest : iterations unit (Sim.fixed Sim.two_page_account) Sim.clock "octo" false
                    3 Sim.backoff Sim.pow Sim.sleep_max Sim.toy_sha256 5
                    ["octo/cat"; "octo/dog"] (drop CACHE_COMMENT_LINES Sim.two_cache_old)
                    1 ["octo/dog"]
                    [(Sim.fingerprint_dog +:+ " 1 4 40 4" +:+ newline, (4, 40, 4))] s4 s5).
  { econstructor; [|constructor]. vm_compute. reflexivity. }
  destruct (stale_entry_is_rescanned unit (Sim.fixed Sim.two_page_account) Sim.clock
              "octo" false 3 Sim.backoff Sim.pow Sim.sleep_max Sim.toy_sha256 5 "octo" st
              Sim.two_cache_old [] "octo/cat" ["octo/dog"] [] s2
              (Sim.fingerprint +:+ " 3 1 10 2" +:+ newline)
              Sim.fingerprint "3" "1" "10" "2" "octo" "cat" 1 3 s3 1 1 10 2 s4
              [(Sim.fingerprint_dog +:+ " 1 4 40 4" +:+ newline, (4, 40, 4))] s5
              Hpass eq_refl Hsplit eq_refl eq_refl Hprobe eq_refl Hne Hscan Hrest)
    as (Hrun & Hf & _).
  split; [|exact (conj Hrun Hf)].
  exact (conj Hpass (conj eq_refl (conj Hsplit (conj eq_refl (conj eq_refl (conj Hprobe
           (conj eq_refl (conj Hne (conj Hscan Hrest))))))))).
Defined.

(** X7, on the example account without a cache file: the pass returns
    (1, 10, 2, 8) and leaves one line that reads back as these counts. *)
Lemma heavy_stats_totals_match_cache_witness :
  let st := Sim.initial tt None in
  let run := heavy_stats unit (Sim.fixed Sim.upstream) Sim.clock "octo" false 3
               Sim.backoff Sim.pow Sim.sleep_max Sim.toy_sha256 5 "octo" st in
  run = (Ok (1, 10, 2, 8), snd run)
  /\ 8 = 10 - 2
  /\ exists lines entries,
       CACHE_FILE (snd run) = Some lines
       /\ map entry_fields (drop CACHE_COMMENT_LINES lines) = map Some entries
       /\ 1 = sumZ (map ce_my entries)
       /\ 10 = sumZ (map ce_add entries)
       /\ 2 = sumZ (map ce_del entries).
Proof.
  cbv zeta.
  assert (H : heavy_stats unit (Sim.fixed Sim.upstream) Sim.clock "octo" false 3
                Sim.backoff Sim.pow Sim.sleep_max Sim.toy_sha256 5 "octo" (Sim.initial tt None)
              = (Ok (1, 10, 2, 8),
                 snd (heavy_stats unit (Sim.fixed Sim.upstream) Sim.clock "octo" false 3
                        Sim.backoff Sim.pow Sim.sleep_max
                          Sim.toy_sha256 5 "octo" (Sim.initial tt None))))
    by (vm_compute; reflexivity).
  destruct (heavy_stats_totals_match_cache unit (Sim.fixed Sim.upstream) Sim.clock "octo"
              false
                3
                  Sim.backoff Sim.pow Sim.sleep_max
                    Sim.toy_sha256 5 "octo" (Sim.initial tt None) 1 10 2 8 _ H)
    as (Hnet & _ & _ & _ & _ & lines & entries & _ & Hc & He & _ & Hm & Ha & Hd).
  split; [exact H|]. split; [exact Hnet|].
  exists lines, entries. exact (conj Hc (conj He (conj Hm (conj Ha Hd)))).
Defined.

(** X8, on the example account when every probe is answered 500: the
    pass has rebuilt the missing cache and fails on the first probe. *)
Lemma failed_run_leaves_no_partial_update_witness :
  let st := Sim.initial tt None in
  let run := heavy_stats unit (Sim.fixed Sim.failing_probe) Sim.clock "octo" false 3
               Sim.backoff Sim.pow Sim.sleep_max Sim.toy_sha256 5 "octo" st in
  run = (Raise (RuntimeError "loc_repo_scan failed: 500 "), snd run)
  /\ (CACHE_FILE (snd run) = CACHE_FILE st
      \/ exists hdr listed,
           length hdr = CACHE_COMMENT_LINES
           /\ CACHE_FILE (snd run)
              = Some (hdr ++ map (zeroed_entry Sim.toy_sha256) listed)).
Proof.
  cbv zeta.
  assert (H : heavy_stats unit (Sim.fixed Sim.failing_probe) Sim.clock "octo" false 3
                Sim.backoff Sim.pow Sim.sleep_max Sim.toy_sha256 5 "octo" (Sim.initial tt None)
              = (Raise (RuntimeError "loc_repo_scan failed: 500 "),
                 snd (heavy_stats unit (Sim.fixed Sim.failing_probe) Sim.clock "octo"
                        false
                          3
                            Sim.backoff Sim.pow Sim.sleep_max
                              Sim.toy_sha256 5 "octo" (Sim.initial tt None))))
    by (vm_compute; reflexivity).
  exact (conj H (failed_run_leaves_no_partial_update unit (Sim.fixed Sim.failing_probe)
                   Sim.clock "octo" false
                     3 Sim.backoff Sim.pow Sim.sleep_max Sim.toy_sha256 5 "octo"
                   (Sim.initial tt None) _ _ H)).
Defined.

(** ** Light mode and the listings served in pages *)

(** X16, on the example account with heavy mode off. *)
Lemma light_mode_sends_no_heavy_query_witness :
  let st := Sim.initial tt (Some Sim.old_cache) in
  let st' := snd (main unit (Sim.fixed Sim.upstream) Sim.clock Sim.age "octo" false false
                    3 Sim.backoff Sim.pow Sim.sleep_max Sim.toy_sha256 5 st) in
  false = false
  /\ CACHE_FILE st' = CACHE_FILE st
  /\ RECURSION_GUARD st' = RECURSION_GUARD st
  /\ QUERY_COUNT st' !! "loc_list_repos" = QUERY_COUNT st !! "loc_list_repos"
  /\ QUERY_COUNT st' !! "loc_repo_scan" = QUERY_COUNT st !! "loc_repo_scan"
  /\ exists tr,
       trace st' = trace st ++ tr
       /\ forallb (fun ev => negb (is_heavy_post ev)) tr = true.
Proof.
  cbv zeta.
  exact (conj eq_refl
           (light_mode_sends_no_heavy_query unit (Sim.fixed Sim.upstream) Sim.clock Sim.age
              "octo" false false 3 Sim.backoff Sim.pow Sim.sleep_max Sim.toy_sha256 5
              (Sim.initial tt (Some Sim.old_cache)) eq_refl)).
Defined.

(** X4, on the account whose listing comes in two pages. *)
Lemma collect_repo_full_names_in_listing_order_witness :
  let st := Sim.initial tt None in
  let page1 := {| repos_totalCount := Some 2;
                  repos_edges := Some [ RepoNode (Some 5) (Some "octo/cat") ];
                  repos_pageInfo := PageInfo true (Some "page-2") |} in
  let page2 := {| repos_totalCount := Some 2;
                  repos_edges := Some [ RepoNode (Some 3) (Some "octo/dog") ];
                  repos_pageInfo := PageInfo false None |} in
  (answers unit (Sim.fixed Sim.two_page_account) Sim.two_page_account
   /\ 1 <= 3
   /\ QUERY_COUNT st !! "loc_list_repos" = Some 0
   /\ served_pages Sim.two_page_account (QLocListRepos "octo") None [page1; page2]
   /\ mapM page_names [page1; page2] = Some [["octo/cat"]; ["octo/dog"]]
   /\ (length [page1; page2] <= 5)%nat)
  /\ exists st',
       collect_repo_full_names unit (Sim.fixed Sim.two_page_account)
         3 Sim.backoff Sim.pow Sim.sleep_max 5 "octo" st
       = (Ok ["octo/cat"; "octo/dog"], st')
       /\ QUERY_COUNT st' = <["loc_list_repos" := 2]> (QUERY_COUNT st).
Proof.
  cbv zeta.
  set (page1 := {| repos_totalCount := Some 2;
                   repos_edges := Some [ RepoNode (Some 5) (Some "octo/cat") ];
                   repos_pageInfo := PageInfo true (Some "page-2") |}).
  set (page2 := {| repos_totalCount := Some 2;
                   repos_edges := Some [ RepoNode (Some 3) (Some "octo/dog") ];
                   repos_pageInfo := PageInfo false None |}).
  assert (Ha : answers unit (Sim.fixed Sim.two_page_account) Sim.two_page_account)
    by (intros q w; reflexivity).
  assert (H1 : 1 <= 3) by lia.
  assert (Hs : served_pages Sim.two_page_account (QLocListRepos "octo") None
                 [page1; page2]).
  { eapply served_pages_next; [reflexivity | reflexivity | reflexivity |].
    eapply served_pages_last; reflexivity. }
  assert (Hl : (length [page1; page2] <= 5)%nat) by (simpl; lia).
  split; [exact (conj Ha (conj H1 (conj eq_refl (conj Hs (conj eq_refl Hl)))))|].
  exact (collect_repo_full_names_in_listing_order unit (Sim.fixed Sim.two_page_account)
           3 Sim.backoff Sim.pow Sim.sleep_max Sim.two_page_account 5 "octo" (Sim.initial tt None) 0
           [page1; page2] [["octo/cat"]; ["octo/dog"]] Ha H1 eq_refl Hs eq_refl Hl).
Defined.

(** X2, on the same account: two owned pages with 5 and 3 stars, one
    contributed page with a total of 3. *)
Lemma get_repos_and_stars_sums_pages_witness :
  let st := Sim.initial tt None in
  let page1 := {| repos_totalCount := Some 2;
                  repos_edges := Some [ RepoNode (Some 5) (Some "octo/cat") ];
                  repos_pageInfo := PageInfo true (Some "page-2") |} in
  let page2 := {| repos_totalCount := Some 2;
                  repos_edges := Some [ RepoNode (Some 3) (Some "octo/dog") ];
                  repos_pageInfo := PageInfo false None |} in
  let page3 := {| repos_totalCount := Some 3; repos_edges := Some [];
                  repos_pageInfo := PageInfo false None |} in
  (answers unit (Sim.fixed Sim.two_page_account) Sim.two_page_account
   /\ 1 <= 3
   /\ QUERY_COUNT st !! "repos_stars" = Some 0
   /\ served_pages Sim.two_page_account (QOwnedRepos "octo") None [page1; page2]
   /\ served_pages Sim.two_page_account (QContribRepos "octo") None [page3]
   /\ mapM page_stars [page1; page2] = Some [5; 3]
   /\ mapM repos_totalCount [page1; page2] = Some [2; 2]
   /\ mapM repos_totalCount [page3] = Some [3]
   /\ (length [page1; page2] <= 5)%nat /\ (length [page3] <= 5)%nat)
  /\ exists st',
       get_repos_and_stars unit (Sim.fixed Sim.two_page_account)
         3 Sim.backoff Sim.pow Sim.sleep_max 5 "octo" st
       = (Ok (2, 8, 3), st')
       /\ QUERY_COUNT st' = <["repos_stars" := 3]> (QUERY_COUNT st).
Proof.
  cbv zeta.
  set (page1 := {| repos_totalCount := Some 2;
                   repos_edges := Some [ RepoNode (Some 5) (Some "octo/cat") ];
                   repos_pageInfo := PageInfo true (Some "page-2") |}).
  set (page2 := {| repos_totalCount := Some 2;
                   repos_edges := Some [ RepoNode (Some 3) (Some "octo/dog") ];
                   repos_pageInfo := PageInfo false None |}).
  set (page3 := {| repos_totalCount := Some 3; repos_edges := Some [];
                   repos_pageInfo := PageInfo false None |}).
  assert (Ha : answers unit (Sim.fixed Sim.two_page_account) Sim.two_page_account)
    by (intros q w; reflexivity).
  assert (H1 : 1 <= 3) by lia.
  assert (Ho : served_pages Sim.two_page_account (QOwnedRepos "octo") None [page1; page2]).
  { eapply served_pages_next; [reflexivity | reflexivity | reflexivity |].
    eapply served_pages_last; reflexivity. }
  assert (Hc : served_pages Sim.two_page_account (QContribRepos "octo") None [page3]).
  { eapply served_pages_last; reflexivity. }
  assert (Hlo : (length [page1; page2] <= 5)%nat) by (simpl; lia).
  assert (Hlc : (length [page3] <= 5)%nat) by (simpl; lia).
  split; [exact (conj Ha (conj H1 (conj eq_refl (conj Ho (conj Hc (conj eq_refl
                   (conj eq_refl (conj eq_refl (conj Hlo Hlc)))))))))|].
  exact (get_repos_and_stars_sums_pages unit (Sim.fixed Sim.two_page_account)
           3 Sim.backoff Sim.pow Sim.sleep_max Sim.two_page_account 5 "octo" (Sim.initial tt None) 0
           [page1; page2] [page3] [5; 3] [2; 2] [3]
           Ha H1 eq_refl Ho Hc eq_refl eq_refl eq_refl Hlo Hlc).
Defined.

(** X15, on the same account: 2 repositories, 8 stars, 3 contributed
    repositories, 42 followers. *)
Lemma light_run_returns_the_served_counts_witness :
  let st := Sim.initial tt None in
  let page1 := {| repos_totalCount := Some 2;
                  repos_edges := Some [ RepoNode (Some 5) (Some "octo/cat") ];
                  repos_pageInfo := PageInfo true (Some "page-2") |} in
  let page2 := {| repos_totalCount := Some 2;
                  repos_edges := Some [ RepoNode (Some 3) (Some "octo/dog") ];
                  repos_pageInfo := PageInfo false None |} in
  let page3 := {| repos_totalCount := Some 3; repos_edges := Some [];
                  repos_pageInfo := PageInfo false None |} in
  (false = false
   /\ answers unit (Sim.fixed Sim.two_page_account) Sim.two_page_account
   /\ 1 <= 3
   /\ is_Some (QUERY_COUNT st !! "user_getter")
   /\ is_Some (QUERY_COUNT st !! "followers")
   /\ is_Some (QUERY_COUNT st !! "repos_stars")
   /\ accepted (Sim.two_page_account (QUserGetter "octo"))
      = Some (Body [] (PUser "MOCKID" "2020-01-01T00:00:00Z"))
   /\ accepted (Sim.two_page_account (QFollowers "octo")) = Some (Body [] (PFollowers 42))
   /\ served_pages Sim.two_page_account (QOwnedRepos "octo") None [page1; page2]
   /\ served_pages Sim.two_page_account (QContribRepos "octo") None [page3]
   /\ mapM page_stars [page1; page2] = Some [5; 3]
   /\ mapM repos_totalCount [page1; page2] = Some [2; 2]
   /\ mapM repos_totalCount [page3] = Some [3]
   /\ (length [page1; page2] <= 5)%nat /\ (length [page3] <= 5)%nat)
  /\ exists st',
       main unit (Sim.fixed Sim.two_page_account) Sim.clock Sim.age "octo" false false 3
         Sim.backoff Sim.pow Sim.sleep_max Sim.toy_sha256 5 st
       = (Ok (<["commits" := VInt 0]> (<["followers" := VInt 42]>
              (<["contrib" := VInt 3]> (<["stars" := VInt 8]>
              (<["repos" := VInt 2]>
              (<["age" := VStr "19 years, 0 months, 1 day"]> ∅)))))), st').
Proof.
  cbv zeta.
  set (page1 := {| repos_totalCount := Some 2;
                   repos_edges := Some [ RepoNode (Some 5) (Some "octo/cat") ];
                   repos_pageInfo := PageInfo true (Some "page-2") |}).
  set (page2 := {| repos_totalCount := Some 2;
                   repos_edges := Some [ RepoNode (Some 3) (Some "octo/dog") ];
                   repos_pageInfo := PageInfo false None |}).
  set (page3 := {| repos_totalCount := Some 3; repos_edges := Some [];
                   repos_pageInfo := PageInfo false None |}).
  assert (Ha : answers unit (Sim.fixed Sim.two_page_account) Sim.two_page_account)
    by (intros q w; reflexivity).
  assert (H1 : 1 <= 3) by lia.
  assert (K1 : is_Some (QUERY_COUNT (Sim.initial tt None) !! "user_getter"))
    by (exists 0; reflexivity).
  assert (K2 : is_Some (QUERY_COUNT (Sim.initial tt None) !! "followers"))
    by (exists 0; reflexivity).
  assert (K3 : is_Some (QUERY_COUNT (Sim.initial tt None) !! "repos_stars"))
    by (exists 0; reflexivity).
  assert (Ho : served_pages Sim.two_page_account (QOwnedRepos "octo") None [page1; page2]).
  { eapply served_pages_next; [reflexivity | reflexivity | reflexivity |].
    eapply served_pages_last; reflexivity. }
  assert (Hc : served_pages Sim.two_page_account (QContribRepos "octo") None [page3]).
  { eapply served_pages_last; reflexivity. }
  assert (Hlo : (length [page1; page2] <= 5)%nat) by (simpl; lia).
  assert (Hlc : (length [page3] <= 5)%nat) by (simpl; lia).
  split.
  - exact (conj eq_refl (conj Ha (conj H1 (conj K1 (conj K2 (conj K3 (conj eq_refl
             (conj eq_refl (conj Ho (conj Hc (conj eq_refl (conj eq_refl (conj eq_refl
             (conj Hlo Hlc)))))))))))))).
  - exact (light_run_returns_the_served_counts unit (Sim.fixed Sim.two_page_account)
             Sim.clock Sim.age "octo" false false 3 Sim.backoff Sim.pow Sim.sleep_max Sim.toy_sha256
             Sim.two_page_account 5 (Sim.initial tt None) "MOCKID" "2020-01-01T00:00:00Z"
             42 [page1; page2] [page3] [5; 3] [2; 2] [3]
             (Body [] (PUser "MOCKID" "2020-01-01T00:00:00Z")) (Body [] (PFollowers 42))
             eq_refl Ha H1 K1 K2 K3 eq_refl eq_refl eq_refl eq_refl Ho Hc
             eq_refl eq_refl eq_refl Hlo Hlc).
Defined.

